(** * pyts.plot.main: quick-look plots of TurbSim data

    A shallow embedding of [pyts/plot/main.py].  The module is glue between
    the data objects of [pyts.main] ([tsdata], [tsrun]) and two external
    libraries, matplotlib and superaxes.  The embedding keeps the code of
    the module and abstracts the libraries:

    - the sample interval [dt] is a Python float, a binary64 number; the
      two divisions by it and [int()] round and fail as binary64 does;
    - the data in arrays are rationals, and the arithmetic on them is
      exact; arrays are lists of rationals, grid arrays are nested lists
      indexed component, height, lateral position (and time for [uturb]);
    - the spectral estimators of [matplotlib.mlab] are an interface
      ([Mlab]) whose results the module slices and forwards;
    - calls on axes and figures are recorded as events, in call order;
    - Python exceptions are results of type [res]; code that both draws and
      may raise returns the events issued before the exception as well;
    - format objects live in a store addressed by location, because
      [fig_axForms.__init__] assigns to attributes of the objects of the
      list it is given. *)

From Stdlib Require Import ZArith QArith Qpower Lia Floats.SpecFloat.
From stdpp Require Import base option list strings pretty gmap.

Local Open Scope Z_scope.

(** ** Components, exceptions and results *)

(** A velocity component: ['u'], ['v'], ['w'] or an integer index. *)
Inductive component : Type :=
| CStr (s : string)
| CInt (n : Z).

#[global] Instance component_eq_dec : EqDecision component.
Proof. solve_decision. Defined.

#[global] Instance component_countable : Countable component.
Proof.
  refine (inj_countable'
    (fun c => match c with CStr s => inl s | CInt n => inr n end)
    (fun x => match x with inl s => CStr s | inr n => CInt n end) _).
  intros []; reflexivity.
Defined.

Inductive exn : Type :=
| KeyError (key : component)
| IndexError
| TypeError
| ZeroDivisionError
| OverflowError
| ValueError
| AttributeError (attr : string)
| Exception (msg : string).

Inductive res (A : Type) : Type :=
| Ok (a : A)
| Raise (e : exn).
Arguments Ok {A} a.
Arguments Raise {A} e.

#[global] Instance res_ret : MRet res := fun A a => Ok a.
#[global] Instance res_bind : MBind res := fun A B k m =>
  match m with
  | Ok a => k a
  | Raise e => Raise e
  end.

(** ** Numbers and arrays *)

(** A Python float is a binary64 number: 53 bits of precision, exponents
    below 1024.  [S754_finite s m e] is [m * 2^e], negated when [s] is
    true. *)
Module float.

Definition prec : Z := 53.
Definition emax : Z := 1024.

(** The float nearest to an integer. *)
Definition of_int (n : Z) : spec_float := binary_normalize prec emax n 0 false.

(** The quotient, rounded to nearest, ties to even. *)
Definition div (x y : spec_float) : spec_float := SFdiv prec emax x y.

(** The float a decimal literal denotes, [n/d] with [n] and [d] integers
    that are floats themselves: [dec 5 100] is [0.05]. *)
Definition dec (n d : Z) : spec_float := div (of_int n) (of_int d).

Definition is_zero (x : spec_float) : bool :=
  match x with
  | S754_zero _ => true
  | _ => false
  end.

Definition is_infinity (x : spec_float) : bool :=
  match x with
  | S754_infinity _ => true
  | _ => false
  end.

Definition is_nan (x : spec_float) : bool :=
  match x with
  | S754_nan => true
  | _ => false
  end.

(** [x > 0] *)
Definition is_positive (x : spec_float) : bool := SFltb (S754_zero false) x.

End float.

(** An integer operand of a float operation is converted first; one too
    large for a float raises. *)
Definition py_float (n : Z) : res spec_float :=
  let x := float.of_int n in
  if float.is_infinity x then Raise OverflowError else Ok x.

(** [int(x)] of a float: truncation toward zero; infinities and NaN
    raise. *)
Definition py_int (x : spec_float) : res Z :=
  match x with
  | S754_zero _ => Ok 0
  | S754_finite s m e =>
      let a := Z.shiftl (Z.pos m) e in
      Ok (if s then - a else a)
  | S754_infinity _ => Raise OverflowError
  | S754_nan => Raise ValueError
  end.

(** [a / b] on floats; a zero divisor raises, an overflow gives an
    infinity. *)
Definition py_div (a b : spec_float) : res spec_float :=
  if float.is_zero b then Raise ZeroDivisionError else Ok (float.div a b).

(** The float [1.] *)
Definition one : spec_float := Eval vm_compute in float.of_int 1.

(** Indexing one axis with a Python integer: negative indices count from
    the end, anything outside [-len, len) raises [IndexError]. *)
Definition np_get {A} (l : list A) (i : Z) : res A :=
  let n := Z.of_nat (length l) in
  let j := if i <? 0 then i + n else i in
  if (0 <=? j) && (j <? n)
  then match l !! Z.to_nat j with Some a => Ok a | None => Raise IndexError end
  else Raise IndexError.

Fixpoint res_map {A B} (f : A -> res B) (l : list A) : res (list B) :=
  match l with
  | [] => Ok []
  | a :: l' => b ← f a; bs ← res_map f l'; Ok (b :: bs)
  end.

(** [arr[comp, :, iy]] on a component x height x lateral array. *)
Definition np_profile (arr : list (list (list Q))) (comp iy : Z) : res (list Q) :=
  plane ← np_get arr comp;
  res_map (fun row => np_get row iy) plane.

(** [arr[comp][igrid]] with [igrid] a pair (iz, iy). *)
Definition np_point {A} (arr : list (list (list A))) (comp : Z) (igrid : Z * Z) : res A :=
  plane ← np_get arr comp;
  row ← np_get plane (fst igrid);
  np_get row (snd igrid).

(** [plane[g]] with [g] a pair (iz, iy). *)
Definition np_at {A} (plane : list (list A)) (g : Z * Z) : res A :=
  row ← np_get plane (fst g);
  np_get row (snd g).

(** [a[..., 1:]] on a one-dimensional array. *)
Definition slice_from_1 {A} (a : list A) : list A := drop 1 a.

(** [a or b] where [a] is [None] or a tuple: a pair is always true. *)
Definition or_pair (a : option (Z * Z)) (b : Z * Z) : Z * Z :=
  match a with
  | Some t => t
  | None => b
  end.

(** [a or b] where [a] is [None] or an integer: [None] and [0] are false. *)
Definition or_int (a : option Z) (b : Z) : Z :=
  match a with
  | Some n => if decide (n = 0) then b else n
  | None => b
  end.

(** ** The data objects of [pyts.main]

    The two classes are imported, not defined, by the module; the records
    list the attributes the module reads. *)

Module tm.
Record t : Type := mk {
  f : list Q;
  Suu : list (list (list (list Q)))
}.
End tm.

Module tsdata.
Record t : Type := mk {
  dt : spec_float;
  ihub : Z * Z;
  z : list Q;
  uprof : list (list (list Q));
  tke : list (list (list Q));
  stress : list (list (list Q));
  uturb : list (list (list (list Q)));
  tm : option tm.t
}.
End tsdata.

(** For a [tsrun], [stress_array] is [tsrun.stress.array], [calcCoh] is
    [tsrun.cohere.calcCoh], and [prof] is the array that indexing
    [tsrun.prof] reads. *)
Module tsrun.
Record grid_t : Type := mk_grid {
  ihub : Z * Z;
  z : list Q;
  f : list Q;
  sub2ind : Z * Z -> Z
}.
Record spec_t : Type := mk_spec {
  tke : list (list (list Q));
  array : list (list (list (list Q)))
}.
Record t : Type := mk {
  grid : grid_t;
  prof : list (list (list Q));
  spec : spec_t;
  stress_array : list (list (list Q));
  calcCoh : list Q -> Z -> Z -> Z -> list Q
}.
End tsrun.

(** ** [matplotlib.mlab] *)

Inductive detrend_fn : Type := detrend_linear.

(** [psd(x, NFFT, Fs, detrend, noverlap)] returns [(Pxx, freqs)];
    [cohere(x, y, NFFT, Fs, detrend, noverlap, scale_by_freq)] returns
    [(Cxy, freqs)]. *)
Class Mlab : Type := {
  mlab_psd : list Q -> Z -> spec_float -> detrend_fn -> Z -> list Q * list Q;
  mlab_cohere : list Q -> list Q -> Z -> spec_float -> detrend_fn -> Z -> bool
                -> list Q * list Q
}.

(** ** Module-level helpers *)

Definition indx : gmap string Z := {[ "u" := 0; "v" := 1; "w" := 2 ]}.

Definition psd `{Mlab} (u : list Q) (sr : spec_float) (nfft : Z) : list Q * list Q :=
  let '(p, f) := mlab_psd u nfft sr detrend_linear (nfft / 2) in
  (slice_from_1 f, slice_from_1 p).

Definition coh `{Mlab} (u1 u2 : list Q) (sr : spec_float) (nfft : Z) : list Q * list Q :=
  let '(p, f) := mlab_cohere u1 u2 nfft sr detrend_linear (nfft / 2) false in
  (slice_from_1 f, slice_from_1 p).

(** The window length computed at the head of both [_calc_tsdata] methods:
    [nfft=int(self.window_time/tsdata.dt); nfft+=np.mod(nfft,2)].
    [window_time] is an integer and [dt] a float.  [np.mod] takes the sign
    of the divisor, as [Z.modulo] does. *)
Definition calc_nfft (window_time : Z) (dt : spec_float) : res Z :=
  w ← py_float window_time;
  q ← py_div w dt;
  nfft ← py_int q;
  Ok (nfft + nfft mod 2).

(** ** Python values that cross the module's interfaces untyped *)

Inductive pyval : Type :=
| VNone
| VBool (b : bool)
| VInt (n : Z)
| VNum (q : Q)
| VStr (s : string)
| VPair (a b : Z)
| VTsdata (d : tsdata.t).

(** Classes are identified by their qualified name. *)
Definition class : Type := string.
Definition cls_tsdata : class := "pyts.main.tsdata".
Definition cls_tsrun : class := "pyts.main.tsrun".
Definition cls_object : class := "object".

(** [str(cls)] of a new-style class. *)
Definition class_str (c : class) : string := "<class '" +:+ c +:+ "'>".

(** An object handed to a format: its class, the rest of its
    [__class__.__mro__], and the attributes it has as a [tsdata] or a
    [tsrun] (absent when it has none). *)
Record pyobj : Type := mk_pyobj {
  obj_class : class;
  obj_bases : list class;
  obj_tsdata : option tsdata.t;
  obj_tsrun : option tsrun.t
}.

Definition mro (obj : pyobj) : list class := obj_class obj :: obj_bases obj.

Definition as_tsdata (obj : pyobj) : res tsdata.t :=
  match obj_tsdata obj with
  | Some d => Ok d
  | None => Raise (AttributeError "tsdata")
  end.

Definition as_tsrun (obj : pyobj) : res tsrun.t :=
  match obj_tsrun obj with
  | Some r => Ok r
  | None => Raise (AttributeError "tsrun")
  end.

(** What a [_calc] method hands to [ax.plot]: an array or [np.NaN]. *)
Inductive plotval : Type :=
| NaN
| Arr (a : list Q).

Definition xy : Type := (plotval * plotval)%type.

Definition arrays (p : list Q * list Q) : xy := (Arr (fst p), Arr (snd p)).

(** ** Format objects *)

(** The class attribute [_xlabel] is the property of [base_axForm] or a
    string that overrides it. *)
Inductive xlabel_attr : Type :=
| XProperty
| XStr (s : string).

(** The attributes the module reads or writes on a format object.  An
    [option] is [None] when [hasattr] is false; for [igrid], [igrid0] and
    [igrid1] it is [None] when the attribute holds [None]. *)
Module attr.
Record t : Type := mk {
  hide_ylabels : bool;
  _lin_x_scale : Z;
  _xscale : string;
  _yscale : string;
  _ylabel : option string;
  _xlabel_attr : option xlabel_attr;
  _title : option string;
  _grid_x : option (list Q);
  _labels : option (gmap component string);
  yax : option string;
  xax : option string;
  hrel : option Q;
  _xlim_dat : option (option Q * option Q);
  window_time : option Z;
  igrid : option (Z * Z);
  igrid0 : option (Z * Z);
  igrid1 : option (Z * Z)
}.
End attr.
Export attr.
Abbreviation attrs := attr.t.

Definition method : Type := attrs -> pyobj -> Z -> res xy.

(** A format object: its class, its attributes, and the methods
    [getattr(self, name)] finds by name. *)
Record axForm : Type := mk_axForm {
  form_class : class;
  form_attrs : attrs;
  form_methods : gmap string method
}.

Definition set_hide_ylabels (b : bool) (a : attrs) : attrs :=
  attr.mk b (_lin_x_scale a) (_xscale a) (_yscale a) (_ylabel a)
    (_xlabel_attr a) (_title a) (_grid_x a) (_labels a) (yax a) (xax a)
    (hrel a) (_xlim_dat a) (window_time a) (igrid a) (igrid0 a) (igrid1 a).

(** ** Calls on axes and figures *)

(** An axes of a figure's grid, by row and column. *)
Definition axref : Type := (nat * nat)%type.

(** A member of an axes group: its place, and the component
    [fig_axForms.__init__] stores on it as [ax.comp]. *)
Record ax : Type := mk_ax {
  ax_pos : axref;
  ax_comp : component
}.

Inductive figpos : Type :=
| AtTopOf (a : axref)
| AtXY (x y : Q).

Inductive event : Type :=
| FigureSetup (fignum : Z)
| Hide (what : string) (group : list axref) (only : option axref)
| SetYlabel (a : axref) (s : string)
| SetXlabel (a : axref) (s : string)
| SetTitle (a : axref) (s : string)
| Vln (a : axref) (val : Q) (linestyle color : string) (zorder : Z)
| AnnoteCorner (a : axref) (text pos : string)
| Plot (a : axref) (x y : plotval) (args : list pyval) (kwargs : gmap string pyval)
| Loglog (a : axref) (x y : list Q) (args : list pyval) (kwargs : gmap string pyval)
| Semilogx (a : axref) (x y : list Q) (args : list pyval) (kwargs : gmap string pyval)
| SetXscale (a : axref) (s : string)
| SetYscale (a : axref) (s : string)
| SetWindowTitle (s : string)
| FigText (p : figpos) (text : string)
| Savefig (args : list pyval) (kwargs : gmap string pyval).

(** Code that draws: the calls issued, then a value or the exception that
    stopped it. *)
Definition io (A : Type) : Type := (list event * res A)%type.

#[global] Instance io_ret : MRet io := fun A a => ([], Ok a).
#[global] Instance io_bind : MBind io := fun A B k m =>
  match m with
  | (es, Ok a) => let '(es', r) := k a in (es ++ es', r)
  | (es, Raise e) => (es, Raise e)
  end.

Definition emit (e : event) : io unit := ([e], Ok tt).
Definition lift {A} (r : res A) : io A := ([], r).

(** [for x in l: body(x)] *)
Fixpoint for_each {A} (l : list A) (body : A -> io unit) : io unit :=
  match l with
  | [] => mret tt
  | x :: l' => _ ← body x; for_each l' body
  end.

(** ** [base_axForm] *)

(** The entries of [base_axForm.method_map]. *)
Definition method_map : list (class * string) :=
  [(cls_tsdata, "_calc_tsdata"); (cls_tsrun, "_calc_tsrun")].

Module base_axForm.

Definition cls : class := "pyts.plot.main.base_axForm".

(** The property [_xlabel]. *)
Definition xlabel_property (self : attrs) : string :=
  if decide (_lin_x_scale self = 0)
  then "$\mathrm{[m^2s^{-2}]}$"
  else "$\mathrm{[10^{" +:+ pretty (_lin_x_scale self) +:+ "}m^2s^{-2}]}$".

(** [self._xlabel], [None] when [hasattr(self,'_xlabel')] is false. *)
Definition _xlabel (self : attrs) : option string :=
  match _xlabel_attr self with
  | None => None
  | Some XProperty => Some (xlabel_property self)
  | Some (XStr s) => Some s
  end.

Definition class_attrs : attrs := {|
  hide_ylabels := false;
  _lin_x_scale := 0;
  _xscale := "linear";
  _yscale := "linear";
  _ylabel := None;
  _xlabel_attr := Some XProperty;
  _title := None;
  _grid_x := None;
  _labels := None;
  yax := None;
  xax := None;
  hrel := None;
  _xlim_dat := None;
  window_time := None;
  igrid := None;
  igrid0 := None;
  igrid1 := None
|}.

Definition __init__ : axForm := mk_axForm cls class_attrs ∅.

Definition finalize (self : attrs) (axes : list ax) : io unit :=
  last ← lift (np_get axes (-1));
  _ ← emit (Hide "xticklabels" (ax_pos <$> axes) (Some (ax_pos last)));
  _ ← (if hide_ylabels self
       then emit (Hide "yticklabels" (ax_pos <$> axes) None)
       else mret tt);
  _ ← (match negb (hide_ylabels self), _ylabel self with
       | true, Some s => for_each axes (fun ax => emit (SetYlabel (ax_pos ax) s))
       | _, _ => mret tt
       end);
  _ ← (match _xlabel self with
       | Some s => last ← lift (np_get axes (-1)); emit (SetXlabel (ax_pos last) s)
       | None => mret tt
       end);
  _ ← (match _title self with
       | Some s => first ← lift (np_get axes 0); emit (SetTitle (ax_pos first) s)
       | None => mret tt
       end);
  _ ← (match _grid_x self with
       | Some vals =>
           for_each axes (fun ax =>
             for_each vals (fun val => emit (Vln (ax_pos ax) val ":" "k" (-10))))
       | None => mret tt
       end);
  match _labels self with
  | Some labels =>
      for_each axes (fun ax =>
        text ← lift (match labels !! ax_comp ax with
                     | Some t => Ok t
                     | None => Raise (KeyError (ax_comp ax))
                     end);
        emit (AnnoteCorner (ax_pos ax) text "ul"))
  | None => mret tt
  end.

Definition unrecognized (self : axForm) (obj : pyobj) : string :=
  "Object type " +:+ class_str (obj_class obj) +:+ " not recognized for "
    +:+ class_str (form_class self) +:+ " axes-type".

(** The loop of [_calc] over [self.method_map.iteritems()]; [items] is the
    order in which the dictionary yields its entries. *)
Fixpoint dispatch (items : list (class * string)) (self : axForm) (obj : pyobj)
    (comp : Z) : res xy :=
  match items with
  | [] => Raise (Exception (unrecognized self obj))
  | (cls, meth) :: rest =>
      if decide (cls ∈ mro obj)
      then match form_methods self !! meth with
           | None => Ok (NaN, NaN)
           | Some m => m (form_attrs self) obj comp
           end
      else dispatch rest self obj comp
  end.

Definition _calc (items : list (class * string)) (self : axForm) (obj : pyobj)
    (comp : component) : res xy :=
  comp ← (match comp with
          | CStr s => match indx !! s with
                      | Some i => Ok i
                      | None => Raise (KeyError comp)
                      end
          | CInt n => Ok n
          end);
  dispatch items self obj comp.

(** [x/(10**self._lin_x_scale)] *)
Definition scale_x (x : plotval) (s : Z) : plotval :=
  match x with
  | NaN => NaN
  | Arr a => Arr (map (fun v => v / Qpower 10 s)%Q a)
  end.

Definition plot (items : list (class * string)) (self : axForm) (obj : pyobj)
    (axes : list ax) (kwargs : gmap string pyval) : io unit :=
  for_each axes (fun ax =>
    '(x, y) ← lift (_calc items self obj (ax_comp ax));
    _ ← emit (Plot (ax_pos ax) (scale_x x (_lin_x_scale (form_attrs self))) y [] kwargs);
    _ ← emit (SetXscale (ax_pos ax) (_xscale (form_attrs self)));
    emit (SetYscale (ax_pos ax) (_yscale (form_attrs self)))).

End base_axForm.

(** A method called by [_calc] receives the object and the component only;
    the grid-index parameters keep their default [None]. *)
Definition on_tsdata {I} (m : attrs -> tsdata.t -> Z -> option I -> res xy) : method :=
  fun self obj comp => d ← as_tsdata obj; m self d comp None.

Definition on_tsrun {I} (m : attrs -> tsrun.t -> Z -> option I -> res xy) : method :=
  fun self obj comp => r ← as_tsrun obj; m self r comp None.

(** ** [prof_axForm] and the profile formats *)

Module prof_axForm.

Definition cls : class := "pyts.plot.main.prof_axForm".

Definition class_attrs : attrs := {|
  hide_ylabels := false;
  _lin_x_scale := 0;
  _xscale := "linear";
  _yscale := "linear";
  _ylabel := Some "$z\,\mathrm{[m]}$";
  _xlabel_attr := Some XProperty;
  _title := None;
  _grid_x := None;
  _labels := None;
  yax := Some "z";
  xax := None;
  hrel := Some 0.6%Q;
  _xlim_dat := None;
  window_time := None;
  igrid := None;
  igrid0 := None;
  igrid1 := None
|}.

Definition __init__ : axForm := mk_axForm cls class_attrs ∅.

End prof_axForm.

Module velprof_axForm.

Definition cls : class := "pyts.plot.main.velprof_axForm".

Definition _calc_tsdata (self : attrs) (tsdata : tsdata.t) (comp : Z)
    (igrid : option Z) : res xy :=
  x ← np_profile (tsdata.uprof tsdata) comp (snd (tsdata.ihub tsdata));
  Ok (Arr x, Arr (tsdata.z tsdata)).

Definition _calc_tsrun (self : attrs) (tsrun : tsrun.t) (comp : Z)
    (igrid : option Z) : res xy :=
  x ← np_profile (tsrun.prof tsrun) comp (snd (tsrun.ihub (tsrun.grid tsrun)));
  Ok (Arr x, Arr (tsrun.z (tsrun.grid tsrun))).

Definition methods : gmap string method :=
  {[ "_calc_tsdata" := on_tsdata _calc_tsdata; "_calc_tsrun" := on_tsrun _calc_tsrun ]}.

Definition __init__ (xlim : option Q * option Q) : axForm :=
  mk_axForm cls {|
    hide_ylabels := false;
    _lin_x_scale := 0;
    _xscale := "linear";
    _yscale := "linear";
    _ylabel := Some "$z\,\mathrm{[m]}$";
    _xlabel_attr := Some (XStr "$\mathrm{[m/s]}$");
    _title := Some "Mean Velocity";
    _grid_x := None;
    _labels := None;
    yax := Some "z";
    xax := Some "vel";
    hrel := Some 0.6%Q;
    _xlim_dat := Some xlim;
    window_time := None;
    igrid := None;
    igrid0 := None;
    igrid1 := None
  |} methods.

End velprof_axForm.

Module tkeprof_axForm.

Definition cls : class := "pyts.plot.main.tkeprof_axForm".

Definition _calc_tsdata (self : attrs) (tsdata : tsdata.t) (comp : Z)
    (igrid : option Z) : res xy :=
  x ← np_profile (tsdata.tke tsdata) comp (snd (tsdata.ihub tsdata));
  Ok (Arr x, Arr (tsdata.z tsdata)).

Definition _calc_tsrun (self : attrs) (tsrun : tsrun.t) (comp : Z)
    (igrid : option Z) : res xy :=
  x ← np_profile (tsrun.tke (tsrun.spec tsrun)) comp
        (snd (tsrun.ihub (tsrun.grid tsrun)));
  Ok (Arr x, Arr (tsrun.z (tsrun.grid tsrun))).

Definition methods : gmap string method :=
  {[ "_calc_tsdata" := on_tsdata _calc_tsdata; "_calc_tsrun" := on_tsrun _calc_tsrun ]}.

Definition __init__ (xlim : option Q * option Q) : axForm :=
  mk_axForm cls {|
    hide_ylabels := false;
    _lin_x_scale := -2;
    _xscale := "linear";
    _yscale := "linear";
    _ylabel := Some "$z\,\mathrm{[m]}$";
    _xlabel_attr := Some XProperty;
    _title := Some "tke";
    _grid_x := None;
    _labels := None;
    yax := Some "z";
    xax := Some "tke";
    hrel := Some 0.6%Q;
    _xlim_dat := Some xlim;
    window_time := None;
    igrid := None;
    igrid0 := None;
    igrid1 := None
  |} methods.

End tkeprof_axForm.

Module stressprof_axForm.

Definition cls : class := "pyts.plot.main.stressprof_axForm".

Definition _calc_tsdata (self : attrs) (tsdata : tsdata.t) (comp : Z)
    (igrid : option Z) : res xy :=
  let igrid := or_int igrid (snd (tsdata.ihub tsdata)) in
  x ← np_profile (tsdata.stress tsdata) comp igrid;
  Ok (Arr x, Arr (tsdata.z tsdata)).

Definition _calc_tsrun (self : attrs) (tsrun : tsrun.t) (comp : Z)
    (igrid : option Z) : res xy :=
  let igrid := or_int igrid (snd (tsrun.ihub (tsrun.grid tsrun))) in
  x ← np_profile (tsrun.stress_array tsrun) comp igrid;
  Ok (Arr x, Arr (tsrun.z (tsrun.grid tsrun))).

Definition methods : gmap string method :=
  {[ "_calc_tsdata" := on_tsdata _calc_tsdata; "_calc_tsrun" := on_tsrun _calc_tsrun ]}.

Definition labels : gmap component string :=
  {[ CStr "u" := "$\overline{u'v'}$";
     CStr "v" := "$\overline{u'w'}$";
     CStr "w" := "$\overline{v'w'}$" ]}.

Definition __init__ (xlim : option Q * option Q) : axForm :=
  mk_axForm cls {|
    hide_ylabels := false;
    _lin_x_scale := -2;
    _xscale := "linear";
    _yscale := "linear";
    _ylabel := Some "$z\,\mathrm{[m]}$";
    _xlabel_attr := Some XProperty;
    _title := Some "stress";
    _grid_x := Some [0%Q];
    _labels := Some labels;
    yax := Some "z";
    xax := Some "tke";
    hrel := Some 0.6%Q;
    _xlim_dat := Some xlim;
    window_time := None;
    igrid := None;
    igrid0 := None;
    igrid1 := None
  |} methods.

End stressprof_axForm.

(** ** The spectral formats *)

Definition get_window_time (self : attrs) : res Z :=
  match window_time self with
  | Some w => Ok w
  | None => Raise (AttributeError "window_time")
  end.

Module spec_axForm.

Definition cls : class := "pyts.plot.main.spec_axForm".

Definition _calc_tsdata `{Mlab} (self : attrs) (tsdata : tsdata.t) (comp : Z)
    (igrid : option (Z * Z)) : res xy :=
  window_time ← get_window_time self;
  nfft ← calc_nfft window_time (tsdata.dt tsdata);
  let igrid := or_pair igrid (or_pair (attr.igrid self) (tsdata.ihub tsdata)) in
  u ← np_point (tsdata.uturb tsdata) comp igrid;
  sr ← py_div one (tsdata.dt tsdata);
  Ok (arrays (psd u sr nfft)).

(** [tsrun.spec[comp]] is read as [tsrun.spec.array[comp]]. *)
Definition _calc_tsrun (self : attrs) (tsrun : tsrun.t) (comp : Z)
    (igrid : option (Z * Z)) : res xy :=
  let igrid := or_pair igrid (or_pair (attr.igrid self) (tsrun.ihub (tsrun.grid tsrun))) in
  y ← np_point (tsrun.array (tsrun.spec tsrun)) comp igrid;
  Ok (Arr (tsrun.f (tsrun.grid tsrun)), Arr y).

Definition methods `{Mlab} : gmap string method :=
  {[ "_calc_tsdata" := on_tsdata _calc_tsdata; "_calc_tsrun" := on_tsrun _calc_tsrun ]}.

Definition __init__ `{Mlab} (window_time_sec : Q) (igrid : option (Z * Z)) : axForm :=
  mk_axForm cls {|
    hide_ylabels := false;
    _lin_x_scale := 0;
    _xscale := "log";
    _yscale := "log";
    _ylabel := Some "$\mathrm{[m^2s^{-2}/Hz]}$";
    _xlabel_attr := Some (XStr "$f\,\mathrm{[Hz]}$");
    _title := Some "spectrum";
    _grid_x := None;
    _labels := None;
    yax := Some "spec";
    xax := Some "freq";
    hrel := Some 1%Q;
    _xlim_dat := None;
    window_time := Some 600;
    attr.igrid := igrid;
    igrid0 := None;
    igrid1 := None
  |} methods.

End spec_axForm.

Module cohere_axForm.

Definition cls : class := "pyts.plot.main.cohere_axForm".

Definition _calc_tsdata `{Mlab} (self : attrs) (tsdata : tsdata.t) (comp : Z)
    (igrid0 igrid1 : option (Z * Z)) : res xy :=
  window_time ← get_window_time self;
  nfft ← calc_nfft window_time (tsdata.dt tsdata);
  let igrid0 := or_pair igrid0 (or_pair (attr.igrid0 self) (tsdata.ihub tsdata)) in
  let igrid1 := or_pair igrid1 (or_pair (attr.igrid1 self) (0, 0)) in
  u1 ← np_point (tsdata.uturb tsdata) comp igrid0;
  u2 ← np_point (tsdata.uturb tsdata) comp igrid1;
  sr ← py_div one (tsdata.dt tsdata);
  Ok (arrays (coh u1 u2 sr nfft)).

Definition _calc_tsrun (self : attrs) (tsrun : tsrun.t) (comp : Z)
    (igrid0 igrid1 : option (Z * Z)) : res xy :=
  let grid := tsrun.grid tsrun in
  let igrid0 := tsrun.sub2ind grid (or_pair igrid0 (or_pair (attr.igrid0 self) (tsrun.ihub grid))) in
  let igrid1 := tsrun.sub2ind grid (or_pair igrid1 (or_pair (attr.igrid1 self) (0, 0))) in
  Ok (Arr (tsrun.f grid),
      Arr (map (fun c => c ^ 2)%Q (tsrun.calcCoh tsrun (tsrun.f grid) comp igrid0 igrid1))).

Definition methods `{Mlab} : gmap string method :=
  {[ "_calc_tsdata" := (fun self obj comp => d ← as_tsdata obj; _calc_tsdata self d comp None None);
     "_calc_tsrun" := (fun self obj comp => r ← as_tsrun obj; _calc_tsrun self r comp None None) ]}.

Definition __init__ `{Mlab} (window_time_sec : Q) (igrid0 igrid1 : option (Z * Z)) : axForm :=
  mk_axForm cls {|
    hide_ylabels := false;
    _lin_x_scale := 0;
    _xscale := "log";
    _yscale := "linear";
    _ylabel := None;
    _xlabel_attr := Some (XStr "$f\,\mathrm{[Hz]}$");
    _title := Some "coherence";
    _grid_x := None;
    _labels := None;
    yax := Some "coh";
    xax := Some "freq";
    hrel := Some 1%Q;
    _xlim_dat := Some (Some 0%Q, Some 1%Q);
    window_time := Some 600;
    igrid := None;
    attr.igrid0 := igrid0;
    attr.igrid1 := igrid1
  |} methods.

End cohere_axForm.

(** ** Code that draws and assigns to attributes

    [fx S A] threads a mutable state [S] through code that draws.  The
    state is returned on every path: an assignment made before an
    exception stays made. *)

Definition fx (S A : Type) : Type := S -> S * io A.

#[global] Instance fx_ret {S} : MRet (fx S) := fun A a s => (s, mret a).
#[global] Instance fx_bind {S} : MBind (fx S) := fun A B k m s =>
  match m s with
  | (s1, (es, Ok a)) => let '(s2, (es', r)) := k a s1 in (s2, (es ++ es', r))
  | (s1, (es, Raise e)) => (s1, (es, Raise e))
  end.

Definition draw {S A} (m : io A) : fx S A := fun s => (s, m).
Definition attempt {S A} (r : res A) : fx S A := fun s => (s, lift r).
Definition get {S} : fx S S := fun s => (s, mret s).
Definition put {S} (s : S) : fx S unit := fun _ => (s, mret tt).

(** [for idx, x in enumerate(l): body(idx, x)], counting from [idx]. *)
Fixpoint for_enumerate {S A} (idx : Z) (l : list A) (body : Z -> A -> fx S unit)
    : fx S unit :=
  match l with
  | [] => mret tt
  | x :: l' => _ ← body idx x; for_enumerate (idx + 1) l' body
  end.

(** [a[i] = v] on one axis of an array. *)
Definition np_set {A} (l : list A) (i : Z) (v : A) : res (list A) :=
  let n := Z.of_nat (length l) in
  let j := if i <? 0 then i + n else i in
  if (0 <=? j) && (j <? n) then Ok (<[Z.to_nat j := v]> l) else Raise IndexError.

(** ** [fig_axForms] *)

(** Format objects are referred to by location. *)
Abbreviation loc := nat.
Abbreviation store := (gmap loc axForm).

Module fig_axForms.

(** The part of the layout that [__init__] edits per format: one row of
    [sharey] (all rows are equal) and the two arrays of the horizontal
    spacer that [supax.simpleAxSpacer] returned. *)
Record layout : Type := mk_layout {
  sharey : list Z;
  hspacer_gap : list Q;
  hspacer_axsize : list Q
}.

Record t : Type := mk {
  comp : list component;
  axforms : list loc;
  sharex : list Z;
  placed : layout
}.

(** [np.arange(n,dtype=np.uint8)+1] *)
Definition share_row (n : nat) : list Z :=
  (fun i => (Z.of_nat i + 1) mod 256) <$> seq 0 n.

(** [self.sax[:,idx]] once [ax.comp] has been set on every axes. *)
Definition column (comp : list component) (idx : nat) : list ax :=
  imap (fun i c => mk_ax (i, idx) c) comp.

Definition load (l : loc) : fx store axForm := fun s =>
  match s !! l with
  | Some f => (s, mret f)
  | None => (s, lift (Raise TypeError))
  end.

(** [axt.hide_ylabels=True] *)
Definition set_hide (l : loc) : fx store unit := fun s =>
  match s !! l with
  | Some f =>
      (<[l := mk_axForm (form_class f) (set_hide_ylabels true (form_attrs f))
                (form_methods f)]> s, mret tt)
  | None => (s, lift (Raise TypeError))
  end.

(** The body of the first loop of [__init__]; the loop carries the layout
    and [last_yax]. *)
Definition place (tightgap : Q) (idx : Z) (l : loc)
    (acc : layout * option string) : fx store (layout * option string) :=
  let '(lay, last_yax) := acc in
  axt ← load l;
  this_yax ← attempt (match yax (form_attrs axt) with
                  | Some y => Ok y
                  | None => Raise (AttributeError "yax")
                  end);
  lay ← (if decide (Some this_yax = last_yax)
         then prev ← attempt (np_get (sharey lay) (idx - 1));
              sy ← attempt (np_set (sharey lay) idx prev);
              gp ← attempt (np_set (hspacer_gap lay) idx tightgap);
              _ ← set_hide l;
              mret (mk_layout sy gp (hspacer_axsize lay))
         else mret lay);
  let last_yax := Some this_yax in
  match hrel (form_attrs axt) with
  | Some h =>
      cur ← attempt (np_get (hspacer_axsize lay) idx);
      sz ← attempt (np_set (hspacer_axsize lay) idx (cur * h)%Q);
      mret (mk_layout (sharey lay) (hspacer_gap lay) sz, last_yax)
  | None => mret (lay, last_yax)
  end.

Fixpoint place_all (tightgap : Q) (idx : Z) (axforms : list loc)
    (acc : layout * option string) : fx store (layout * option string) :=
  match axforms with
  | [] => mret acc
  | l :: rest => acc ← place tightgap idx l acc; place_all tightgap (idx + 1) rest acc
  end.

(** [hspacer] is the spacer [supax.simpleAxSpacer(len(axforms), ...)]
    built; the figure itself is set up by [supax.sfig.__init__]. *)
Definition __init__ (fignum : Z) (axforms : list loc) (comp : list component)
    (hspacer : list Q * list Q) (tightgap : Q) : fx store t :=
  if decide (length axforms = 0%nat)
  then attempt (Raise (Exception "At least one axes-type instance must be provided."))
  else
    let sharex := share_row (length axforms) in
    let sharey := share_row (length axforms) in
    '(lay, _) ← place_all tightgap 0 axforms
                  (mk_layout sharey (fst hspacer) (snd hspacer), None);
    _ ← draw (emit (FigureSetup fignum));
    mret (mk comp axforms sharex lay).

Definition plot (items : list (class * string)) (self : t) (obj : pyobj)
    (kwargs : gmap string pyval) : fx store unit :=
  for_enumerate 0 (axforms self) (fun idx l =>
    axt ← load l;
    draw (base_axForm.plot items axt obj (column (comp self) (Z.to_nat idx)) kwargs)).

Definition finalize (self : t) : fx store unit :=
  _ ← for_enumerate 0 (axforms self) (fun idx l =>
        axt ← load l;
        draw (base_axForm.finalize (form_attrs axt) (column (comp self) (Z.to_nat idx))));
  draw (for_each (column (comp self) 0) (fun ax =>
    match ax_comp ax with
    | CStr c => emit (FigText (AtTopOf (ax_pos ax)) ("$" +:+ c +:+ "$"))
    | CInt _ => lift (Raise TypeError)
    end)).

End fig_axForms.

(** ** [plot_spectra] *)

(** [for ind in range(3): body(ind)] *)
Definition for_range3 {S} (body : Z -> fx S unit) : fx S unit :=
  for_enumerate 0 [tt; tt; tt] (fun ind _ => body ind).

(** The figure argument is a figure number, or a figure object when its
    class is the one the function looks for. *)
Inductive fignum_arg (F : Type) : Type :=
| FigNum (n : Z)
| FigObj (fg : F).
Arguments FigNum {F} n.
Arguments FigObj {F} fg.

(** A [specfig] has no attribute the module reads back; [specfig(fignum)]
    sets up the figure. *)
Definition plot_spectra `{Mlab} (tsdata : tsdata.t) (fignum : fignum_arg unit)
    (nfft : Z) (igrid : option (Z * Z)) : io unit :=
  snd ((_ ← (match fignum with
             | FigObj _ => mret tt
             | FigNum n => draw (emit (FigureSetup n))
             end);
        let igrid := match igrid with
                     | None => tsdata.ihub tsdata
                     | Some g => g
                     end in
        for_range3 (fun ind =>
          u ← attempt (np_point (tsdata.uturb tsdata) ind igrid);
          sr ← attempt (py_div one (tsdata.dt tsdata));
          let '(p, f) := mlab_psd u nfft sr detrend_linear (nfft / 2) in
          _ ← draw (emit (Loglog (Z.to_nat ind, 0%nat) f p [] ∅));
          match tsdata.tm tsdata with
          | Some tm =>
              s ← attempt (np_point (tm.Suu tm) ind igrid);
              draw (emit (Loglog (Z.to_nat ind, 0%nat) (tm.f tm) s [] ∅))
          | None => mret tt
          end)) tt).

(** ** numpy reductions *)

(** [a.mean(-1)] on one row of an array. *)
Class Numpy : Type := {
  np_mean : list Q -> Q
}.

(** ** [summfig] *)

Module summfig.

(** The attributes of a [summfig] the module assigns; [_igrid] and [_icoh]
    are [None] until first read or set. *)
Record t : Type := mk {
  nfft : Z;
  _igrid : option pyval;
  _icoh : option pyval;
  tke_factor : option Q;
  rs_factor : option Q
}.

Definition set_title (title : option string) (fignum : Z) : list event :=
  match title with
  | Some s =>
      [SetWindowTitle ("Figure " +:+ pretty fignum +:+ ": " +:+ s);
       FigText (AtXY 0.5 0.99) s]
  | None => []
  end.

(** The layout and decoration calls of [__init__], none of which takes
    data, are the one event [FigureSetup]. *)
Definition __init__ (fignum : Z) (nfft : Z) (title : option string) : list event * t :=
  (FigureSetup fignum :: set_title title fignum, mk nfft None None None None).

(** The property [igrid] and its setter. *)
Definition igrid : fx t pyval := fun self =>
  match _igrid self with
  | Some v => (self, mret v)
  | None =>
      (mk (nfft self) (Some (VPair 0 0)) (_icoh self) (tke_factor self) (rs_factor self),
       mret (VPair 0 0))
  end.

Definition set_igrid (val : pyval) : fx t unit := fun self =>
  (mk (nfft self) (Some val) (_icoh self) (tke_factor self) (rs_factor self), mret tt).

(** The property [icoh] and its setter. *)
Definition icoh : fx t pyval := fun self =>
  match _icoh self with
  | Some v => (self, mret v)
  | None =>
      (mk (nfft self) (_igrid self) (Some (VPair (-1) (-1))) (tke_factor self) (rs_factor self),
       mret (VPair (-1) (-1)))
  end.

Definition set_icoh (val : pyval) : fx t unit := fun self =>
  (mk (nfft self) (_igrid self) (Some val) (tke_factor self) (rs_factor self), mret tt).

(** [v.ihub] *)
Definition get_ihub (v : pyval) : res pyval :=
  match v with
  | VTsdata d => Ok (VPair (fst (tsdata.ihub d)) (snd (tsdata.ihub d)))
  | _ => Raise (AttributeError "ihub")
  end.

Definition setinds (tsdata igrid icoh : pyval) : fx t unit :=
  _ ← (match igrid with
       | VNone => hub ← attempt (get_ihub tsdata); set_igrid hub
       | _ => set_igrid igrid
       end);
  match icoh with
  | VNone => set_icoh (VPair 0 0)
  | _ => set_icoh icoh
  end.

(** A grid index read back from [self.igrid] or [self.icoh], where the
    code subscripts it ([self.igrid[1]]) or selects one grid point with it
    ([arr[self.igrid]]): a pair.  A string is an [IndexError] in both
    places: it has no such character or the character is no array index,
    and the string itself is no array index.  Any other value is a
    [TypeError] when subscripted.  As an array index, [None], a boolean or
    a single integer would select a block of another shape, which the
    estimators and plotting calls modelled here do not take; the model
    stops there with the same [TypeError]. *)
Definition as_pair (v : pyval) : res (Z * Z) :=
  match v with
  | VPair a b => Ok (a, b)
  | VStr _ => Raise IndexError
  | _ => Raise TypeError
  end.

(** Columns of the axes grid. *)
Definition ax_prof (ind : Z) : axref := (Z.to_nat ind, 0%nat).
Definition ax_spec (ind : Z) : axref := (Z.to_nat ind, 1%nat).
Definition ax_cohr (ind : Z) : axref := (Z.to_nat ind, 2%nat).

(** In [arr[ind][self.igrid]] and [arr[ind][:,self.igrid[1]]] the
    component is indexed before [self.igrid] is read. *)
Definition plot_prof (tsdata : tsdata.t) (kwargs : gmap string pyval) : fx t unit :=
  for_range3 (fun ind =>
    plane ← attempt (np_get (tsdata.uprof tsdata) ind);
    g ← igrid;
    g ← attempt (as_pair g);
    x ← attempt (res_map (fun row => np_get row (snd g)) plane);
    draw (emit (Plot (ax_prof ind) (Arr x) (Arr (tsdata.z tsdata)) [] kwargs))).

Definition plot_spec `{Mlab} (tsdata : tsdata.t) (theory_line : bool)
    (args : list pyval) (kwargs : gmap string pyval) : fx t unit :=
  for_range3 (fun ind =>
    plane ← attempt (np_get (tsdata.uturb tsdata) ind);
    g ← igrid;
    g ← attempt (as_pair g);
    u ← attempt (np_at plane g);
    self ← get;
    sr ← attempt (py_div one (tsdata.dt tsdata));
    let '(p, f) := mlab_psd u (nfft self) sr detrend_linear (nfft self / 2) in
    _ ← draw (emit (Loglog (ax_spec ind) f p [] kwargs));
    match tsdata.tm tsdata, theory_line with
    | Some tm, true =>
        plane ← attempt (np_get (tm.Suu tm) ind);
        g ← igrid;
        g ← attempt (as_pair g);
        s ← attempt (np_at plane g);
        draw (emit (Loglog (ax_spec ind) (tm.f tm) s [VStr "k--"] {[ "zorder" := VInt 10 ]}))
    | _, _ => mret tt
    end).

Definition plot_coh `{Mlab} (tsdata : tsdata.t) (args : list pyval)
    (kwargs : gmap string pyval) : fx t unit :=
  for_range3 (fun ind =>
    plane ← attempt (np_get (tsdata.uturb tsdata) ind);
    g ← igrid;
    g ← attempt (as_pair g);
    u1 ← attempt (np_at plane g);
    plane ← attempt (np_get (tsdata.uturb tsdata) ind);
    c ← icoh;
    c ← attempt (as_pair c);
    u2 ← attempt (np_at plane c);
    self ← get;
    sr ← attempt (py_div one (tsdata.dt tsdata));
    let '(p, f) := mlab_cohere u1 u2 (nfft self) sr detrend_linear (nfft self / 2) false in
    draw (emit (Semilogx (ax_cohr ind) f p args kwargs))).

(** [kwargs.setdefault('dpi',300)] *)
Definition setdefault (key : string) (default : pyval) (kwargs : gmap string pyval)
    : gmap string pyval :=
  match kwargs !! key with
  | Some _ => kwargs
  | None => <[key := default]> kwargs
  end.

Definition savefig (args : list pyval) (kwargs : gmap string pyval) : fx t unit :=
  let kwargs := setdefault "dpi" (VInt 300) kwargs in
  draw (emit (Savefig args kwargs)).


(** *** The statistics columns and the grid-point markers *)

Definition ax_tke (ind : Z) : axref := (Z.to_nat ind, 3%nat).
Definition ax_rstr (ind : Z) : axref := (Z.to_nat ind, 4%nat).

(** [self.tke_factor=factor] and [self.rs_factor=factor] *)
Definition set_tke_factor (factor : Q) : fx t unit := fun self =>
  (mk (nfft self) (_igrid self) (_icoh self) (Some factor) (rs_factor self), mret tt).

Definition set_rs_factor (factor : Q) : fx t unit := fun self =>
  (mk (nfft self) (_igrid self) (_icoh self) (tke_factor self) (Some factor), mret tt).

(** [self.tke_factor] and [self.rs_factor], which exist once assigned. *)
Definition get_tke_factor : fx t Q :=
  self ← get;
  attempt (match tke_factor self with
           | Some f => Ok f
           | None => Raise (AttributeError "tke_factor")
           end).

Definition get_rs_factor : fx t Q :=
  self ← get;
  attempt (match rs_factor self with
           | Some f => Ok f
           | None => Raise (AttributeError "rs_factor")
           end).

(** [self.igrid] and [self.icoh] read as pairs. *)
Definition igrid_pair : fx t (Z * Z) := g ← igrid; attempt (as_pair g).
Definition icoh_pair : fx t (Z * Z) := c ← icoh; attempt (as_pair c).

(** [tsdata.uturb[ind][:,self.igrid[1]]]: the time series at every height
    of one lateral position.  The component is indexed before [self.igrid]
    is read. *)
Definition uturb_lateral (tsdata : tsdata.t) (ind : Z) : fx t (list (list Q)) :=
  plane ← attempt (np_get (tsdata.uturb tsdata) ind);
  g ← igrid_pair;
  attempt (res_map (fun row => np_get row (snd g)) plane).

Definition plot_tke `{Numpy} (tsdata : tsdata.t) (factor : Q)
    (kwargs : gmap string pyval) : fx t unit :=
  _ ← set_tke_factor factor;
  for_range3 (fun ind =>
    u ← uturb_lateral tsdata ind;
    draw (emit (Plot (ax_tke ind)
                  (Arr ((fun series => np_mean ((fun v => v ^ 2) <$> series) * factor)%Q <$> u))
                  (Arr (tsdata.z tsdata)) [] kwargs))).

(** [factor*(a*b).mean(-1)] for two arrays of time series. *)
Definition rs_curve `{Numpy} (factor : Q) (a b : list (list Q)) : plotval :=
  Arr (zip_with (fun s1 s2 => factor * np_mean (zip_with Qmult s1 s2))%Q a b).

Definition plot_rs `{Numpy} (tsdata : tsdata.t) (factor : Q) (args : list pyval)
    (kwargs : gmap string pyval) : fx t unit :=
  _ ← set_rs_factor factor;
  a ← uturb_lateral tsdata 0;
  b ← uturb_lateral tsdata 1;
  _ ← draw (emit (Plot (ax_rstr 0) (rs_curve factor a b) (Arr (tsdata.z tsdata)) args kwargs));
  a ← uturb_lateral tsdata 0;
  b ← uturb_lateral tsdata 2;
  _ ← draw (emit (Plot (ax_rstr 1) (rs_curve factor a b) (Arr (tsdata.z tsdata)) args kwargs));
  a ← uturb_lateral tsdata 1;
  b ← uturb_lateral tsdata 2;
  draw (emit (Plot (ax_rstr 2) (rs_curve factor a b) (Arr (tsdata.z tsdata)) args kwargs)).

(** The names [hasattr] finds on a dictionary, the special names
    ([__len__] and the like) left out. *)
Definition dict_attrs : list string :=
  ["clear"; "copy"; "fromkeys"; "get"; "has_key"; "items"; "iteritems";
   "iterkeys"; "itervalues"; "keys"; "pop"; "popitem"; "setdefault"; "update";
   "values"; "viewitems"; "viewkeys"; "viewvalues"].

Definition dict_hasattr (name : string) : bool := bool_decide (name ∈ dict_attrs).

(** The keywords of the two markers of [plot_profpt]: [kw1] after its three
    [setdefault] calls and the two [if not (hasattr(kw1,...))] statements,
    [kw2] after its three [setdefault] calls. *)
Definition profpt_kw1 (kwargs : gmap string pyval) : gmap string pyval :=
  let kw1 := setdefault "ms" (VInt 6) kwargs in
  let kw1 := setdefault "mec" (VStr "none") kw1 in
  let kw1 := setdefault "mfc" (VStr "b") kw1 in
  let kw1 := if negb (dict_hasattr "markersize" || dict_hasattr "ms")
             then <["ms" := VInt 6]> kw1 else kw1 in
  if negb (dict_hasattr "markersize" || dict_hasattr "ms")
  then <["ms" := VInt 6]> kw1 else kw1.

Definition profpt_kw2 (kwargs : gmap string pyval) : gmap string pyval :=
  let kw2 := setdefault "ms" (VInt 10) kwargs in
  let kw2 := setdefault "mec" (VStr "b") kw2 in
  setdefault "mfc" (VStr "none") kw2.

(** A single point handed to [plot] is the one-element array. *)
Definition plot_profpt (tsdata : tsdata.t) (kwargs : gmap string pyval) : fx t unit :=
  let kw1 := profpt_kw1 kwargs in
  let kw2 := profpt_kw2 kwargs in
  for_range3 (fun ind =>
    plane ← attempt (np_get (tsdata.uprof tsdata) ind);
    g ← igrid_pair;
    x ← attempt (np_at plane g);
    g ← igrid_pair;
    y ← attempt (np_get (tsdata.z tsdata) (fst g));
    _ ← draw (emit (Plot (ax_prof ind) (Arr [x]) (Arr [y]) [VStr "o"] kw1));
    plane ← attempt (np_get (tsdata.uprof tsdata) ind);
    c ← icoh_pair;
    x ← attempt (np_at plane c);
    c ← icoh_pair;
    y ← attempt (np_get (tsdata.z tsdata) (fst c));
    draw (emit (Plot (ax_prof ind) (Arr [x]) (Arr [y]) [VStr "o"] kw2))).

(** [tsrun.prof.array] is the array [tsrun.prof]. *)
Definition plot_theory `{Numpy} (tsrun : tsrun.t) (args : list pyval)
    (kwargs : gmap string pyval) : fx t unit :=
  let grid := tsrun.grid tsrun in
  for_range3 (fun ind =>
    p ← attempt (np_get (tsrun.prof tsrun) ind);
    _ ← draw (emit (Plot (ax_prof ind) (Arr (np_mean <$> p)) (Arr (tsrun.z grid)) args kwargs));
    sp ← attempt (np_get (tsrun.array (tsrun.spec tsrun)) ind);
    g ← igrid_pair;
    s ← attempt (np_at sp g);
    _ ← draw (emit (Loglog (ax_spec ind) (tsrun.f grid) s args kwargs));
    g ← igrid_pair;
    c ← icoh_pair;
    _ ← draw (emit (Semilogx (ax_cohr ind) (tsrun.f grid)
                      ((fun v => v ^ 2)%Q <$>
                         tsrun.calcCoh tsrun (tsrun.f grid) ind
                           (tsrun.sub2ind grid g) (tsrun.sub2ind grid c))
                      args kwargs));
    t ← attempt (np_get (tsrun.tke (tsrun.spec tsrun)) ind);
    tf ← get_tke_factor;
    _ ← draw (emit (Plot (ax_tke ind) (Arr ((fun row => np_mean row * tf)%Q <$> t))
                      (Arr (tsrun.z grid)) args kwargs));
    st ← attempt (np_get (tsrun.stress_array tsrun) ind);
    rf ← get_rs_factor;
    draw (emit (Plot (ax_rstr ind) (Arr ((fun row => np_mean row * rf)%Q <$> st))
                  (Arr (tsrun.z grid)) args kwargs))).

End summfig.

(** ** [showts] *)

Definition showts (tsdata : tsdata.t) (fignum : fignum_arg summfig.t) (nfft : Z)
    (igrid icoh : pyval) (kwargs : gmap string pyval) : summfig.t * io unit :=
  match fignum with
  | FigObj fg => summfig.plot_prof tsdata kwargs fg
  | FigNum n =>
      let '(es, fg) := summfig.__init__ n 1024 None in
      let '(fg, (es', r)) :=
        (_ ← summfig.setinds igrid icoh (VTsdata tsdata);
         summfig.plot_prof tsdata kwargs) fg in
      (fg, (es ++ es', r))
  end.

(** ** [new_summ_fig] *)

(** The default of [axforms] is one list, built when the function is
    defined: [defaults] holds the locations of its two format objects, a
    [velprof_axForm()] and a [spec_axForm(600)].  The keyword arguments are
    those of [fig_axForms]. *)
Definition new_summ_fig (defaults : list loc) (fignum : Z) (axforms : option (list loc))
    (comp : list component) (hspacer : list Q * list Q) (tightgap : Q)
    : fx store fig_axForms.t :=
  fig_axForms.__init__ fignum (default defaults axforms) comp hspacer tightgap.

(** ** Vocabulary of the statements *)

(** Some class of [method_map] is in the object's class hierarchy. *)
Definition supported (obj : pyobj) : Prop :=
  exists cls, cls ∈ method_map.*1 /\ cls ∈ mro obj.

(** The integer a component stands for: itself, or its entry in [indx]. *)
Definition index_of (comp : component) : option Z :=
  match comp with
  | CStr s => indx !! s
  | CInt n => Some n
  end.

(** What [_calc] does with the method a dictionary entry names. *)
Definition call_or_nan (self : axForm) (meth : string) (obj : pyobj) (i : Z) : res xy :=
  match form_methods self !! meth with
  | None => Ok (NaN, NaN)
  | Some m => m (form_attrs self) obj i
  end.

(** The calls of [finalize] that belong to one optional attribute each;
    no call when the attribute is absent. *)
Definition ylabel_step (self : attrs) (axes : list ax) : list event :=
  match _ylabel self with
  | Some s => (fun ax => SetYlabel (ax_pos ax) s) <$> axes
  | None => []
  end.

Definition xlabel_step (self : attrs) (last : ax) : list event :=
  match base_axForm._xlabel self with
  | Some s => [SetXlabel (ax_pos last) s]
  | None => []
  end.

Definition title_step (self : attrs) (first : ax) : list event :=
  match _title self with
  | Some s => [SetTitle (ax_pos first) s]
  | None => []
  end.

Definition grid_step (self : attrs) (axes : list ax) : list event :=
  match _grid_x self with
  | Some vals => ax ← axes; (fun val => Vln (ax_pos ax) val ":" "k" (-10)) <$> vals
  | None => []
  end.

Definition labels_step (self : attrs) (axes : list ax) : list event :=
  match _labels self with
  | Some labels => (fun ax => AnnoteCorner (ax_pos ax) (labels !!! ax_comp ax) "ul") <$> axes
  | None => []
  end.

(** Two states of a format object that differ at most in that
    [hide_ylabels] has been set to [True]. *)
Definition same_but_hide (f f' : axForm) : Prop :=
  form_class f' = form_class f /\
  form_methods f' = form_methods f /\
  (form_attrs f' = form_attrs f \/
   form_attrs f' = set_hide_ylabels true (form_attrs f)).

(** The same objects at the same locations, each changed at most so. *)
Definition frame (s s' : store) : Prop :=
  forall l : loc, option_Forall2 same_but_hide (s !! l) (s' !! l).

Definition keeps {A} (m : fx store A) : Prop := forall s, frame s (fst (m s)).

Definition reads_only {S A} (m : fx S A) : Prop := forall s, fst (m s) = s.

(** Every call issued by [m], from any state, satisfies [P]. *)
Definition emits_only {S A} (P : event -> Prop) (m : fx S A) : Prop :=
  forall s e, e ∈ fst (snd (m s)) -> P e.

(** The arrays of a plotting call are the pair the power-spectrum
    estimator returned, whole, for the time series at the grid point [g]
    of the data, a window of [nfft] points and the sample rate [1./dt]. *)
Definition whole_psd `{Mlab} (tsdata : tsdata.t) (nfft : Z) (g : Z * Z)
    (x y : list Q) : Prop :=
  exists ind u,
    np_point (tsdata.uturb tsdata) ind g = Ok u /\
    mlab_psd u nfft (float.div one (tsdata.dt tsdata)) detrend_linear (nfft / 2) = (y, x).

(** The same for the coherence estimator and the grid points [g] and [c]. *)
Definition whole_cohere `{Mlab} (tsdata : tsdata.t) (nfft : Z) (g c : Z * Z)
    (x y : list Q) : Prop :=
  exists ind u1 u2,
    np_point (tsdata.uturb tsdata) ind g = Ok u1 /\
    np_point (tsdata.uturb tsdata) ind c = Ok u2 /\
    mlab_cohere u1 u2 nfft (float.div one (tsdata.dt tsdata)) detrend_linear (nfft / 2) false
      = (y, x).

(** The arrays of a plotting call are the theoretical spectrum stored on
    the data object, at the grid point [g]. *)
Definition theory_line (tsdata : tsdata.t) (g : Z * Z) (x y : list Q) : Prop :=
  exists tm ind,
    tsdata.tm tsdata = Some tm /\ x = tm.f tm /\ np_point (tm.Suu tm) ind g = Ok y.

(** A [loglog] call plots a whole estimator result or the theoretical
    spectrum; a [semilogx] call plots a whole coherence result. *)
Definition loglog_whole `{Mlab} (tsdata : tsdata.t) (nfft : Z) (g : Z * Z)
    (e : event) : Prop :=
  match e with
  | Loglog _ x y _ _ => whole_psd tsdata nfft g x y \/ theory_line tsdata g x y
  | _ => True
  end.

Definition semilogx_whole `{Mlab} (tsdata : tsdata.t) (nfft : Z) (g c : Z * Z)
    (e : event) : Prop :=
  match e with
  | Semilogx _ x y _ _ => whole_cohere tsdata nfft g c x y
  | _ => True
  end.

(** The [loglog] call that plots what the power-spectrum estimator
    returns for the series [u]: frequencies and power, whole. *)
Definition psd_call `{Mlab} (a : axref) (u : list Q) (nfft : Z) (sr : spec_float)
    (kwargs : gmap string pyval) : event :=
  let lib := mlab_psd u nfft sr detrend_linear (nfft / 2) in
  Loglog a (snd lib) (fst lib) [] kwargs.

(** The [semilogx] call that plots what the coherence estimator returns
    for the series [u1] and [u2], whole. *)
Definition cohere_call `{Mlab} (a : axref) (u1 u2 : list Q) (nfft : Z) (sr : spec_float)
    (args : list pyval) (kwargs : gmap string pyval) : event :=
  let lib := mlab_cohere u1 u2 nfft sr detrend_linear (nfft / 2) false in
  Semilogx a (snd lib) (fst lib) args kwargs.

(** The [loglog] call for the theoretical spectrum [s], made when the data
    object has the attribute [tm] and the line is asked for. *)
Definition theory_call (tm : option tm.t) (asked : bool) (a : axref) (s : list Q)
    (args : list pyval) (kwargs : gmap string pyval) : list event :=
  match tm, asked with
  | Some tm, true => [Loglog a (tm.f tm) s args kwargs]
  | _, _ => []
  end.

(** The figure a plotting function sets up when it is given a number. *)
Definition figure_setup {F} (fignum : fignum_arg F) : list event :=
  match fignum with
  | FigNum n => [FigureSetup n]
  | FigObj _ => []
  end.

(** The pair a grid-index attribute of a [summfig] gives when read: the
    pair stored, or the default when nothing was stored yet. *)
Definition slot_pair (slot : option pyval) (default : Z * Z) : option (Z * Z) :=
  match slot with
  | None => Some default
  | Some (VPair a b) => Some (a, b)
  | Some _ => None
  end.

(** [m], started in a state that satisfies [I], ends in one that does and
    issues only calls that satisfy [P]. *)
Definition emits_inv {S A} (I : S -> Prop) (P : event -> Prop) (m : fx S A) : Prop :=
  forall s, I s -> I (fst (m s)) /\ forall e, e ∈ fst (snd (m s)) -> P e.

(** A [summfig] with window length [n] whose [igrid] reads as the pair
    [g]; one whose [icoh] reads as the pair [c]. *)
Definition reads_igrid (n : Z) (g : Z * Z) (s : summfig.t) : Prop :=
  summfig.nfft s = n /\ slot_pair (summfig._igrid s) (0, 0) = Some g.

Definition reads_icoh (c : Z * Z) (s : summfig.t) : Prop :=
  slot_pair (summfig._icoh s) (-1, -1) = Some c.

(** The three calls [base_axForm.plot] makes on one axes for the curve
    [c] that [_calc] returned. *)
Definition plot_calls (self : axForm) (kwargs : gmap string pyval) (a : ax) (c : xy)
    : list event :=
  [Plot (ax_pos a) (base_axForm.scale_x (fst c) (_lin_x_scale (form_attrs self)))
     (snd c) [] kwargs;
   SetXscale (ax_pos a) (_xscale (form_attrs self));
   SetYscale (ax_pos a) (_yscale (form_attrs self))].

(** The method tables of the five formats that define both methods. *)
Definition concrete_methods `{Mlab} : list (gmap string method) :=
  [velprof_axForm.methods; tkeprof_axForm.methods; stressprof_axForm.methods;
   spec_axForm.methods; cohere_axForm.methods].

(** [yax] of the format object at a location. *)
Definition yax_at (s : store) (l : loc) : option string :=
  match s !! l with
  | Some f => yax (form_attrs f)
  | None => None
  end.

(** The format object at [l] has [hide_ylabels] set. *)
Definition hidden (s : store) (l : loc) : Prop :=
  exists f, s !! l = Some f /\ hide_ylabels (form_attrs f) = true.

(** Somewhere in the list, [l] comes right after a format with the same
    [yax]. *)
Definition follows_same_yax (s : store) (axforms : list loc) (l : loc) : Prop :=
  exists idx l_prev y,
    axforms !! idx = Some l_prev /\ axforms !! S idx = Some l /\
    yax_at s l_prev = Some y /\ yax_at s l = Some y.

(** A call made by [summfig.plot_profpt]: a marker ['o'] drawn with one of
    the two keyword dictionaries. *)
Definition profpt_marker (kwargs : gmap string pyval) (e : event) : Prop :=
  match e with
  | Plot _ _ _ args kw =>
      args = [VStr "o"] /\
      (kw = summfig.profpt_kw1 kwargs \/ kw = summfig.profpt_kw2 kwargs)
  | _ => False
  end.

(** [m], started in a state that satisfies [P], ends in a state that
    satisfies [P] and raises only exceptions that satisfy [E]. *)
Definition safe {S A} (P : S -> Prop) (E : exn -> Prop) (m : fx S A) : Prop :=
  forall s, P s ->
    P (fst (m s)) /\ forall e, snd (snd (m s)) = Raise e -> E e.

(** [m], started in a state that satisfies [P], raises. *)
Definition never_ok {S A} (P : S -> Prop) (m : fx S A) : Prop :=
  forall s, P s -> exists e, snd (snd (m s)) = Raise e.

(** Both scale factors of the statistics columns have been assigned. *)
Definition factors_set (self : summfig.t) : Prop :=
  is_Some (summfig.tke_factor self) /\ is_Some (summfig.rs_factor self).

(** Exceptions of indexing: a bad index, or an index that is not a pair. *)
Definition index_error (e : exn) : Prop := e = IndexError \/ e = TypeError.

(** [P] looks at the two scale factors of a [summfig] only. *)
Definition on_factors (P : summfig.t -> Prop) : Prop :=
  forall s s',
    summfig.tke_factor s' = summfig.tke_factor s ->
    summfig.rs_factor s' = summfig.rs_factor s ->
    P s -> P s'.

(** [yax] of the format before position [i] of [rest], which is [last]
    for the first position. *)
Definition prev_yax (s : store) (last : option string) (rest : list loc) (i : nat)
    : option string :=
  match i with
  | O => last
  | S p => match rest !! p with
           | Some lp => yax_at s lp
           | None => None
           end
  end.

(** Every call recorded by [m] satisfies [P]. *)
Definition io_only {A} (P : event -> Prop) (m : io A) : Prop :=
  forall e, e ∈ fst m -> P e.

(** A y label is set only by a format that is not hidden, and only on an
    axes of the group. *)
Definition ylabel_allowed (self : attrs) (axes : list ax) (e : event) : Prop :=
  match e with
  | SetYlabel a _ => hide_ylabels self = false /\ a ∈ ax_pos <$> axes
  | _ => True
  end.

(** ** Sample objects *)

Module Samples.

(** A stand-in for the estimators: the signal as the power, and the bin
    numbers [0; 1; ...] as the frequencies. *)
Definition bins {A} (x : list A) : list Q :=
  (fun i => inject_Z (Z.of_nat i)) <$> seq 0 (length x).

#[local] Instance mlab : Mlab := {|
  mlab_psd x _ _ _ _ := (x, bins x);
  mlab_cohere x _ _ _ _ _ _ := (x, bins x)
|}.

(** One grid point, three samples per component. *)
Definition grid1 (v : Q) : list (list (list Q)) := [[[v]]; [[v]]; [[v]]].

Definition data : tsdata.t := {|
  tsdata.dt := float.of_int 7;
  tsdata.ihub := (0, 0);
  tsdata.z := [10%Q];
  tsdata.uprof := grid1 5;
  tsdata.tke := grid1 2;
  tsdata.stress := grid1 1;
  tsdata.uturb := [[[[3; 1; 2]]]; [[[1; 2; 3]]]; [[[2; 3; 1]]]]%Q;
  tsdata.tm := None
|}.

(** Two lateral positions, the hub at the second. *)
Definition data2 : tsdata.t := {|
  tsdata.dt := float.dec 5 100;
  tsdata.ihub := (0, 1);
  tsdata.z := [10%Q];
  tsdata.uprof := [[[4; 5]]; [[0; 0]]; [[0; 0]]]%Q;
  tsdata.tke := [[[2; 3]]; [[2; 3]]; [[2; 3]]]%Q;
  tsdata.stress := [[[7; 8]]; [[7; 8]]; [[7; 8]]]%Q;
  tsdata.uturb := [[[[3; 1; 2]; [1; 1; 1]]]; [[[1; 2; 3]; [1; 1; 1]]]; [[[2; 3; 1]; [1; 1; 1]]]]%Q;
  tsdata.tm := None
|}.

(** The first sample with a sample interval of 0.00256, and with the
    smallest positive normal float, 2^-1022. *)
Definition fine : tsdata.t :=
  tsdata.mk (float.dec 256 100000) (0, 0) [10%Q] (grid1 5) (grid1 2) (grid1 1)
    (tsdata.uturb data) None.

Definition tiny : tsdata.t :=
  tsdata.mk (S754_finite false 4503599627370496 (-1074)) (0, 0) [10%Q]
    (grid1 5) (grid1 2) (grid1 1) (tsdata.uturb data) None.

(** The series at the grid point (0, 0) of the first sample. *)
Definition series (ind : Z) : list Q :=
  match np_point (tsdata.uturb data) ind (0, 0) with
  | Ok u => u
  | Raise _ => []
  end.

Definition obj_data : pyobj := mk_pyobj cls_tsdata [cls_object] (Some data) None.
Definition obj_fine : pyobj := mk_pyobj cls_tsdata [cls_object] (Some fine) None.
Definition obj_other : pyobj := mk_pyobj "dict" [cls_object] None None.

Definition run : tsrun.t := {|
  tsrun.grid := tsrun.mk_grid (0, 0) [10%Q] [1; 2]%Q (fun g => fst g + snd g);
  tsrun.prof := grid1 6;
  tsrun.spec := tsrun.mk_spec (grid1 2) [[[[4; 4]]]; [[[4; 4]]]; [[[4; 4]]]]%Q;
  tsrun.stress_array := grid1 1;
  tsrun.calcCoh f _ _ _ := f
|}.

(** An object of a class that derives from both data classes. *)
Definition obj_both : pyobj :=
  mk_pyobj "both" [cls_tsdata; cls_tsrun; cls_object] (Some data) (Some run).

End Samples.

(** ** Sample figures *)

Module Cases.

Definition uvw : list component := [CStr "u"; CStr "v"; CStr "w"].

(** A velocity-profile format at location 0 and a tke-profile format at
    location 1. *)
Definition two_profiles : store :=
  {[ 0%nat := velprof_axForm.__init__ (Some 0%Q, Some 2%Q);
     1%nat := tkeprof_axForm.__init__ (Some 0%Q, None) ]}.

Definition spacer2 : list Q * list Q := ([0.2; 0.2]%Q, [2; 2]%Q).

(** The figure [fig_axForms(400, [velprof, tkeprof])] builds. *)
Definition fig_two : fig_axForms.t :=
  Eval vm_compute in
    match snd (snd (fig_axForms.__init__ 400 [0%nat; 1%nat] uvw spacer2 0.2 two_profiles)) with
    | Ok fig => fig
    | Raise _ => fig_axForms.mk [] [] [] (fig_axForms.mk_layout [] [] [])
    end.


(** The two default formats of [new_summ_fig], at locations 0 and 1. *)
Definition defaults `{Mlab} : store :=
  {[ 0%nat := velprof_axForm.__init__ (Some 0%Q, Some 2%Q);
     1%nat := spec_axForm.__init__ 600 None ]}.

(** A stand-in for [mean]: the sum of the row. *)
#[local] Instance numpy : Numpy := {| np_mean row := foldr Qplus 0%Q row |}.

(** The sample data with a sample interval of zero. *)
Definition data0 : tsdata.t :=
  tsdata.mk (S754_zero false) (0, 0) [10%Q] (Samples.grid1 5) (Samples.grid1 2) (Samples.grid1 1)
    (tsdata.uturb Samples.data) None.

(** A summary figure on which nothing has been assigned yet. *)
Definition fresh : summfig.t := summfig.mk 1024 None None None None.

End Cases.

(** * Properties *)

(** ** Window length *)

Lemma add_parity_even (q : Z) : Z.even (q + q mod 2) = true.
Proof.
  rewrite Zmod_odd, Z.even_add.
  destruct (Z.odd q) eqn:E.
  - rewrite <- Z.negb_odd, E. reflexivity.
  - rewrite <- Z.negb_odd, E. reflexivity.
Qed.

Lemma add_parity_cases (q : Z) : q + q mod 2 = if Z.odd q then q + 1 else q.
Proof. rewrite Zmod_odd. destruct (Z.odd q); lia. Qed.

(** Rounding a mantissa that is not negative never gives NaN. *)

Lemma shr_1_nonneg (mrs : shr_record) : 0 <= shr_m mrs -> 0 <= shr_m (shr_1 mrs).
Proof.
  destruct mrs as [m r s]. simpl. destruct m as [|p|p]; simpl; try lia.
  intros _. destruct p; simpl; lia.
Qed.

Lemma iter_pos_nonneg (n : positive) (mrs : shr_record) :
  0 <= shr_m mrs -> 0 <= shr_m (SpecFloat.iter_pos shr_1 n mrs).
Proof.
  revert mrs. induction n as [n IH|n IH|]; intros mrs Hm; simpl.
  - apply IH, IH, shr_1_nonneg, Hm.
  - apply IH, IH, Hm.
  - apply shr_1_nonneg, Hm.
Qed.

Lemma shr_fexp_nonneg (prec emax m e : Z) (l : location) :
  0 <= m -> 0 <= shr_m (fst (shr_fexp prec emax m e l)).
Proof.
  intros Hm. unfold shr_fexp, shr.
  assert (H0 : 0 <= shr_m (shr_record_of_loc m l)) by (destruct l as [|[]]; exact Hm).
  destruct (fexp prec emax (Zdigits2 m + e) - e); simpl; auto.
  apply iter_pos_nonneg, H0.
Qed.

Lemma round_nearest_even_nonneg (m : Z) (l : location) :
  0 <= m -> 0 <= round_nearest_even m l.
Proof.
  intros Hm. unfold round_nearest_even. destruct l as [|[]]; try lia.
  destruct (IntDef.Z.even m); lia.
Qed.

Lemma binary_round_aux_not_nan (prec emax : Z) (sx : bool) (mx ex : Z) (lx : location) :
  0 <= mx -> float.is_nan (binary_round_aux prec emax sx mx ex lx) = false.
Proof.
  intros Hm. unfold binary_round_aux.
  pose proof (shr_fexp_nonneg prec emax mx ex lx Hm) as H1.
  destruct (shr_fexp prec emax mx ex lx) as [mrs' e']. simpl in H1.
  pose proof (shr_fexp_nonneg prec emax _ e' loc_Exact
                (round_nearest_even_nonneg _ (loc_of_shr_record mrs') H1)) as H2.
  destruct (shr_fexp prec emax _ e' loc_Exact) as [mrs'' e'']. simpl in H2.
  destruct (shr_m mrs'') as [|p|p]; [reflexivity| |lia].
  destruct (e'' <=? emax - prec); reflexivity.
Qed.

Lemma div_core_nonneg (prec emax : Z) (m1 m2 : positive) (e1 e2 : Z) :
  0 <= fst (fst (SFdiv_core_binary prec emax (Z.pos m1) e1 (Z.pos m2) e2)).
Proof.
  unfold SFdiv_core_binary.
  set (s := e1 - e2 - _).
  set (m' := match s with 0 => _ | Z.pos _ => _ | Z.neg _ => _ end).
  assert (Hm' : 0 <= m').
  { subst m'. destruct s; try lia. apply Z.shiftl_nonneg. lia. }
  pose proof (Z.div_eucl_eq m' (Z.pos m2) ltac:(lia)) as Heq.
  pose proof (Z.mod_pos_bound m' (Z.pos m2) ltac:(lia)) as Hb.
  unfold Z.modulo in Hb.
  change IntDef.Z.div_eucl with Z.div_eucl.
  destruct (Z.div_eucl m' (Z.pos m2)) as [q r]. simpl. nia.
Qed.

Lemma div_finite_not_nan (sx sy : bool) (mx my : positive) (ex ey : Z) :
  float.is_nan (float.div (S754_finite sx mx ex) (S754_finite sy my ey)) = false.
Proof.
  unfold float.div, SFdiv.
  pose proof (div_core_nonneg float.prec float.emax mx my ex ey) as Hq.
  destruct (SFdiv_core_binary _ _ _ _ _ _) as [[mz ez] lz]. simpl in Hq.
  apply binary_round_aux_not_nan, Hq.
Qed.

Lemma of_int_not_nan (n : Z) : float.is_nan (float.of_int n) = false.
Proof.
  unfold float.of_int, binary_normalize. destruct n; [reflexivity| |];
    unfold binary_round; destruct (shl_align _ _ _);
    apply binary_round_aux_not_nan; lia.
Qed.

(** What [py_float] returns is zero or finite. *)
Lemma py_float_ok (n : Z) (x : spec_float) :
  py_float n = Ok x -> float.is_infinity x = false /\ float.is_nan x = false.
Proof.
  unfold py_float. pose proof (of_int_not_nan n) as Hn.
  destruct (float.is_infinity (float.of_int n)) eqn:E; [discriminate|].
  intros Hx. injection Hx as <-. auto.
Qed.

Lemma positive_cases (x : spec_float) :
  float.is_positive x = true ->
  x = S754_infinity false \/ exists m e, x = S754_finite false m e.
Proof.
  unfold float.is_positive, SFltb. destruct x as [s|s| |s m e]; simpl; try discriminate.
  - destruct s; [discriminate|]. auto.
  - destruct s; [discriminate|]. eauto.
Qed.

Lemma py_div_positive (a b : spec_float) :
  float.is_positive b = true -> py_div a b = Ok (float.div a b).
Proof.
  intros Hb. apply positive_cases in Hb as [->|(m & e & ->)]; reflexivity.
Qed.

(** A number that is zero or finite, divided by a positive float, is not
    NaN. *)
Lemma div_positive_not_nan (a b : spec_float) :
  float.is_infinity a = false -> float.is_nan a = false ->
  float.is_positive b = true ->
  float.is_nan (float.div a b) = false.
Proof.
  intros Hi Hn Hb. apply positive_cases in Hb as [->|(m & e & ->)];
    destruct a as [s|s| |s ma ea]; try discriminate; try reflexivity.
  apply div_finite_not_nan.
Qed.

Lemma py_int_ok (x : spec_float) :
  float.is_infinity x = false -> float.is_nan x = false -> exists q, py_int x = Ok q.
Proof. destruct x; try discriminate; simpl; eauto. Qed.

Lemma py_int_infinity (x : spec_float) :
  float.is_infinity x = true -> py_int x = Raise OverflowError.
Proof. destruct x; try discriminate; reflexivity. Qed.

(** C1 (as stated, refuted): for the smallest positive normal float as
    [dt], [600/dt] overflows to infinity and [int()] raises: no window
    length is computed. *)
Lemma nfft_overflows_for_tiny_dt :
  float.is_positive (tsdata.dt Samples.tiny) = true /\
  valid_binary float.prec float.emax (tsdata.dt Samples.tiny) = true /\
  py_div (float.of_int 600) (tsdata.dt Samples.tiny) = Ok (S754_infinity false) /\
  calc_nfft 600 (tsdata.dt Samples.tiny) = Raise OverflowError /\
  spec_axForm._calc_tsdata (H := Samples.mlab)
    (form_attrs (spec_axForm.__init__ (H := Samples.mlab) 600 None)) Samples.tiny 0 None
  = Raise OverflowError /\
  cohere_axForm._calc_tsdata (H := Samples.mlab)
    (form_attrs (cohere_axForm.__init__ (H := Samples.mlab) 600 None None))
    Samples.tiny 0 None None
  = Raise OverflowError.
Proof. vm_compute. repeat split. Qed.

(** C1 (amended): for a data object with [dt > 0], when the float quotient
    [window_time/dt] is finite, the window length that
    [spec_axForm._calc_tsdata] and [cohere_axForm._calc_tsdata] hand to the
    estimators is [int()] of that quotient, plus one when that is odd; it
    is even.  When the quotient overflows to infinity, both methods raise
    [OverflowError]. *)
Theorem nfft_is_even `{Mlab} (self : attrs) (tsdata : tsdata.t) (comp w : Z)
    (wf : spec_float) :
  window_time self = Some w ->
  py_float w = Ok wf ->
  float.is_positive (tsdata.dt tsdata) = true ->
  let dt := tsdata.dt tsdata in
  let quot := float.div wf dt in
  (float.is_infinity quot = false ->
   exists q,
     py_int quot = Ok q /\
     let nfft := if Z.odd q then q + 1 else q in
     Z.even nfft = true /\
     calc_nfft w dt = Ok nfft /\
     (forall igrid,
        spec_axForm._calc_tsdata self tsdata comp igrid =
          (u ← np_point (tsdata.uturb tsdata) comp
                (or_pair igrid (or_pair (attr.igrid self) (tsdata.ihub tsdata)));
           Ok (arrays (psd u (float.div one dt) nfft)))) /\
     (forall igrid0 igrid1,
        cohere_axForm._calc_tsdata self tsdata comp igrid0 igrid1 =
          (u1 ← np_point (tsdata.uturb tsdata) comp
                 (or_pair igrid0 (or_pair (attr.igrid0 self) (tsdata.ihub tsdata)));
           u2 ← np_point (tsdata.uturb tsdata) comp
                 (or_pair igrid1 (or_pair (attr.igrid1 self) (0, 0)));
           Ok (arrays (coh u1 u2 (float.div one dt) nfft))))) /\
  (float.is_infinity quot = true ->
   calc_nfft w dt = Raise OverflowError /\
   (forall igrid,
      spec_axForm._calc_tsdata self tsdata comp igrid = Raise OverflowError) /\
   (forall igrid0 igrid1,
      cohere_axForm._calc_tsdata self tsdata comp igrid0 igrid1 = Raise OverflowError)).
Proof.
  intros Hw Hwf Hdt dt quot.
  destruct (py_float_ok _ _ Hwf) as [Hwi Hwn].
  pose proof (div_positive_not_nan wf dt Hwi Hwn Hdt) as Hqn. fold quot in Hqn.
  assert (Hdiv : py_div wf dt = Ok quot) by apply (py_div_positive _ _ Hdt).
  assert (Hsr : py_div one dt = Ok (float.div one dt)) by apply (py_div_positive _ _ Hdt).
  split.
  - intros Hqi. destruct (py_int_ok quot Hqi Hqn) as [q Hq]. exists q.
    split; [exact Hq|]. intros nfft.
    assert (Hn : calc_nfft w dt = Ok nfft).
    { unfold calc_nfft. rewrite Hwf. simpl. rewrite Hdiv. simpl. rewrite Hq. simpl.
      rewrite add_parity_cases. reflexivity. }
    split; [|split; [exact Hn|split]].
    + subst nfft. rewrite <- add_parity_cases. apply add_parity_even.
    + intros igrid. unfold spec_axForm._calc_tsdata, get_window_time.
      rewrite Hw. simpl. fold dt. rewrite Hn. simpl.
      destruct (np_point _ _ _); simpl; [|reflexivity].
      rewrite Hsr. reflexivity.
    + intros igrid0 igrid1. unfold cohere_axForm._calc_tsdata, get_window_time.
      rewrite Hw. simpl. fold dt. rewrite Hn. simpl.
      destruct (np_point _ _ _); simpl; [|reflexivity].
      destruct (np_point _ _ _); simpl; [|reflexivity].
      rewrite Hsr. reflexivity.
  - intros Hqi.
    assert (Hn : calc_nfft w dt = Raise OverflowError).
    { unfold calc_nfft. rewrite Hwf. simpl. rewrite Hdiv. simpl.
      rewrite (py_int_infinity _ Hqi). reflexivity. }
    split; [exact Hn|split].
    + intros igrid. unfold spec_axForm._calc_tsdata, get_window_time.
      rewrite Hw. simpl. fold dt. rewrite Hn. reflexivity.
    + intros igrid0 igrid1. unfold cohere_axForm._calc_tsdata, get_window_time.
      rewrite Hw. simpl. fold dt. rewrite Hn. reflexivity.
Qed.

(** With [dt = 0.00256] the float quotient is just below 234375, and the
    window has 234374 points. *)
Lemma nfft_is_even_witness :
  Z.even 234374 = true /\ calc_nfft 600 (tsdata.dt Samples.fine) = Ok 234374.
Proof.
  destruct (@nfft_is_even Samples.mlab
              (form_attrs (spec_axForm.__init__ (H := Samples.mlab) 600 None))
              Samples.fine 0 600 (float.of_int 600) eq_refl eq_refl eq_refl) as [Hfin _].
  destruct (Hfin eq_refl) as (q & Hq & He & Hn & _).
  vm_compute in Hq. injection Hq as <-.
  split; [exact He | exact Hn].
Defined.

(** C8: whatever [window_time_sec] is, both constructors store
    [window_time = 600], and the [_calc_tsdata] methods of the objects they
    build compute the window length from 600 seconds. *)
Theorem window_time_is_600 `{Mlab} (window_time_sec : Q)
    (igrid igrid0 igrid1 : option (Z * Z)) :
  let s := form_attrs (spec_axForm.__init__ window_time_sec igrid) in
  let c := form_attrs (cohere_axForm.__init__ window_time_sec igrid0 igrid1) in
  window_time s = Some 600 /\
  window_time c = Some 600 /\
  (forall tsdata comp g,
     spec_axForm._calc_tsdata s tsdata comp g =
       (nfft ← calc_nfft 600 (tsdata.dt tsdata);
        u ← np_point (tsdata.uturb tsdata) comp
              (or_pair g (or_pair igrid (tsdata.ihub tsdata)));
        sr ← py_div one (tsdata.dt tsdata);
        Ok (arrays (psd u sr nfft)))) /\
  (forall tsdata comp g0 g1,
     cohere_axForm._calc_tsdata c tsdata comp g0 g1 =
       (nfft ← calc_nfft 600 (tsdata.dt tsdata);
        u1 ← np_point (tsdata.uturb tsdata) comp
               (or_pair g0 (or_pair igrid0 (tsdata.ihub tsdata)));
        u2 ← np_point (tsdata.uturb tsdata) comp
               (or_pair g1 (or_pair igrid1 (0, 0)));
        sr ← py_div one (tsdata.dt tsdata);
        Ok (arrays (coh u1 u2 sr nfft)))).
Proof. repeat split. Qed.

(** A format asked for a 60 second window still uses 600 seconds: with
    [dt = 7] the estimator gets 86 points, not 8. *)
Example window_60_ignored :
  calc_nfft 60 (float.of_int 7) = Ok 8 /\
  spec_axForm._calc_tsdata (H := Samples.mlab)
    (form_attrs (spec_axForm.__init__ (H := Samples.mlab) 60 None)) Samples.data 0 None
  = Ok (arrays (psd (H := Samples.mlab) [3; 1; 2]%Q
                  (float.div one (float.of_int 7)) 86)).
Proof. split; reflexivity. Qed.

(** ** Lateral index of the stress profile *)

(** C10: in both methods of [stressprof_axForm] the index [0] gives what
    [None] gives, the profile at the hub's lateral index. *)
Theorem stress_igrid_0_is_hub (self : attrs) (tsdata : tsdata.t) (tsrun : tsrun.t)
    (comp : Z) :
  stressprof_axForm._calc_tsdata self tsdata comp (Some 0)
    = stressprof_axForm._calc_tsdata self tsdata comp None /\
  stressprof_axForm._calc_tsdata self tsdata comp (Some 0)
    = (x ← np_profile (tsdata.stress tsdata) comp (snd (tsdata.ihub tsdata));
       Ok (Arr x, Arr (tsdata.z tsdata))) /\
  stressprof_axForm._calc_tsrun self tsrun comp (Some 0)
    = stressprof_axForm._calc_tsrun self tsrun comp None /\
  stressprof_axForm._calc_tsrun self tsrun comp (Some 0)
    = (x ← np_profile (tsrun.stress_array tsrun) comp
             (snd (tsrun.ihub (tsrun.grid tsrun)));
       Ok (Arr x, Arr (tsrun.z (tsrun.grid tsrun)))).
Proof. repeat split. Qed.

(** With the hub at lateral index 1, asking for index 0 returns the values
    at index 1; every other index is honoured. *)
Example stress_igrid_0_sample :
  let self := form_attrs (stressprof_axForm.__init__ (Some 0%Q, None)) in
  stressprof_axForm._calc_tsdata self Samples.data2 0 (Some 0) = Ok (Arr [8%Q], Arr [10%Q]) /\
  stressprof_axForm._calc_tsdata self Samples.data2 0 (Some (-2)) = Ok (Arr [7%Q], Arr [10%Q]).
Proof. split; reflexivity. Qed.

(** ** Saving the figure *)

(** C7: [savefig] makes one save call; its [dpi] is the caller's when the
    caller gave one and 300 otherwise, and the positional arguments and all
    other keywords are the caller's. *)
Theorem savefig_dpi (self : summfig.t) (args : list pyval) (kwargs : gmap string pyval) :
  exists kw : gmap string pyval,
    summfig.savefig args kwargs self = (self, ([Savefig args kw], Ok tt)) /\
    kw !! "dpi" = Some (default (VInt 300) (kwargs !! "dpi")) /\
    forall k : string, k ≠ "dpi" -> kw !! k = kwargs !! k.
Proof.
  unfold summfig.savefig, summfig.setdefault, draw, emit.
  destruct (kwargs !! "dpi") as [v|] eqn:E.
  - exists kwargs. rewrite E. repeat split.
  - exists (<["dpi" := VInt 300]> kwargs). split; [reflexivity|]. split.
    + apply lookup_insert_eq.
    + intros k Hk. apply lookup_insert_ne. congruence.
Qed.

(** ** Dispatch on the class of the object *)

Lemma method_map_orders (items : list (class * string)) :
  items ≡ₚ method_map ->
  items = [(cls_tsdata, "_calc_tsdata"); (cls_tsrun, "_calc_tsrun")] \/
  items = [(cls_tsrun, "_calc_tsrun"); (cls_tsdata, "_calc_tsdata")].
Proof.
  intros Hp. symmetry in Hp. apply Permutation_length_2_inv in Hp. exact Hp.
Qed.

Lemma supported_iff (obj : pyobj) :
  supported obj <-> cls_tsdata ∈ mro obj \/ cls_tsrun ∈ mro obj.
Proof.
  unfold supported, method_map. simpl. split.
  - intros (cls & Hc & Hm).
    apply elem_of_cons in Hc as [->|Hc]; [left; exact Hm|].
    apply elem_of_cons in Hc as [->|Hc]; [right; exact Hm|].
    apply elem_of_nil in Hc. destruct Hc.
  - intros [Hm|Hm].
    + exists cls_tsdata. split; [apply elem_of_cons; left; reflexivity|exact Hm].
    + exists cls_tsrun. split; [|exact Hm].
      apply elem_of_cons; right. apply elem_of_cons; left; reflexivity.
Qed.

Lemma calc_index (items : list (class * string)) (self : axForm) (obj : pyobj)
    (comp : component) (i : Z) :
  index_of comp = Some i ->
  base_axForm._calc items self obj comp = base_axForm.dispatch items self obj i.
Proof.
  intros Hi. unfold base_axForm._calc.
  destruct comp as [s|n]; simpl in Hi.
  - rewrite Hi. reflexivity.
  - injection Hi as ->. reflexivity.
Qed.

Lemma calc_bad_key (items : list (class * string)) (self : axForm) (obj : pyobj)
    (s : string) :
  indx !! s = None ->
  base_axForm._calc items self obj (CStr s) = Raise (KeyError (CStr s)).
Proof. intros Hs. unfold base_axForm._calc. rewrite Hs. reflexivity. Qed.

Lemma dispatch_unsupported (items : list (class * string)) (self : axForm)
    (obj : pyobj) (i : Z) :
  items ≡ₚ method_map ->
  ~ supported obj ->
  base_axForm.dispatch items self obj i
    = Raise (Exception (base_axForm.unrecognized self obj)).
Proof.
  intros Hp Hn. rewrite supported_iff in Hn.
  destruct (method_map_orders _ Hp) as [-> | ->]; simpl;
    repeat (case_decide; [exfalso; apply Hn; auto|]); reflexivity.
Qed.

Lemma dispatch_supported (items : list (class * string)) (self : axForm)
    (obj : pyobj) (i : Z) :
  items ≡ₚ method_map ->
  supported obj ->
  exists cls meth,
    (cls, meth) ∈ method_map /\ cls ∈ mro obj /\
    base_axForm.dispatch items self obj i = call_or_nan self meth obj i.
Proof.
  intros Hp Hs. rewrite supported_iff in Hs.
  assert (H1 : (cls_tsdata, "_calc_tsdata") ∈ method_map)
    by (apply elem_of_cons; left; reflexivity).
  assert (H2 : (cls_tsrun, "_calc_tsrun") ∈ method_map)
    by (apply elem_of_cons; right; apply elem_of_cons; left; reflexivity).
  destruct (method_map_orders _ Hp) as [-> | ->]; simpl.
  - destruct (decide (cls_tsdata ∈ mro obj)) as [Hd|Hd].
    + exists cls_tsdata, "_calc_tsdata". auto.
    + destruct (decide (cls_tsrun ∈ mro obj)) as [Hr|Hr].
      * exists cls_tsrun, "_calc_tsrun". auto.
      * destruct Hs; contradiction.
  - destruct (decide (cls_tsrun ∈ mro obj)) as [Hr|Hr].
    + exists cls_tsrun, "_calc_tsrun". auto.
    + destruct (decide (cls_tsdata ∈ mro obj)) as [Hd|Hd].
      * exists cls_tsdata, "_calc_tsdata". auto.
      * destruct Hs; contradiction.
Qed.

Lemma dispatch_only (items : list (class * string)) (self : axForm)
    (obj : pyobj) (i : Z) :
  items ≡ₚ method_map ->
  (cls_tsdata ∈ mro obj -> cls_tsrun ∉ mro obj ->
   base_axForm.dispatch items self obj i = call_or_nan self "_calc_tsdata" obj i) /\
  (cls_tsrun ∈ mro obj -> cls_tsdata ∉ mro obj ->
   base_axForm.dispatch items self obj i = call_or_nan self "_calc_tsrun" obj i).
Proof.
  intros Hp.
  destruct (method_map_orders _ Hp) as [-> | ->]; simpl; split; intros Hin Hout;
    repeat case_decide; try contradiction; reflexivity.
Qed.

(** C3 (as stated, refuted): with a string component that is not a key of
    [indx], an object of an unsupported class gets a [KeyError] for the
    component, not the exception that names its type. *)
Lemma calc_keyerror_on_unsupported :
  ~ supported Samples.obj_other /\
  base_axForm._calc method_map base_axForm.__init__ Samples.obj_other (CStr "x")
    = Raise (KeyError (CStr "x")) /\
  base_axForm._calc method_map base_axForm.__init__ Samples.obj_other (CStr "x")
    <> Raise (Exception (base_axForm.unrecognized base_axForm.__init__ Samples.obj_other)).
Proof.
  split; [|split].
  - rewrite supported_iff. intros [H|H]; revert H; apply (bool_decide_unpack (_ ∉ _)); reflexivity.
  - reflexivity.
  - discriminate.
Qed.

(** C3 (amended): for a component that is an integer or a key of [indx],
    [_calc] raises the exception naming the object's class when no class of
    [method_map] is in the object's hierarchy; when one is, the result is
    what the selected method returns, or the NaN pair when the format lacks
    that method, so every exception then comes from the method.  This holds
    in whichever order the dictionary yields its entries.  A string that is
    not a key of [indx] raises [KeyError] before the classes are looked
    at. *)
Theorem calc_raises_iff_unsupported (items : list (class * string)) (self : axForm)
    (obj : pyobj) (comp : component) (i : Z) :
  items ≡ₚ method_map ->
  index_of comp = Some i ->
  (~ supported obj ->
   base_axForm._calc items self obj comp
     = Raise (Exception (base_axForm.unrecognized self obj))) /\
  (supported obj ->
   exists cls meth,
     (cls, meth) ∈ method_map /\ cls ∈ mro obj /\
     base_axForm._calc items self obj comp = call_or_nan self meth obj i) /\
  ((forall meth msg, call_or_nan self meth obj i <> Raise (Exception msg)) ->
   (base_axForm._calc items self obj comp
      = Raise (Exception (base_axForm.unrecognized self obj))
    <-> ~ supported obj)) /\
  (exists pre post,
     base_axForm.unrecognized self obj = pre +:+ class_str (obj_class obj) +:+ post) /\
  (forall s, indx !! s = None ->
     base_axForm._calc items self obj (CStr s) = Raise (KeyError (CStr s))).
Proof.
  intros Hp Hi. rewrite (calc_index _ _ _ _ _ Hi).
  split; [|split; [|split; [|split; [|apply calc_bad_key]]]].
  - apply dispatch_unsupported, Hp.
  - apply dispatch_supported, Hp.
  - intros Hm. split; [|apply dispatch_unsupported, Hp].
    intros Hr Hs.
    destruct (dispatch_supported _ self _ i Hp Hs) as (cls & meth & _ & _ & Hd).
    rewrite Hd in Hr. exact (Hm _ _ Hr).
  - exists "Object type ".
    exists (" not recognized for " +:+ class_str (form_class self) +:+ " axes-type").
    reflexivity.
Qed.

Lemma calc_raises_iff_unsupported_witness :
  base_axForm._calc method_map base_axForm.__init__ Samples.obj_other (CStr "u")
  = Raise (Exception
      "Object type <class 'dict'> not recognized for <class 'pyts.plot.main.base_axForm'> axes-type").
Proof.
  refine (proj1 (calc_raises_iff_unsupported method_map base_axForm.__init__
                   Samples.obj_other (CStr "u") 0 _ eq_refl) _).
  - reflexivity.
  - intros (cls & Hc & Hm). revert Hm.
    apply elem_of_cons in Hc as [->|Hc]; [apply (bool_decide_unpack (_ ∉ _)); reflexivity|].
    apply elem_of_cons in Hc as [->|Hc]; [apply (bool_decide_unpack (_ ∉ _)); reflexivity|].
    apply elem_of_nil in Hc. destruct Hc.
Defined.

(** C5 (as stated, refuted): a format without [_calc_tsdata] returns the
    NaN pair for a [tsdata] object; and for an object whose class derives
    from both data classes, whichever entry the dictionary yields first
    decides, so one of the two methods is not the one whose pair is
    returned. *)
Lemma calc_not_always_the_method :
  (cls_tsdata ∈ mro Samples.obj_data /\
   form_methods base_axForm.__init__ !! "_calc_tsdata" = None /\
   base_axForm._calc method_map base_axForm.__init__ Samples.obj_data (CStr "u")
     = Ok (NaN, NaN)) /\
  (let self := velprof_axForm.__init__ (Some 0%Q, Some 2%Q) in
   cls_tsdata ∈ mro Samples.obj_both /\ cls_tsrun ∈ mro Samples.obj_both /\
   call_or_nan self "_calc_tsdata" Samples.obj_both 0 = Ok (Arr [5%Q], Arr [10%Q]) /\
   call_or_nan self "_calc_tsrun" Samples.obj_both 0 = Ok (Arr [6%Q], Arr [10%Q]) /\
   base_axForm._calc method_map self Samples.obj_both (CStr "u")
     = Ok (Arr [5%Q], Arr [10%Q]) /\
   base_axForm._calc (reverse method_map) self Samples.obj_both (CStr "u")
     = Ok (Arr [6%Q], Arr [10%Q])).
Proof.
  split.
  - split; [apply (bool_decide_unpack _); reflexivity|]. split; reflexivity.
  - split; [apply (bool_decide_unpack _); reflexivity|].
    split; [apply (bool_decide_unpack _); reflexivity|].
    repeat split.
Qed.

(** C5 (amended): [_calc] maps ['u'], ['v'], ['w'] to 0, 1, 2 and leaves an
    integer component as it is; for an object whose class derives from
    [tsdata] and not from [tsrun] it returns what the format's
    [_calc_tsdata] returns for the object and that index, and the NaN pair
    when the format has no such method; likewise with the two classes
    exchanged and [_calc_tsrun]. *)
Theorem calc_returns_method_result (items : list (class * string)) (self : axForm)
    (obj : pyobj) (comp : component) (i : Z) :
  items ≡ₚ method_map ->
  index_of comp = Some i ->
  (cls_tsdata ∈ mro obj -> cls_tsrun ∉ mro obj ->
   base_axForm._calc items self obj comp =
     match form_methods self !! "_calc_tsdata" with
     | Some _calc_tsdata => _calc_tsdata (form_attrs self) obj i
     | None => Ok (NaN, NaN)
     end) /\
  (cls_tsrun ∈ mro obj -> cls_tsdata ∉ mro obj ->
   base_axForm._calc items self obj comp =
     match form_methods self !! "_calc_tsrun" with
     | Some _calc_tsrun => _calc_tsrun (form_attrs self) obj i
     | None => Ok (NaN, NaN)
     end) /\
  index_of (CStr "u") = Some 0 /\
  index_of (CStr "v") = Some 1 /\
  index_of (CStr "w") = Some 2.
Proof.
  intros Hp Hi. rewrite (calc_index _ _ _ _ _ Hi).
  destruct (dispatch_only items self obj i Hp) as [Hd Hr].
  split; [|split; [|repeat split]].
  - intros Hin Hout. rewrite (Hd Hin Hout). unfold call_or_nan.
    destruct (form_methods self !! "_calc_tsdata"); reflexivity.
  - intros Hin Hout. rewrite (Hr Hin Hout). unfold call_or_nan.
    destruct (form_methods self !! "_calc_tsrun"); reflexivity.
Qed.

Lemma calc_returns_method_result_witness :
  base_axForm._calc method_map (velprof_axForm.__init__ (Some 0%Q, Some 2%Q))
    Samples.obj_data (CStr "u")
  = velprof_axForm._calc_tsdata
      (form_attrs (velprof_axForm.__init__ (Some 0%Q, Some 2%Q))) Samples.data 0 None.
Proof.
  refine (proj1 (calc_returns_method_result method_map
                   (velprof_axForm.__init__ (Some 0%Q, Some 2%Q))
                   Samples.obj_data (CStr "u") 0 _ eq_refl) _ _).
  - reflexivity.
  - apply (bool_decide_unpack _). reflexivity.
  - apply (bool_decide_unpack (_ ∉ _)). reflexivity.
Defined.

(** ** Finishing an axes group *)

Lemma np_get_first {A} (l : list A) (a : A) : head l = Some a -> np_get l 0 = Ok a.
Proof. destruct l as [|b l]; intros Hh; [discriminate|]. injection Hh as ->. reflexivity. Qed.

Lemma np_get_last {A} (l : list A) (a : A) : last l = Some a -> np_get l (-1) = Ok a.
Proof.
  intros Hl. unfold np_get. rewrite last_lookup in Hl.
  assert (Hlen : (0 < length l)%nat).
  { destruct l; [discriminate|simpl; lia]. }
  change (-1 <? 0) with true. cbv iota.
  replace (0 <=? -1 + Z.of_nat (length l)) with true by (symmetry; apply Z.leb_le; lia).
  replace (-1 + Z.of_nat (length l) <? Z.of_nat (length l)) with true
    by (symmetry; apply Z.ltb_lt; lia).
  simpl. replace (Z.to_nat (-1 + Z.of_nat (length l))) with (pred (length l)) by lia.
  rewrite Hl. reflexivity.
Qed.

Lemma for_each_ok {A} (l : list A) (body : A -> io unit) (evs : A -> list event) :
  (forall x, x ∈ l -> body x = (evs x, Ok tt)) ->
  for_each l body = (x ← l; evs x, Ok tt).
Proof.
  induction l as [|a l IH]; intros Hb; [reflexivity|].
  simpl. rewrite (Hb a) by (apply elem_of_cons; left; reflexivity).
  unfold mbind at 1, io_bind.
  rewrite IH by (intros x Hx; apply Hb, elem_of_cons; right; exact Hx).
  reflexivity.
Qed.

Lemma for_each_emit {A} (l : list A) (f : A -> event) :
  for_each l (fun x => emit (f x)) = (f <$> l, Ok tt).
Proof.
  rewrite (for_each_ok l _ (fun x => [f x])) by reflexivity.
  reflexivity.
Qed.

(** C6 (amended): on a non-empty axes group whose components are all keys
    of [_labels] when there is one, [finalize] does not fail, whichever of
    the optional attributes are absent.  Its calls are, in order: hiding the
    x tick labels; hiding the y tick labels when [hide_ylabels] is set, and
    otherwise the y label on every axes when [_ylabel] is present; the x
    label on the last axes when [_xlabel] is present; the title on the first
    when [_title] is present; a line on every axes per value when [_grid_x]
    is present; a corner annotation on every axes when [_labels] is
    present.  An absent attribute contributes no call and changes no
    other. *)
Theorem finalize_optional_steps (self : attrs) (axes : list ax) (first last : ax) :
  head axes = Some first ->
  list.last axes = Some last ->
  (forall labels ax, _labels self = Some labels -> ax ∈ axes ->
     is_Some (labels !! ax_comp ax)) ->
  base_axForm.finalize self axes =
    (Hide "xticklabels" (ax_pos <$> axes) (Some (ax_pos last))
       :: (if hide_ylabels self
           then [Hide "yticklabels" (ax_pos <$> axes) None]
           else ylabel_step self axes)
       ++ xlabel_step self last
       ++ title_step self first
       ++ grid_step self axes
       ++ labels_step self axes,
     Ok tt).
Proof.
  intros Hf Hl Hlab. unfold base_axForm.finalize.
  rewrite (np_get_last _ _ Hl), (np_get_first _ _ Hf).
  assert (Hy : (match negb (hide_ylabels self), _ylabel self with
                | true, Some s => for_each axes (fun ax => emit (SetYlabel (ax_pos ax) s))
                | _, _ => mret tt
                end)
               = (if hide_ylabels self then [] else ylabel_step self axes, Ok tt)).
  { unfold ylabel_step. destruct (hide_ylabels self), (_ylabel self); simpl;
      rewrite ?for_each_emit; reflexivity. }
  assert (Hg : (match _grid_x self with
                | Some vals =>
                    for_each axes (fun ax =>
                      for_each vals (fun val => emit (Vln (ax_pos ax) val ":" "k" (-10))))
                | None => mret tt
                end) = (grid_step self axes, Ok tt)).
  { unfold grid_step. destruct (_grid_x self) as [vals|]; [|reflexivity].
    apply for_each_ok. intros ax _. apply for_each_emit. }
  assert (Hb : (match _labels self with
                | Some labels =>
                    for_each axes (fun ax =>
                      text ← lift (match labels !! ax_comp ax with
                                   | Some t => Ok t
                                   | None => Raise (KeyError (ax_comp ax))
                                   end);
                      emit (AnnoteCorner (ax_pos ax) text "ul"))
                | None => mret tt
                end) = (labels_step self axes, Ok tt)).
  { unfold labels_step. destruct (_labels self) as [labels|] eqn:E; [|reflexivity].
    rewrite (for_each_ok axes _
               (fun ax => [AnnoteCorner (ax_pos ax) (labels !!! ax_comp ax) "ul"])).
    - reflexivity.
    - intros ax Hax. destruct (Hlab labels ax eq_refl Hax) as [t Ht].
      rewrite (lookup_total_correct _ _ _ Ht), Ht. reflexivity. }
  rewrite Hy, Hg, Hb. clear Hy Hg Hb.
  unfold xlabel_step, title_step, lift, emit.
  destruct (hide_ylabels self), (base_axForm._xlabel self), (_title self); reflexivity.
Qed.

(** C6 (as stated, refuted): after [fig_axForms.__init__] has set
    [hide_ylabels] on a format, [finalize] does not set the y label although
    [_ylabel] is present. *)
Lemma finalize_hidden_ylabel :
  let self := set_hide_ylabels true (form_attrs (tkeprof_axForm.__init__ (Some 0%Q, None))) in
  let axes := fig_axForms.column [CStr "u"] 1 in
  _ylabel self = Some "$z\,\mathrm{[m]}$" /\
  base_axForm.finalize self axes
    = ([Hide "xticklabels" [(0, 1)%nat] (Some (0, 1)%nat);
        Hide "yticklabels" [(0, 1)%nat] None;
        SetXlabel (0, 1)%nat "$\mathrm{[10^{-2}m^2s^{-2}]}$";
        SetTitle (0, 1)%nat "tke"], Ok tt) /\
  forall a s, SetYlabel a s ∉ fst (base_axForm.finalize self axes).
Proof.
  split; [reflexivity|]. split; [reflexivity|].
  intros a s H.
  repeat (apply elem_of_cons in H as [H|H]; [discriminate H|]).
  apply elem_of_nil in H. exact H.
Qed.

Lemma finalize_optional_steps_witness :
  base_axForm.finalize (form_attrs (stressprof_axForm.__init__ (Some 0%Q, None)))
    (fig_axForms.column [CStr "u"; CStr "w"] 0)
  = ([Hide "xticklabels" [(0, 0); (1, 0)]%nat (Some (1, 0)%nat);
      SetYlabel (0, 0)%nat "$z\,\mathrm{[m]}$";
      SetYlabel (1, 0)%nat "$z\,\mathrm{[m]}$";
      SetXlabel (1, 0)%nat "$\mathrm{[10^{-2}m^2s^{-2}]}$";
      SetTitle (0, 0)%nat "stress";
      Vln (0, 0)%nat 0 ":" "k" (-10);
      Vln (1, 0)%nat 0 ":" "k" (-10);
      AnnoteCorner (0, 0)%nat "$\overline{u'v'}$" "ul";
      AnnoteCorner (1, 0)%nat "$\overline{v'w'}$" "ul"], Ok tt).
Proof.
  refine (finalize_optional_steps
            (form_attrs (stressprof_axForm.__init__ (Some 0%Q, None)))
            (fig_axForms.column [CStr "u"; CStr "w"] 0)
            (mk_ax (0, 0)%nat (CStr "u")) (mk_ax (1, 0)%nat (CStr "w"))
            eq_refl eq_refl _).
  intros labels ax Hl Hax. injection Hl as <-.
  apply elem_of_cons in Hax as [->|Hax]; [eexists; reflexivity|].
  apply elem_of_cons in Hax as [->|Hax]; [eexists; reflexivity|].
  apply elem_of_nil in Hax. destruct Hax.
Defined.

(** The two ways [finalize] does fail are not about absent attributes: an
    empty group, and a component that is not a key of [_labels]. *)
Example finalize_failures :
  base_axForm.finalize base_axForm.class_attrs [] = ([], Raise IndexError) /\
  snd (base_axForm.finalize (form_attrs (stressprof_axForm.__init__ (Some 0%Q, None)))
         (fig_axForms.column [CInt 0] 0))
    = Raise (KeyError (CInt 0)).
Proof. split; reflexivity. Qed.

(** ** What the figure does to its format objects *)

Lemma same_but_hide_refl (f : axForm) : same_but_hide f f.
Proof. repeat split. left. reflexivity. Qed.

Lemma same_but_hide_trans (f g h : axForm) :
  same_but_hide f g -> same_but_hide g h -> same_but_hide f h.
Proof.
  intros (Hc1 & Hm1 & Ha1) (Hc2 & Hm2 & Ha2).
  split; [congruence|]. split; [congruence|].
  destruct Ha1 as [Ha1|Ha1], Ha2 as [Ha2|Ha2]; rewrite Ha2, Ha1; auto.
Qed.

Lemma frame_refl (s : store) : frame s s.
Proof.
  intros l. destruct (s !! l); constructor. apply same_but_hide_refl.
Qed.

Lemma frame_trans (s1 s2 s3 : store) : frame s1 s2 -> frame s2 s3 -> frame s1 s3.
Proof.
  intros H12 H23 l. specialize (H12 l). specialize (H23 l).
  destruct H12 as [f g Hfg|]; inversion H23; subst; constructor.
  eapply same_but_hide_trans; eassumption.
Qed.

Lemma keeps_ret {A} (a : A) : keeps (mret a).
Proof. intros s. apply frame_refl. Qed.

Lemma keeps_bind {A B} (m : fx store A) (k : A -> fx store B) :
  keeps m -> (forall a, keeps (k a)) -> keeps (m ≫= k).
Proof.
  intros Hm Hk s. unfold mbind, fx_bind.
  specialize (Hm s). destruct (m s) as [s1 [es [a|e]]]; simpl in Hm; [|exact Hm].
  specialize (Hk a s1). destruct (k a s1) as [s2 [es' r]]; simpl in *.
  eapply frame_trans; eassumption.
Qed.

Lemma keeps_draw {A} (m : io A) : keeps (draw m).
Proof. intros s. apply frame_refl. Qed.

Lemma keeps_try {A} (r : res A) : keeps (attempt r).
Proof. intros s. apply frame_refl. Qed.

Lemma keeps_load (l : loc) : keeps (fig_axForms.load l).
Proof.
  intros s. unfold fig_axForms.load. destruct (s !! l); apply frame_refl.
Qed.

Lemma keeps_set_hide (l : loc) : keeps (fig_axForms.set_hide l).
Proof.
  intros s l'. unfold fig_axForms.set_hide.
  destruct (s !! l) as [f|] eqn:E; simpl; [|apply frame_refl].
  destruct (decide (l = l')) as [<-|Hne].
  - rewrite lookup_insert_eq, E. constructor. repeat split. right. reflexivity.
  - rewrite lookup_insert_ne by exact Hne. apply frame_refl.
Qed.

Ltac keeps_step :=
  first [ apply keeps_ret | apply keeps_draw | apply keeps_try
        | apply keeps_load | apply keeps_set_hide
        | apply keeps_bind; [|intros ?] ].

Lemma keeps_place (tightgap : Q) (idx : Z) (l : loc) (acc : fig_axForms.layout * option string) :
  keeps (fig_axForms.place tightgap idx l acc).
Proof.
  unfold fig_axForms.place. destruct acc as [lay last_yax].
  do 3 keeps_step.
  - case_decide; repeat keeps_step.
  - destruct (hrel _); repeat keeps_step.
Qed.

Lemma keeps_place_all (tightgap : Q) (axforms : list loc) :
  forall idx acc, keeps (fig_axForms.place_all tightgap idx axforms acc).
Proof.
  induction axforms as [|l rest IH]; intros idx acc; simpl.
  - apply keeps_ret.
  - apply keeps_bind; [apply keeps_place|intros acc'; apply IH].
Qed.

Lemma reads_only_for_enumerate {S A} (l : list A) (body : Z -> A -> fx S unit) :
  (forall idx x, reads_only (body idx x)) ->
  forall idx, reads_only (for_enumerate idx l body).
Proof.
  intros Hb. induction l as [|x l IH]; intros idx s; [reflexivity|].
  simpl. unfold mbind, fx_bind.
  specialize (Hb idx x s). destruct (body idx x s) as [s1 [es [[]|e]]]; simpl in Hb; subst.
  - specialize (IH (idx + 1) s).
    destruct (for_enumerate (idx + 1) l body s) as [s2 [es' r]]. exact IH.
  - reflexivity.
Qed.

Lemma reads_only_load_draw {A} (l : loc) (k : axForm -> io A) :
  reads_only (axt ← fig_axForms.load l; draw (k axt)).
Proof.
  intros s. unfold mbind, fx_bind, fig_axForms.load, draw.
  destruct (s !! l); simpl; [destruct (k _)|]; reflexivity.
Qed.

Lemma reads_only_bind {S A B} (m : fx S A) (k : A -> fx S B) :
  reads_only m -> (forall a, reads_only (k a)) -> reads_only (m ≫= k).
Proof.
  intros Hm Hk s. unfold mbind, fx_bind.
  specialize (Hm s). destruct (m s) as [s1 [es [a|e]]]; simpl in Hm; subst; [|reflexivity].
  specialize (Hk a s). destruct (k a s) as [s2 [es' r]]. exact Hk.
Qed.

(** C4 (as stated, refuted): building a figure from a velocity-profile
    format and a tke-profile format, which share the y axis ['z'], sets
    [hide_ylabels] on the second; it was [False] after its [__init__]. *)
Lemma init_sets_hide_ylabels :
  let s : store := {[ 0%nat := velprof_axForm.__init__ (Some 0%Q, Some 2%Q);
                      1%nat := tkeprof_axForm.__init__ (Some 0%Q, None) ]} in
  let r := fig_axForms.__init__ 400 [0%nat; 1%nat] [CStr "u"; CStr "v"; CStr "w"]
             ([0.2; 0.2]%Q, [2; 2]%Q) 0.2 s in
  (hide_ylabels ∘ form_attrs) <$> s !! 1%nat = Some false /\
  (hide_ylabels ∘ form_attrs) <$> fst r !! 1%nat = Some true /\
  fst (snd r) = [FigureSetup 400] /\
  exists fig, snd (snd r) = Ok fig.
Proof.
  split; [reflexivity|]. split; [vm_compute; reflexivity|].
  split; [vm_compute; reflexivity|].
  eexists. vm_compute. reflexivity.
Qed.

(** C4 (amended): constructing a [fig_axForms] changes no format object
    except that it may set [hide_ylabels] to [True]; its class, its methods
    and every other attribute are as they were, and no object appears or
    disappears.  [plot] and [finalize] of the figure leave every format
    object as it is. *)
Theorem formats_change_only_hide_ylabels :
  (forall fignum axforms comp hspacer tightgap (s : store),
     forall l : loc,
       option_Forall2 same_but_hide (s !! l)
         (fst (fig_axForms.__init__ fignum axforms comp hspacer tightgap s) !! l)) /\
  (forall items self obj kwargs (s : store),
     fst (fig_axForms.plot items self obj kwargs s) = s) /\
  (forall self (s : store), fst (fig_axForms.finalize self s) = s).
Proof.
  split; [|split].
  - intros fignum axforms comp hspacer tightgap.
    change (keeps (fig_axForms.__init__ fignum axforms comp hspacer tightgap)).
    unfold fig_axForms.__init__. case_decide; [apply keeps_try|].
    apply keeps_bind; [apply keeps_place_all|].
    intros [lay last_yax]. repeat keeps_step.
  - intros items self obj kwargs.
    apply (reads_only_for_enumerate (S := store)).
    intros idx l. apply reads_only_load_draw.
  - intros self. change (reads_only (fig_axForms.finalize self)).
    apply reads_only_bind.
    + apply reads_only_for_enumerate. intros idx l. apply reads_only_load_draw.
    + intros _ s. reflexivity.
Qed.

(** ** The zero-frequency bin *)

Lemma emits_only_ret {S A} (P : event -> Prop) (a : A) : emits_only (S := S) P (mret a).
Proof. intros s e He. apply elem_of_nil in He. destruct He. Qed.

Lemma emits_only_try {S A} (P : event -> Prop) (r : res A) : emits_only (S := S) P (attempt r).
Proof. intros s e He. apply elem_of_nil in He. destruct He. Qed.


Lemma emits_only_emit {S} (P : event -> Prop) (e : event) :
  P e -> emits_only (S := S) P (draw (emit e)).
Proof.
  intros HP s e' He. apply elem_of_cons in He as [->|He]; [exact HP|].
  apply elem_of_nil in He. destruct He.
Qed.

Lemma emits_only_bind {S A B} (P : event -> Prop) (m : fx S A) (k : A -> fx S B) :
  emits_only P m -> (forall a, emits_only P (k a)) -> emits_only P (m ≫= k).
Proof.
  intros Hm Hk s e. unfold mbind, fx_bind.
  specialize (Hm s). destruct (m s) as [s1 [es [a|err]]]; simpl in *; [|apply Hm].
  specialize (Hk a s1). destruct (k a s1) as [s2 [es' r]]; simpl in *.
  intros He. apply elem_of_app in He as [He|He]; auto.
Qed.

Lemma emits_only_bind_try {S A B} (P : event -> Prop) (r : res A) (k : A -> fx S B) :
  (forall a, r = Ok a -> emits_only P (k a)) -> emits_only P (attempt r ≫= k).
Proof.
  intros Hk s e. unfold mbind, fx_bind, attempt, lift.
  destruct r as [a|err]; simpl.
  - specialize (Hk a eq_refl s). destruct (k a s) as [s2 [es' r]]; simpl in *. apply Hk.
  - intros He. apply elem_of_nil in He. destruct He.
Qed.

Lemma emits_only_for_enumerate {S A} (P : event -> Prop) (l : list A)
    (body : Z -> A -> fx S unit) :
  (forall idx x, emits_only P (body idx x)) ->
  forall idx, emits_only P (for_enumerate idx l body).
Proof.
  intros Hb. induction l as [|x l IH]; intros idx; simpl.
  - apply emits_only_ret.
  - apply emits_only_bind; [apply Hb|intros _; apply IH].
Qed.

Lemma emits_only_igrid (P : event -> Prop) : emits_only P summfig.igrid.
Proof.
  intros s e. unfold summfig.igrid. destruct (summfig._igrid s); simpl;
    intros He; apply elem_of_nil in He; destruct He.
Qed.

Lemma emits_only_icoh (P : event -> Prop) : emits_only P summfig.icoh.
Proof.
  intros s e. unfold summfig.icoh. destruct (summfig._icoh s); simpl;
    intros He; apply elem_of_nil in He; destruct He.
Qed.

Lemma py_div_ok (a b q : spec_float) : py_div a b = Ok q -> q = float.div a b.
Proof. unfold py_div. destruct (float.is_zero b); [discriminate|]. congruence. Qed.

Lemma slice_from_1_lookup {A} (a : list A) (i : nat) : slice_from_1 a !! i = a !! S i.
Proof. unfold slice_from_1. rewrite lookup_drop. reflexivity. Qed.

(** C2 (as stated, refuted): [plot_spectra] hands the estimator's arrays to
    the axes as they are; the frequencies plotted start with bin 0, which
    [psd] drops for the same signal. *)
Lemma plot_spectra_keeps_zero_bin :
  let sr := float.div one (float.of_int 7) in
  let lib := mlab_psd (Mlab := Samples.mlab) [3; 1; 2]%Q 1024 sr detrend_linear 512 in
  py_div one (tsdata.dt Samples.data) = Ok sr /\
  lib = ([3; 1; 2]%Q, [0; 1; 2]%Q) /\
  plot_spectra (H := Samples.mlab) Samples.data (FigNum 1001) 1024 None
    = ([FigureSetup 1001;
        Loglog (0, 0)%nat [0; 1; 2]%Q [3; 1; 2]%Q [] ∅;
        Loglog (1, 0)%nat [0; 1; 2]%Q [1; 2; 3]%Q [] ∅;
        Loglog (2, 0)%nat [0; 1; 2]%Q [2; 3; 1]%Q [] ∅], Ok tt) /\
  psd (H := Samples.mlab) [3; 1; 2]%Q sr 1024 = ([1; 2]%Q, [1; 2]%Q).
Proof. repeat split. Qed.

(** *** Every call made, also by a run that fails *)

Lemma np_point_at {A} (arr : list (list (list A))) (ind : Z) (g : Z * Z)
    (plane : list (list A)) (u : A) :
  np_get arr ind = Ok plane -> np_at plane g = Ok u -> np_point arr ind g = Ok u.
Proof. intros Hp Hu. unfold np_point. rewrite Hp. exact Hu. Qed.

Lemma plot_spectra_loglog `{Mlab} (tsdata : tsdata.t) (fignum : fignum_arg unit)
    (nfft : Z) (igrid : option (Z * Z)) (e : event) :
  e ∈ fst (plot_spectra tsdata fignum nfft igrid) ->
  loglog_whole tsdata nfft (default (tsdata.ihub tsdata) igrid) e.
Proof.
  unfold plot_spectra.
  change (match igrid with Some g0 => g0 | None => tsdata.ihub tsdata end)
    with (default (tsdata.ihub tsdata) igrid).
  apply (emits_only_bind (S := unit)).
  - destruct fignum; [apply emits_only_emit; exact I|apply emits_only_ret].
  - intros _. apply emits_only_for_enumerate. intros ind _.
    apply emits_only_bind_try. intros u Hu.
    apply emits_only_bind_try. intros sr Hsr.
    apply py_div_ok in Hsr. subst sr.
    destruct (mlab_psd _ _ _ _ _) as [p f] eqn:E.
    apply emits_only_bind.
    + apply emits_only_emit. left. exists ind, u. split; [exact Hu|exact E].
    + intros _. destruct (tsdata.tm tsdata) as [tm|] eqn:Etm; [|apply emits_only_ret].
      apply emits_only_bind_try. intros s Hs.
      apply emits_only_emit. right. exists tm, ind.
      split; [exact Etm|]. split; [reflexivity|exact Hs].
Qed.

Lemma emits_inv_ret {S A} (I : S -> Prop) (P : event -> Prop) (a : A) :
  emits_inv I P (mret a).
Proof. intros s Hs. split; [exact Hs|]. intros e He. apply elem_of_nil in He. destruct He. Qed.

Lemma emits_inv_emit {S} (I : S -> Prop) (P : event -> Prop) (e : event) :
  P e -> emits_inv I P (draw (emit e)).
Proof.
  intros HP s Hs. split; [exact Hs|]. intros e' He.
  apply elem_of_cons in He as [->|He]; [exact HP|]. apply elem_of_nil in He. destruct He.
Qed.

Lemma emits_inv_bind {S A B} (I : S -> Prop) (P : event -> Prop) (m : fx S A)
    (k : A -> fx S B) :
  emits_inv I P m -> (forall a, emits_inv I P (k a)) -> emits_inv I P (m ≫= k).
Proof.
  intros Hm Hk s Hs. unfold mbind, fx_bind.
  destruct (Hm s Hs) as [Hs1 He1]. destruct (m s) as [s1 [es [a|err]]]; simpl in *; [|auto].
  destruct (Hk a s1 Hs1) as [Hs2 He2]. destruct (k a s1) as [s2 [es' r]]; simpl in *.
  split; [exact Hs2|]. intros e He. apply elem_of_app in He as [He|He]; auto.
Qed.

Lemma emits_inv_bind_try {S A B} (I : S -> Prop) (P : event -> Prop) (r : res A)
    (k : A -> fx S B) :
  (forall a, r = Ok a -> emits_inv I P (k a)) -> emits_inv I P (attempt r ≫= k).
Proof.
  intros Hk s Hs. unfold mbind, fx_bind, attempt, lift.
  destruct r as [a|err]; simpl.
  - destruct (Hk a eq_refl s Hs) as [Hs2 He2]. destruct (k a s) as [s2 [es' r]]; simpl in *.
    auto.
  - split; [exact Hs|]. intros e He. apply elem_of_nil in He. destruct He.
Qed.

Lemma emits_inv_bind_get {S B} (I : S -> Prop) (P : event -> Prop) (k : S -> fx S B) :
  (forall self, I self -> emits_inv I P (k self)) -> emits_inv I P (get ≫= k).
Proof.
  intros Hk s Hs. unfold mbind, fx_bind, get. simpl.
  destruct (Hk s Hs s Hs) as [Hs2 He2]. destruct (k s s) as [s2 [es' r]]; simpl in *.
  auto.
Qed.

(** A step that draws nothing and returns a value known from the state. *)
Lemma emits_inv_bind_read {S A B} (I : S -> Prop) (P : event -> Prop) (m : fx S A)
    (k : A -> fx S B) (a : A) :
  (forall s, I s -> exists s', m s = (s', ([], Ok a)) /\ I s') ->
  emits_inv I P (k a) -> emits_inv I P (m ≫= k).
Proof.
  intros Hm Hk s Hs. unfold mbind, fx_bind.
  destruct (Hm s Hs) as (s1 & -> & Hs1).
  destruct (Hk s1 Hs1) as [Hs2 He2]. destruct (k a s1) as [s2 [es' r]]; simpl in *.
  auto.
Qed.

Lemma emits_inv_for_enumerate {S A} (I : S -> Prop) (P : event -> Prop) (l : list A)
    (body : Z -> A -> fx S unit) :
  (forall idx x, emits_inv I P (body idx x)) ->
  forall idx, emits_inv I P (for_enumerate idx l body).
Proof.
  intros Hb. induction l as [|x l IH]; intros idx; simpl.
  - apply emits_inv_ret.
  - apply emits_inv_bind; [apply Hb|intros _; apply IH].
Qed.

(** Reading [igrid] gives the pair, stores at most the default, and leaves
    the window length and [icoh] alone; the same for [icoh]. *)
Lemma igrid_reads (n : Z) (g : Z * Z) (I : summfig.t -> Prop) (s : summfig.t) :
  (forall s', I s -> summfig._icoh s' = summfig._icoh s -> I s') ->
  reads_igrid n g s /\ I s ->
  exists s', summfig.igrid s = (s', ([], Ok (VPair (fst g) (snd g)))) /\
             (reads_igrid n g s' /\ I s').
Proof.
  intros HI [[Hn Hg] Hs]. destruct s as [n' ig ic tf rf]. simpl in *.
  destruct ig as [[]|]; simpl in Hg; try discriminate; injection Hg as <-;
    eexists; (split; [reflexivity|]); repeat split; auto.
Qed.

Lemma icoh_reads (n : Z) (g c : Z * Z) (s : summfig.t) :
  reads_igrid n g s /\ reads_icoh c s ->
  exists s', summfig.icoh s = (s', ([], Ok (VPair (fst c) (snd c)))) /\
             (reads_igrid n g s' /\ reads_icoh c s').
Proof.
  intros [[Hn Hg] Hc]. destruct s as [n' ig ic tf rf]. unfold reads_icoh in *. simpl in *.
  destruct ic as [[]|]; simpl in Hc; try discriminate; injection Hc as <-;
    eexists; (split; [reflexivity|]); repeat split; auto.
Qed.

Lemma as_pair_pair (g p : Z * Z) :
  summfig.as_pair (VPair (fst g) (snd g)) = Ok p -> p = g.
Proof. destruct g. simpl. congruence. Qed.

Lemma plot_spec_loglog `{Mlab} (tsdata : tsdata.t) (theory : bool) (args : list pyval)
    (kwargs : gmap string pyval) (n : Z) (g : Z * Z) :
  emits_inv (fun s => reads_igrid n g s /\ True) (loglog_whole tsdata n g)
    (summfig.plot_spec tsdata theory args kwargs).
Proof.
  unfold summfig.plot_spec. apply emits_inv_for_enumerate. intros ind _.
  apply emits_inv_bind_try. intros plane Hp.
  eapply emits_inv_bind_read;
    [intros s0; apply (igrid_reads n g (fun _ => True)); auto|].
  apply emits_inv_bind_try. intros g' Hg. apply as_pair_pair in Hg. subst g'.
  apply emits_inv_bind_try. intros u Hu.
  apply emits_inv_bind_get. intros self [[Hn _] _].
  apply emits_inv_bind_try. intros sr Hsr.
  apply py_div_ok in Hsr. subst sr. rewrite Hn.
  destruct (mlab_psd _ _ _ _ _) as [p f] eqn:E.
  apply emits_inv_bind.
  - apply emits_inv_emit. left. exists ind, u.
    split; [exact (np_point_at _ _ _ _ _ Hp Hu)|exact E].
  - intros _. destruct (tsdata.tm tsdata) as [tm|] eqn:Etm; [|apply emits_inv_ret].
    destruct theory; [|apply emits_inv_ret].
    apply emits_inv_bind_try. intros plane' Hp'.
    eapply emits_inv_bind_read;
    [intros s0; apply (igrid_reads n g (fun _ => True)); auto|].
    apply emits_inv_bind_try. intros g' Hg'. apply as_pair_pair in Hg'. subst g'.
    apply emits_inv_bind_try. intros s Hs.
    apply emits_inv_emit. right. exists tm, ind.
    split; [exact Etm|]. split; [reflexivity|exact (np_point_at _ _ _ _ _ Hp' Hs)].
Qed.

Lemma plot_coh_semilogx `{Mlab} (tsdata : tsdata.t) (args : list pyval)
    (kwargs : gmap string pyval) (n : Z) (g c : Z * Z) :
  emits_inv (fun s => reads_igrid n g s /\ reads_icoh c s) (semilogx_whole tsdata n g c)
    (summfig.plot_coh tsdata args kwargs).
Proof.
  unfold summfig.plot_coh. apply emits_inv_for_enumerate. intros ind _.
  apply emits_inv_bind_try. intros plane Hp.
  eapply emits_inv_bind_read.
  { intros s. apply (igrid_reads n g (reads_icoh c)).
    unfold reads_icoh. intros s' Hc ->. exact Hc. }
  apply emits_inv_bind_try. intros g' Hg. apply as_pair_pair in Hg. subst g'.
  apply emits_inv_bind_try. intros u1 Hu1.
  apply emits_inv_bind_try. intros plane' Hp'.
  eapply emits_inv_bind_read; [intros s; apply icoh_reads|].
  apply emits_inv_bind_try. intros c' Hc. apply as_pair_pair in Hc. subst c'.
  apply emits_inv_bind_try. intros u2 Hu2.
  apply emits_inv_bind_get. intros self [[Hn _] _].
  apply emits_inv_bind_try. intros sr Hsr.
  apply py_div_ok in Hsr. subst sr. rewrite Hn.
  destruct (mlab_cohere _ _ _ _ _ _ _) as [p f] eqn:E.
  apply emits_inv_emit. exists ind, u1, u2.
  split; [exact (np_point_at _ _ _ _ _ Hp Hu1)|].
  split; [exact (np_point_at _ _ _ _ _ Hp' Hu2)|exact E].
Qed.

(** *** The calls of a run that returns *)

Lemma np_point_planes {A} (arr : list (list (list A))) (ind : Z) (g : Z * Z) (u : A) :
  np_point arr ind g = Ok u ->
  exists plane, np_get arr ind = Ok plane /\ np_at plane g = Ok u.
Proof.
  unfold np_point. destruct (np_get arr ind) as [plane|]; [|discriminate].
  intros Hu. exists plane. split; [reflexivity|exact Hu].
Qed.

(** One step of a run: the next lookup or division succeeds as assumed,
    or the next estimator result is named. *)
Ltac run_step :=
  first
    [ match goal with
      | H : ?x = Ok _ |- context [?x] => rewrite H
      end
    | match goal with
      | |- context [mlab_psd ?u ?n ?sr ?d ?o] => destruct (mlab_psd u n sr d o)
      | |- context [mlab_cohere ?u ?v ?n ?sr ?d ?o ?b] =>
          destruct (mlab_cohere u v n sr d o b)
      end ];
  simpl.

Lemma plot_spectra_returns `{Mlab} (tsdata : tsdata.t) (fignum : fignum_arg unit)
    (nfft : Z) (igrid : option (Z * Z)) (sr : spec_float) (u s : Z -> list Q) :
  let g := default (tsdata.ihub tsdata) igrid in
  py_div one (tsdata.dt tsdata) = Ok sr ->
  (forall ind, 0 <= ind < 3 -> np_point (tsdata.uturb tsdata) ind g = Ok (u ind)) ->
  (forall tm ind, tsdata.tm tsdata = Some tm -> 0 <= ind < 3 ->
     np_point (tm.Suu tm) ind g = Ok (s ind)) ->
  plot_spectra tsdata fignum nfft igrid
  = (figure_setup fignum ++
     (ind ← [0; 1; 2];
      psd_call (Z.to_nat ind, 0%nat) (u ind) nfft sr ∅
        :: theory_call (tsdata.tm tsdata) true (Z.to_nat ind, 0%nat) (s ind) [] ∅),
     Ok tt).
Proof.
  intros g Hsr Hu Hs.
  pose proof (Hu 0 ltac:(lia)) as Hu0.
  pose proof (Hu 1 ltac:(lia)) as Hu1.
  pose proof (Hu 2 ltac:(lia)) as Hu2.
  unfold plot_spectra, for_range3, psd_call, theory_call.
  change (match igrid with Some g0 => g0 | None => tsdata.ihub tsdata end) with g.
  destruct (tsdata.tm tsdata) as [tm|] eqn:Etm.
  - pose proof (Hs tm 0 eq_refl ltac:(lia)) as Hs0.
    pose proof (Hs tm 1 eq_refl ltac:(lia)) as Hs1.
    pose proof (Hs tm 2 eq_refl ltac:(lia)) as Hs2.
    destruct fignum; simpl; unfold mbind, fx_bind, attempt, draw, emit, lift; simpl;
      change (0 + 1) with 1; change (1 + 1) with 2;
      repeat run_step; reflexivity.
  - destruct fignum; simpl; unfold mbind, fx_bind, attempt, draw, emit, lift; simpl;
      change (0 + 1) with 1; change (1 + 1) with 2;
      repeat run_step; reflexivity.
Qed.

Lemma plot_spec_returns `{Mlab} (tsdata : tsdata.t) (theory : bool) (args : list pyval)
    (kwargs : gmap string pyval) (self : summfig.t) (g : Z * Z) (sr : spec_float)
    (u s : Z -> list Q) :
  slot_pair (summfig._igrid self) (0, 0) = Some g ->
  py_div one (tsdata.dt tsdata) = Ok sr ->
  (forall ind, 0 <= ind < 3 -> np_point (tsdata.uturb tsdata) ind g = Ok (u ind)) ->
  (forall tm ind, tsdata.tm tsdata = Some tm -> theory = true -> 0 <= ind < 3 ->
     np_point (tm.Suu tm) ind g = Ok (s ind)) ->
  snd (summfig.plot_spec tsdata theory args kwargs self)
  = (ind ← [0; 1; 2];
     psd_call (summfig.ax_spec ind) (u ind) (summfig.nfft self) sr kwargs
       :: theory_call (tsdata.tm tsdata) theory (summfig.ax_spec ind) (s ind)
            [VStr "k--"] {[ "zorder" := VInt 10 ]},
     Ok tt).
Proof.
  intros Hg Hsr Hu Hs.
  destruct (np_point_planes _ _ _ _ (Hu 0 ltac:(lia))) as (p0 & Hp0 & Hu0).
  destruct (np_point_planes _ _ _ _ (Hu 1 ltac:(lia))) as (p1 & Hp1 & Hu1).
  destruct (np_point_planes _ _ _ _ (Hu 2 ltac:(lia))) as (p2 & Hp2 & Hu2).
  assert (Hth : forall tm ind, tsdata.tm tsdata = Some tm -> theory = true ->
            0 <= ind < 3 ->
            exists plane, np_get (tm.Suu tm) ind = Ok plane /\ np_at plane g = Ok (s ind)).
  { intros tm ind Htm Ht Hi. apply np_point_planes, (Hs tm ind Htm Ht Hi). }
  unfold summfig.plot_spec, for_range3, psd_call, theory_call.
  destruct self as [n ig ic tf rf]. simpl in Hg |- *.
  destruct (tsdata.tm tsdata) as [tm|] eqn:Etm; [destruct theory|].
  - destruct (Hth tm 0 eq_refl eq_refl ltac:(lia)) as (q0 & Hq0 & Hs0).
    destruct (Hth tm 1 eq_refl eq_refl ltac:(lia)) as (q1 & Hq1 & Hs1).
    destruct (Hth tm 2 eq_refl eq_refl ltac:(lia)) as (q2 & Hq2 & Hs2).
    destruct ig as [[]|]; simpl in Hg; try discriminate; injection Hg as <-;
      unfold mbind, fx_bind, attempt, draw, emit, lift, get, summfig.igrid; simpl;
      change (0 + 1) with 1; change (1 + 1) with 2;
      repeat run_step; reflexivity.
  - destruct ig as [[]|]; simpl in Hg; try discriminate; injection Hg as <-;
      unfold mbind, fx_bind, attempt, draw, emit, lift, get, summfig.igrid; simpl;
      change (0 + 1) with 1; change (1 + 1) with 2;
      repeat run_step; reflexivity.
  - destruct ig as [[]|]; simpl in Hg; try discriminate; injection Hg as <-;
      unfold mbind, fx_bind, attempt, draw, emit, lift, get, summfig.igrid; simpl;
      change (0 + 1) with 1; change (1 + 1) with 2;
      repeat run_step; reflexivity.
Qed.

Lemma plot_coh_returns `{Mlab} (tsdata : tsdata.t) (args : list pyval)
    (kwargs : gmap string pyval) (self : summfig.t) (g c : Z * Z) (sr : spec_float)
    (u1 u2 : Z -> list Q) :
  slot_pair (summfig._igrid self) (0, 0) = Some g ->
  slot_pair (summfig._icoh self) (-1, -1) = Some c ->
  py_div one (tsdata.dt tsdata) = Ok sr ->
  (forall ind, 0 <= ind < 3 -> np_point (tsdata.uturb tsdata) ind g = Ok (u1 ind)) ->
  (forall ind, 0 <= ind < 3 -> np_point (tsdata.uturb tsdata) ind c = Ok (u2 ind)) ->
  snd (summfig.plot_coh tsdata args kwargs self)
  = (ind ← [0; 1; 2];
     [cohere_call (summfig.ax_cohr ind) (u1 ind) (u2 ind) (summfig.nfft self) sr
        args kwargs],
     Ok tt).
Proof.
  intros Hg Hc Hsr Hu1 Hu2.
  destruct (np_point_planes _ _ _ _ (Hu1 0 ltac:(lia))) as (p0 & Hp0 & Ha0).
  destruct (np_point_planes _ _ _ _ (Hu1 1 ltac:(lia))) as (p1 & Hp1 & Ha1).
  destruct (np_point_planes _ _ _ _ (Hu1 2 ltac:(lia))) as (p2 & Hp2 & Ha2).
  pose proof (Hu2 0 ltac:(lia)) as Hb0. unfold np_point in Hb0. rewrite Hp0 in Hb0.
  pose proof (Hu2 1 ltac:(lia)) as Hb1. unfold np_point in Hb1. rewrite Hp1 in Hb1.
  pose proof (Hu2 2 ltac:(lia)) as Hb2. unfold np_point in Hb2. rewrite Hp2 in Hb2.
  simpl in Hb0, Hb1, Hb2.
  change (np_at p0 c = Ok (u2 0)) in Hb0.
  change (np_at p1 c = Ok (u2 1)) in Hb1.
  change (np_at p2 c = Ok (u2 2)) in Hb2.
  unfold summfig.plot_coh, for_range3, cohere_call.
  destruct self as [n ig ic tf rf]. simpl in Hg, Hc |- *.
  destruct ig as [[]|]; simpl in Hg; try discriminate; injection Hg as <-;
    destruct ic as [[]|]; simpl in Hc; try discriminate; injection Hc as <-;
    unfold mbind, fx_bind, attempt, draw, emit, lift, get, summfig.igrid, summfig.icoh;
    simpl; change (0 + 1) with 1; change (1 + 1) with 2;
    repeat run_step; reflexivity.
Qed.

(** C2 (amended): [psd] and [coh] return the frequency array and the power
    or coherence array of the library routine without their index 0.  The
    paths that call the library routines themselves, [plot_spectra],
    [summfig.plot_spec] and [summfig.plot_coh], plot the two arrays the
    routine returned, whole: a call that returns has made exactly one such
    plotting call per component, for the time series at the grid point,
    the window length and the sample rate [1./dt] of the call (and the
    calls for the theoretical spectrum), and every plotting call of a run
    that fails is of that kind.  For a [summfig] the grid points are the
    pairs its [igrid] and [icoh] read as. *)
Theorem zero_bin_dropped_by_helpers `{Mlab} :
  (forall u sr nfft,
     let lib := mlab_psd u nfft sr detrend_linear (nfft / 2) in
     psd u sr nfft = (slice_from_1 (snd lib), slice_from_1 (fst lib))) /\
  (forall u1 u2 sr nfft,
     let lib := mlab_cohere u1 u2 nfft sr detrend_linear (nfft / 2) false in
     coh u1 u2 sr nfft = (slice_from_1 (snd lib), slice_from_1 (fst lib))) /\
  (forall (a : list Q) (i : nat), slice_from_1 a !! i = a !! S i) /\
  (forall tsdata fignum nfft igrid sr (u s : Z -> list Q),
     let g := default (tsdata.ihub tsdata) igrid in
     py_div one (tsdata.dt tsdata) = Ok sr ->
     (forall ind, 0 <= ind < 3 -> np_point (tsdata.uturb tsdata) ind g = Ok (u ind)) ->
     (forall tm ind, tsdata.tm tsdata = Some tm -> 0 <= ind < 3 ->
        np_point (tm.Suu tm) ind g = Ok (s ind)) ->
     plot_spectra tsdata fignum nfft igrid
     = (figure_setup fignum ++
        (ind ← [0; 1; 2];
         psd_call (Z.to_nat ind, 0%nat) (u ind) nfft sr ∅
           :: theory_call (tsdata.tm tsdata) true (Z.to_nat ind, 0%nat) (s ind) [] ∅),
        Ok tt)) /\
  (forall tsdata theory args kwargs self g sr (u s : Z -> list Q),
     slot_pair (summfig._igrid self) (0, 0) = Some g ->
     py_div one (tsdata.dt tsdata) = Ok sr ->
     (forall ind, 0 <= ind < 3 -> np_point (tsdata.uturb tsdata) ind g = Ok (u ind)) ->
     (forall tm ind, tsdata.tm tsdata = Some tm -> theory = true -> 0 <= ind < 3 ->
        np_point (tm.Suu tm) ind g = Ok (s ind)) ->
     snd (summfig.plot_spec tsdata theory args kwargs self)
     = (ind ← [0; 1; 2];
        psd_call (summfig.ax_spec ind) (u ind) (summfig.nfft self) sr kwargs
          :: theory_call (tsdata.tm tsdata) theory (summfig.ax_spec ind) (s ind)
               [VStr "k--"] {[ "zorder" := VInt 10 ]},
        Ok tt)) /\
  (forall tsdata args kwargs self g c sr (u1 u2 : Z -> list Q),
     slot_pair (summfig._igrid self) (0, 0) = Some g ->
     slot_pair (summfig._icoh self) (-1, -1) = Some c ->
     py_div one (tsdata.dt tsdata) = Ok sr ->
     (forall ind, 0 <= ind < 3 -> np_point (tsdata.uturb tsdata) ind g = Ok (u1 ind)) ->
     (forall ind, 0 <= ind < 3 -> np_point (tsdata.uturb tsdata) ind c = Ok (u2 ind)) ->
     snd (summfig.plot_coh tsdata args kwargs self)
     = (ind ← [0; 1; 2];
        [cohere_call (summfig.ax_cohr ind) (u1 ind) (u2 ind) (summfig.nfft self) sr
           args kwargs],
        Ok tt)) /\
  (forall tsdata fignum nfft igrid e,
     e ∈ fst (plot_spectra tsdata fignum nfft igrid) ->
     loglog_whole tsdata nfft (default (tsdata.ihub tsdata) igrid) e) /\
  (forall tsdata theory args kwargs self g e,
     slot_pair (summfig._igrid self) (0, 0) = Some g ->
     e ∈ fst (snd (summfig.plot_spec tsdata theory args kwargs self)) ->
     loglog_whole tsdata (summfig.nfft self) g e) /\
  (forall tsdata args kwargs self g c e,
     slot_pair (summfig._igrid self) (0, 0) = Some g ->
     slot_pair (summfig._icoh self) (-1, -1) = Some c ->
     e ∈ fst (snd (summfig.plot_coh tsdata args kwargs self)) ->
     semilogx_whole tsdata (summfig.nfft self) g c e).
Proof.
  split; [|split; [|split; [|split; [|split; [|split; [|split; [|split]]]]]]].
  - intros u sr nfft. unfold psd. destruct (mlab_psd _ _ _ _ _). reflexivity.
  - intros u1 u2 sr nfft. unfold coh. destruct (mlab_cohere _ _ _ _ _ _ _). reflexivity.
  - intros a i. apply slice_from_1_lookup.
  - intros tsdata fignum nfft igrid sr u s. apply plot_spectra_returns.
  - intros tsdata theory args kwargs self g sr u s. apply plot_spec_returns.
  - intros tsdata args kwargs self g c sr u1 u2. apply plot_coh_returns.
  - intros tsdata fignum nfft igrid e He.
    exact (plot_spectra_loglog _ _ _ _ _ He).
  - intros tsdata theory args kwargs self g e Hg He.
    exact (proj2 (plot_spec_loglog tsdata theory args kwargs _ g self
                    (conj (conj eq_refl Hg) I)) e He).
  - intros tsdata args kwargs self g c e Hg Hc He.
    exact (proj2 (plot_coh_semilogx tsdata args kwargs _ g c self
                    (conj (conj eq_refl Hg) Hc)) e He).
Qed.

Lemma zero_bin_dropped_by_helpers_witness :
  plot_spectra (H := Samples.mlab) Samples.data (FigNum 1001) 1024 None
  = ([FigureSetup 1001;
      Loglog (0, 0)%nat [0; 1; 2]%Q [3; 1; 2]%Q [] ∅;
      Loglog (1, 0)%nat [0; 1; 2]%Q [1; 2; 3]%Q [] ∅;
      Loglog (2, 0)%nat [0; 1; 2]%Q [2; 3; 1]%Q [] ∅], Ok tt).
Proof.
  destruct (@zero_bin_dropped_by_helpers Samples.mlab) as (_ & _ & _ & Hs & _).
  refine (Hs Samples.data (FigNum 1001) 1024 None _ Samples.series (fun _ => [])
            eq_refl _ _).
  - intros ind Hi.
    assert (Hc : ind = 0 \/ ind = 1 \/ ind = 2) by lia.
    destruct Hc as [->|[->| ->]]; reflexivity.
  - intros tm ind Htm. discriminate Htm.
Defined.

(** ** [showts] and the argument order of [setinds] *)

(** C9 (as stated, refuted): with [igrid] left as [None] but [icoh] given,
    [setinds] raises nothing; it stores the [icoh] argument as the grid
    index and the data object as the coherence index, and the profiles are
    plotted. *)
Lemma showts_with_icoh_plots :
  showts Samples.data (FigNum 2001) 1024 VNone (VPair 0 0) ∅
  = (summfig.mk 1024 (Some (VPair 0 0)) (Some (VTsdata Samples.data)) None None,
     ([FigureSetup 2001;
       Plot (0, 0)%nat (Arr [5%Q]) (Arr [10%Q]) [] ∅;
       Plot (1, 0)%nat (Arr [5%Q]) (Arr [10%Q]) [] ∅;
       Plot (2, 0)%nat (Arr [5%Q]) (Arr [10%Q]) [] ∅], Ok tt)).
Proof. reflexivity. Qed.

(** C9 (amended): when [fignum] is not a [summfig] and both [igrid] and
    [icoh] are left as [None], [showts] fails in [setinds] with an attribute
    error for [ihub], after the figure is set up and before anything is
    plotted: [setinds] receives the [igrid] argument as its [tsdata], the
    [icoh] argument as its [igrid] and the data object as its [icoh].  The
    same happens when [igrid] is a pair.  When [icoh] is a pair, [setinds]
    raises nothing. *)
Theorem showts_defaults_fail (tsdata : tsdata.t) (n nfft : Z)
    (kwargs : gmap string pyval) :
  showts tsdata (FigNum n) nfft VNone VNone kwargs
    = (summfig.mk 1024 None None None None,
       ([FigureSetup n], Raise (AttributeError "ihub"))) /\
  (forall a b,
     showts tsdata (FigNum n) nfft (VPair a b) VNone kwargs
       = (summfig.mk 1024 None None None None,
          ([FigureSetup n], Raise (AttributeError "ihub")))) /\
  (forall a b fg,
     summfig.setinds VNone (VPair a b) (VTsdata tsdata) fg
       = (summfig.mk (summfig.nfft fg) (Some (VPair a b)) (Some (VTsdata tsdata))
            (summfig.tke_factor fg) (summfig.rs_factor fg),
          ([], Ok tt))).
Proof. repeat split. Qed.

(** * Further properties *)

(** ** Plotting one column *)

Lemma for_each_fail {A} (pre post : list A) (a : A) (body : A -> io unit)
    (evs : A -> list event) (ea : list event) (e : exn) :
  (forall x, x ∈ pre -> body x = (evs x, Ok tt)) ->
  body a = (ea, Raise e) ->
  for_each (pre ++ a :: post) body = ((pre ≫= evs) ++ ea, Raise e).
Proof.
  intros Hpre Ha. induction pre as [|b pre IH]; simpl.
  - rewrite Ha. reflexivity.
  - rewrite (Hpre b) by (apply elem_of_cons; left; reflexivity).
    unfold mbind at 1, io_bind.
    rewrite IH by (intros x Hx; apply Hpre, elem_of_cons; right; exact Hx).
    rewrite <- app_assoc. reflexivity.
Qed.

Lemma plot_body_ok (items : list (class * string)) (self : axForm) (obj : pyobj)
    (kwargs : gmap string pyval) (a : ax) (c : xy) :
  base_axForm._calc items self obj (ax_comp a) = Ok c ->
  ('(x, y) ← lift (base_axForm._calc items self obj (ax_comp a));
   _ ← emit (Plot (ax_pos a) (base_axForm.scale_x x (_lin_x_scale (form_attrs self))) y [] kwargs);
   _ ← emit (SetXscale (ax_pos a) (_xscale (form_attrs self)));
   emit (SetYscale (ax_pos a) (_yscale (form_attrs self))))
  = (plot_calls self kwargs a c, Ok tt).
Proof. intros ->. destruct c as [x y]. reflexivity. Qed.

Lemma plot_body_fail (items : list (class * string)) (self : axForm) (obj : pyobj)
    (kwargs : gmap string pyval) (a : ax) (e : exn) :
  base_axForm._calc items self obj (ax_comp a) = Raise e ->
  ('(x, y) ← lift (base_axForm._calc items self obj (ax_comp a));
   _ ← emit (Plot (ax_pos a) (base_axForm.scale_x x (_lin_x_scale (form_attrs self))) y [] kwargs);
   _ ← emit (SetXscale (ax_pos a) (_xscale (form_attrs self)));
   emit (SetYscale (ax_pos a) (_yscale (form_attrs self))))
  = ([], Raise e).
Proof. intros ->. reflexivity. Qed.

(** X1: when [_calc] returns a curve for the component of every axes of
    the group, [base_axForm.plot] raises nothing and makes, axes after axes,
    the three calls [plot], [set_xscale], [set_yscale]. *)
Theorem plot_draws_every_axes (items : list (class * string)) (self : axForm)
    (obj : pyobj) (axes : list ax) (kwargs : gmap string pyval) (curve : ax -> xy) :
  (forall a, a ∈ axes -> base_axForm._calc items self obj (ax_comp a) = Ok (curve a)) ->
  base_axForm.plot items self obj axes kwargs
    = (axes ≫= (fun a => plot_calls self kwargs a (curve a)), Ok tt).
Proof.
  intros Hc. unfold base_axForm.plot. apply for_each_ok.
  intros a Ha. apply plot_body_ok, Hc, Ha.
Qed.

Lemma plot_first_failure (items : list (class * string)) (self : axForm)
    (obj : pyobj) (pre post : list ax) (a : ax) (kwargs : gmap string pyval)
    (curve : ax -> xy) (e : exn) :
  (forall b, b ∈ pre -> base_axForm._calc items self obj (ax_comp b) = Ok (curve b)) ->
  base_axForm._calc items self obj (ax_comp a) = Raise e ->
  base_axForm.plot items self obj (pre ++ a :: post) kwargs
    = (pre ≫= (fun b => plot_calls self kwargs b (curve b)), Raise e).
Proof.
  intros Hpre Ha. unfold base_axForm.plot.
  rewrite (for_each_fail pre post a _ (fun b => plot_calls self kwargs b (curve b)) [] e).
  - rewrite app_nil_r. reflexivity.
  - intros b Hb. apply plot_body_ok, Hpre, Hb.
  - apply plot_body_fail, Ha.
Qed.

(** X2: [base_axForm.plot] stops at the first axes for whose component
    [_calc] raises, with that exception; the axes before it have been drawn
    and stay drawn, the axes after it are not touched. *)
Theorem plot_stops_at_first_failure (items : list (class * string)) (self : axForm)
    (obj : pyobj) (pre post : list ax) (a : ax) (kwargs : gmap string pyval)
    (curve : ax -> xy) (e : exn) :
  (forall b, b ∈ pre -> base_axForm._calc items self obj (ax_comp b) = Ok (curve b)) ->
  base_axForm._calc items self obj (ax_comp a) = Raise e ->
  base_axForm.plot items self obj (pre ++ a :: post) kwargs
    = (pre ≫= (fun b => plot_calls self kwargs b (curve b)), Raise e).
Proof. apply plot_first_failure. Qed.

Lemma plot_draws_every_axes_witness :
  base_axForm.plot method_map (velprof_axForm.__init__ (Some 0%Q, Some 2%Q))
    Samples.obj_data (fig_axForms.column [CStr "u"; CInt 1] 0) ∅
  = ([Plot (0, 0)%nat (Arr [5%Q]) (Arr [10%Q]) [] ∅;
      SetXscale (0, 0)%nat "linear"; SetYscale (0, 0)%nat "linear";
      Plot (1, 0)%nat (Arr [5%Q]) (Arr [10%Q]) [] ∅;
      SetXscale (1, 0)%nat "linear"; SetYscale (1, 0)%nat "linear"], Ok tt).
Proof.
  refine (plot_draws_every_axes method_map (velprof_axForm.__init__ (Some 0%Q, Some 2%Q))
            Samples.obj_data (fig_axForms.column [CStr "u"; CInt 1] 0) ∅
            (fun _ => (Arr [5%Q], Arr [10%Q])) _).
  intros a Ha.
  apply elem_of_cons in Ha as [->|Ha]; [reflexivity|].
  apply elem_of_cons in Ha as [->|Ha]; [reflexivity|].
  apply elem_of_nil in Ha. destruct Ha.
Defined.

Lemma plot_stops_at_first_failure_witness :
  base_axForm.plot method_map (velprof_axForm.__init__ (Some 0%Q, Some 2%Q))
    Samples.obj_data (fig_axForms.column [CStr "u"; CStr "x"; CStr "w"] 0) ∅
  = ([Plot (0, 0)%nat (Arr [5%Q]) (Arr [10%Q]) [] ∅;
      SetXscale (0, 0)%nat "linear"; SetYscale (0, 0)%nat "linear"],
     Raise (KeyError (CStr "x"))).
Proof.
  refine (plot_stops_at_first_failure method_map
            (velprof_axForm.__init__ (Some 0%Q, Some 2%Q)) Samples.obj_data
            [mk_ax (0, 0)%nat (CStr "u")] [mk_ax (2, 0)%nat (CStr "w")]
            (mk_ax (1, 0)%nat (CStr "x")) ∅
            (fun _ => (Arr [5%Q], Arr [10%Q])) (KeyError (CStr "x")) _ eq_refl).
  intros b Hb.
  apply elem_of_cons in Hb as [->|Hb]; [reflexivity|].
  apply elem_of_nil in Hb. destruct Hb.
Defined.

Lemma calc_unsupported_raises (items : list (class * string)) (self : axForm)
    (obj : pyobj) (comp : component) :
  items ≡ₚ method_map -> ~ supported obj ->
  exists e, base_axForm._calc items self obj comp = Raise e.
Proof.
  intros Hp Hn. destruct (index_of comp) as [i|] eqn:Hi.
  - rewrite (calc_index _ _ _ _ _ Hi), (dispatch_unsupported _ _ _ _ Hp Hn). eauto.
  - destruct comp as [s|n]; [|discriminate Hi].
    rewrite (calc_bad_key _ _ _ _ Hi). eauto.
Qed.

(** X3: for an object of an unsupported class, [base_axForm.plot] makes no
    call on any axes; it raises unless the group is empty. *)
Theorem plot_unsupported_draws_nothing (items : list (class * string)) (self : axForm)
    (obj : pyobj) (axes : list ax) (kwargs : gmap string pyval) :
  items ≡ₚ method_map ->
  ~ supported obj ->
  fst (base_axForm.plot items self obj axes kwargs) = [] /\
  (snd (base_axForm.plot items self obj axes kwargs) = Ok tt <-> axes = []).
Proof.
  intros Hp Hn. destruct axes as [|a axes].
  - split; [reflexivity|]. split; reflexivity.
  - destruct (calc_unsupported_raises items self obj (ax_comp a) Hp Hn) as [e He].
    change (a :: axes) with ([] ++ a :: axes).
    rewrite (plot_first_failure items self obj [] axes a kwargs
               (fun _ => (NaN, NaN)) e); [|intros b Hb; apply elem_of_nil in Hb; destruct Hb|exact He].
    split; [reflexivity|]. split; discriminate.
Qed.

Lemma plot_unsupported_draws_nothing_witness :
  let r := base_axForm.plot method_map (velprof_axForm.__init__ (Some 0%Q, Some 2%Q))
             Samples.obj_other (fig_axForms.column [CStr "u"; CStr "v"] 0) ∅ in
  fst r = [] /\ snd r <> Ok tt.
Proof.
  assert (Hn : ~ supported Samples.obj_other).
  { intros (cls & Hc & Hm). revert Hm.
    apply elem_of_cons in Hc as [->|Hc]; [apply (bool_decide_unpack (_ ∉ _)); reflexivity|].
    apply elem_of_cons in Hc as [->|Hc]; [apply (bool_decide_unpack (_ ∉ _)); reflexivity|].
    apply elem_of_nil in Hc. destruct Hc. }
  destruct (plot_unsupported_draws_nothing method_map
              (velprof_axForm.__init__ (Some 0%Q, Some 2%Q)) Samples.obj_other
              (fig_axForms.column [CStr "u"; CStr "v"] 0) ∅
              (reflexivity _) Hn) as [He Hiff].
  split; [exact He|]. intros Hok. apply Hiff in Hok. discriminate Hok.
Defined.

(** ** Where the NaN pair comes from *)

Lemma res_bind_ok {A B} (m : res A) (k : A -> res B) (b : B) :
  m ≫= k = Ok b -> exists a, m = Ok a /\ k a = Ok b.
Proof. destruct m as [a|e]; [eauto|discriminate]. Qed.

Ltac invert_ok H :=
  repeat match type of H with
         | _ ≫= _ = Ok _ =>
             let a := fresh "a" in
             let Ha := fresh "Ha" in
             apply res_bind_ok in H as (a & Ha & H)
         end.

Lemma concrete_method_arrays `{Mlab} (methods : gmap string method) (meth : string)
    (m : method) (self : attrs) (obj : pyobj) (i : Z) (x y : plotval) :
  methods ∈ concrete_methods ->
  meth = "_calc_tsdata" \/ meth = "_calc_tsrun" ->
  methods !! meth = Some m ->
  m self obj i = Ok (x, y) ->
  exists a b, x = Arr a /\ y = Arr b.
Proof.
  intros Hin Hmeth Hm Hr. unfold concrete_methods in Hin.
  repeat (apply elem_of_cons in Hin as [->|Hin]);
    [..|apply elem_of_nil in Hin; destruct Hin].
  all: destruct Hmeth as [-> | ->].
  all: unfold velprof_axForm.methods, tkeprof_axForm.methods, stressprof_axForm.methods,
         spec_axForm.methods, cohere_axForm.methods in Hm.
  all: first [ rewrite lookup_insert_eq in Hm
             | rewrite lookup_insert_ne in Hm by discriminate;
               rewrite lookup_singleton_eq in Hm ].
  all: injection Hm as <-.
  all: unfold on_tsdata, on_tsrun in Hr; invert_ok Hr.
  all: unfold velprof_axForm._calc_tsdata, velprof_axForm._calc_tsrun,
         tkeprof_axForm._calc_tsdata, tkeprof_axForm._calc_tsrun,
         stressprof_axForm._calc_tsdata, stressprof_axForm._calc_tsrun,
         spec_axForm._calc_tsdata, spec_axForm._calc_tsrun,
         cohere_axForm._calc_tsdata, cohere_axForm._calc_tsrun in Hr.
  all: cbv zeta in Hr; invert_ok Hr; unfold arrays in Hr; injection Hr as <- <-; eauto.
Qed.

Lemma concrete_has_method `{Mlab} (methods : gmap string method) (meth : string) :
  methods ∈ concrete_methods ->
  meth = "_calc_tsdata" \/ meth = "_calc_tsrun" ->
  is_Some (methods !! meth).
Proof.
  intros Hin Hmeth. unfold concrete_methods in Hin.
  repeat (apply elem_of_cons in Hin as [->|Hin]);
    [..|apply elem_of_nil in Hin; destruct Hin].
  all: destruct Hmeth as [-> | ->].
  all: unfold velprof_axForm.methods, tkeprof_axForm.methods, stressprof_axForm.methods,
         spec_axForm.methods, cohere_axForm.methods.
  all: first [ rewrite lookup_insert_eq
             | rewrite lookup_insert_ne by discriminate; rewrite lookup_singleton_eq ].
  all: eauto.
Qed.

Lemma method_map_names (cls : class) (meth : string) :
  (cls, meth) ∈ method_map -> meth = "_calc_tsdata" \/ meth = "_calc_tsrun".
Proof.
  intros Hin. unfold method_map in Hin.
  apply elem_of_cons in Hin as [Hin|Hin]; [injection Hin as -> ->; auto|].
  apply elem_of_cons in Hin as [Hin|Hin]; [injection Hin as -> ->; auto|].
  apply elem_of_nil in Hin. destruct Hin.
Qed.

(** X5: a format of one of the five classes that define both methods
    (velocity, tke and stress profile, spectrum, coherence) never returns
    [NaN] from [_calc]: a result is a pair of arrays. *)
Theorem concrete_formats_return_arrays `{Mlab} (items : list (class * string))
    (self : axForm) (obj : pyobj) (comp : component) (x y : plotval) :
  items ≡ₚ method_map ->
  form_methods self ∈ concrete_methods ->
  base_axForm._calc items self obj comp = Ok (x, y) ->
  exists a b, x = Arr a /\ y = Arr b.
Proof.
  intros Hp Hin Hr.
  destruct (index_of comp) as [i|] eqn:Hi.
  - rewrite (calc_index _ _ _ _ _ Hi) in Hr.
    assert (Hs : supported obj).
    { apply supported_iff.
      destruct (decide (cls_tsdata ∈ mro obj)) as [|Hd]; [auto|].
      destruct (decide (cls_tsrun ∈ mro obj)) as [|Hr']; [auto|].
      rewrite dispatch_unsupported in Hr; [discriminate Hr|exact Hp|].
      rewrite supported_iff. intros [?|?]; contradiction. }
    destruct (dispatch_supported items self obj i Hp Hs) as (cls & meth & Hm & _ & Hd).
    rewrite Hd in Hr. unfold call_or_nan in Hr.
    apply method_map_names in Hm.
    destruct (concrete_has_method _ meth Hin Hm) as [m' Hl'].
    match type of Hr with
    | match ?t with _ => _ end = _ => destruct t as [m|] eqn:Hl
    end.
    + exact (concrete_method_arrays _ meth m _ _ _ _ _ Hin Hm Hl Hr).
    + discriminate (eq_trans (eq_sym Hl) Hl').
  - destruct comp as [s|n]; [|discriminate Hi].
    rewrite (calc_bad_key _ _ _ _ Hi) in Hr. discriminate Hr.
Qed.

Lemma concrete_formats_return_arrays_witness :
  exists a b, Arr [5%Q] = Arr a /\ Arr [10%Q] = Arr b.
Proof.
  refine (concrete_formats_return_arrays (H := Samples.mlab) method_map
            (velprof_axForm.__init__ (Some 0%Q, Some 2%Q)) Samples.obj_data (CStr "u")
            (Arr [5%Q]) (Arr [10%Q]) (reflexivity _) _ eq_refl).
  apply elem_of_cons. left. reflexivity.
Defined.

(** ** Building a figure from formats *)

Lemma fx_bind_ok {S A B} (m : fx S A) (k : A -> fx S B) (s s' : S)
    (es : list event) (b : B) :
  (m ≫= k) s = (s', (es, Ok b)) ->
  exists s1 es1 a es2,
    m s = (s1, (es1, Ok a)) /\ k a s1 = (s', (es2, Ok b)) /\ es = es1 ++ es2.
Proof.
  unfold mbind, fx_bind. destruct (m s) as [s1 [es1 [a|e]]]; [|discriminate].
  destruct (k a s1) as [s2 [es2 r]] eqn:Ek. intros Heq.
  injection Heq as Hs He Hr. subst. eauto 10.
Qed.

Lemma fx_bind_raise {S A B} (m : fx S A) (k : A -> fx S B) (s s1 : S)
    (es : list event) (e : exn) :
  m s = (s1, (es, Raise e)) -> (m ≫= k) s = (s1, (es, Raise e)).
Proof. intros Hm. unfold mbind, fx_bind. rewrite Hm. reflexivity. Qed.

Lemma fx_bind_step {S A B} (m : fx S A) (k : A -> fx S B) (s s1 : S)
    (es : list event) (a : A) :
  m s = (s1, (es, Ok a)) ->
  (m ≫= k) s = (fst (k a s1), (es ++ fst (snd (k a s1)), snd (snd (k a s1)))).
Proof.
  intros Hm. unfold mbind, fx_bind. rewrite Hm.
  destruct (k a s1) as [s2 [es2 r]]. reflexivity.
Qed.

Lemma same_but_hide_yax (f g : axForm) :
  same_but_hide f g -> yax (form_attrs g) = yax (form_attrs f).
Proof. intros (_ & _ & [-> | ->]); reflexivity. Qed.

Lemma same_but_hide_mono (f g : axForm) :
  same_but_hide f g -> hide_ylabels (form_attrs f) = true ->
  hide_ylabels (form_attrs g) = true.
Proof. intros (_ & _ & [-> | ->]) Hh; [exact Hh|reflexivity]. Qed.

Lemma frame_yax_at (s s' : store) (l : loc) : frame s s' -> yax_at s' l = yax_at s l.
Proof.
  intros Hf. unfold yax_at. specialize (Hf l).
  destruct Hf as [f g Hfg|]; [apply same_but_hide_yax, Hfg|reflexivity].
Qed.

Lemma frame_hidden (s s' : store) (l : loc) : frame s s' -> hidden s l -> hidden s' l.
Proof.
  intros Hf (f & Hl & Hh). specialize (Hf l). rewrite Hl in Hf.
  inversion Hf as [f' g Hfg Hf1 Hg|]; subst.
  exists g. split; [symmetry; assumption|]. eapply same_but_hide_mono; eassumption.
Qed.

Lemma frame_follows (s s' : store) (axforms : list loc) (l : loc) :
  frame s s' -> follows_same_yax s axforms l <-> follows_same_yax s' axforms l.
Proof.
  intros Hf. unfold follows_same_yax.
  split; intros (idx & lp & y & H1 & H2 & H3 & H4); exists idx, lp, y;
    rewrite ?(frame_yax_at _ _ _ Hf) in *; auto.
Qed.

Lemma place_state (tightgap : Q) (idx : Z) (l : loc) (lay : fig_axForms.layout)
    (last : option string) (s : store) :
  fst (fig_axForms.place tightgap idx l (lay, last) s) = s \/
  exists f y,
    s !! l = Some f /\ yax (form_attrs f) = Some y /\ last = Some y /\
    fst (fig_axForms.place tightgap idx l (lay, last) s)
      = <[l := mk_axForm (form_class f) (set_hide_ylabels true (form_attrs f))
                 (form_methods f)]> s.
Proof.
  unfold fig_axForms.place, fig_axForms.load, fig_axForms.set_hide, attempt, lift,
    mbind, fx_bind, mret, fx_ret, io_ret.
  destruct (s !! l) as [f|] eqn:El; simpl; [|left; reflexivity].
  destruct (yax (form_attrs f)) as [y|] eqn:Ey; simpl; [|left; reflexivity].
  case_decide as Hd; simpl.
  - destruct (np_get (fig_axForms.sharey lay) (idx - 1)) as [prev|]; simpl; [|left; reflexivity].
    destruct (np_set (fig_axForms.sharey lay) idx prev) as [sy|]; simpl; [|left; reflexivity].
    destruct (np_set (fig_axForms.hspacer_gap lay) idx tightgap) as [gp|]; simpl;
      [|left; reflexivity].
    rewrite El. simpl. right. exists f, y.
    split; [reflexivity|]. split; [exact Ey|]. split; [congruence|].
    destruct (hrel (form_attrs f)) as [h|]; simpl; [|reflexivity].
    destruct (np_get _ idx) as [cur|]; simpl; [|reflexivity].
    destruct (np_set _ idx _) as [sz|]; reflexivity.
  - left. destruct (hrel (form_attrs f)) as [h|]; simpl; [|reflexivity].
    destruct (np_get _ idx) as [cur|]; simpl; [|reflexivity].
    destruct (np_set _ idx _) as [sz|]; reflexivity.
Qed.

Lemma place_ok (tightgap : Q) (idx : Z) (l : loc) (lay lay1 : fig_axForms.layout)
    (last last1 : option string) (s s1 : store) (es : list event) :
  fig_axForms.place tightgap idx l (lay, last) s = (s1, (es, Ok (lay1, last1))) ->
  exists y,
    yax_at s l = Some y /\ last1 = Some y /\ es = [] /\
    (last = Some y -> hidden s1 l).
Proof.
  unfold yax_at, fig_axForms.place, fig_axForms.load, fig_axForms.set_hide, attempt, lift,
    mbind, fx_bind, mret, fx_ret, io_ret.
  destruct (s !! l) as [f|] eqn:El; simpl; [|discriminate].
  destruct (yax (form_attrs f)) as [y|] eqn:Ey; simpl; [|discriminate].
  case_decide as Hd; simpl.
  - destruct (np_get (fig_axForms.sharey lay) (idx - 1)) as [prev|]; simpl; [|discriminate].
    destruct (np_set (fig_axForms.sharey lay) idx prev) as [sy|]; simpl; [|discriminate].
    destruct (np_set (fig_axForms.hspacer_gap lay) idx tightgap) as [gp|]; simpl;
      [|discriminate].
    rewrite El. simpl.
    assert (Hh : hidden (<[l := mk_axForm (form_class f)
                              (set_hide_ylabels true (form_attrs f)) (form_methods f)]> s) l).
    { eexists. split; [apply lookup_insert_eq|reflexivity]. }
    destruct (hrel (form_attrs f)) as [h|]; simpl.
    + destruct (np_get _ idx) as [cur|]; simpl; [|discriminate].
      destruct (np_set _ idx _) as [sz|]; simpl; [|discriminate].
      intros Heq. injection Heq as <- <- _ <-. exists y. auto.
    + intros Heq. injection Heq as <- <- _ <-. exists y. auto.
  - destruct (hrel (form_attrs f)) as [h|]; simpl.
    + destruct (np_get _ idx) as [cur|]; simpl; [|discriminate].
      destruct (np_set _ idx _) as [sz|]; simpl; [|discriminate].
      intros Heq. injection Heq as <- <- _ <-. exists y.
      repeat split. intros ->. contradiction.
    + intros Heq. injection Heq as <- <- _ <-. exists y.
      repeat split. intros ->. contradiction.
Qed.

Lemma place_all_cons (tightgap : Q) (idx : Z) (l : loc) (rest : list loc)
    (acc : fig_axForms.layout * option string) :
  fig_axForms.place_all tightgap idx (l :: rest) acc
  = (acc ← fig_axForms.place tightgap idx l acc;
     fig_axForms.place_all tightgap (idx + 1) rest acc).
Proof. reflexivity. Qed.

Lemma place_all_hides (tightgap : Q) (axforms : list loc) :
  forall idx lay last s s' es acc',
    fig_axForms.place_all tightgap idx axforms (lay, last) s = (s', (es, Ok acc')) ->
    forall l,
      (exists y, head axforms = Some l /\ yax_at s l = Some y /\ last = Some y) \/
      follows_same_yax s axforms l ->
      hidden s' l.
Proof.
  induction axforms as [|l0 rest IH]; intros idx lay last s s' es acc' Hrun l Hl.
  - destruct Hl as [(y & Hh & _)|(i & lp & y & Hi & _)]; discriminate.
  - rewrite place_all_cons in Hrun.
    apply fx_bind_ok in Hrun as (s1 & es1 & [lay1 last1] & es2 & Hp & Hrest & _).
    pose proof (keeps_place tightgap idx l0 (lay, last) s) as Hf1. rewrite Hp in Hf1.
    pose proof (keeps_place_all tightgap rest (idx + 1) (lay1, last1) s1) as Hf2.
    rewrite Hrest in Hf2. simpl in Hf1, Hf2.
    apply place_ok in Hp as (y0 & Hy0 & -> & _ & Hhide).
    destruct Hl as [(y & Hh & Hy & ->)|(i & lp & y & Hi & HSi & Hyp & Hy)].
    + injection Hh as <-. rewrite Hy0 in Hy. injection Hy as ->.
      apply (frame_hidden s1 s' l0 Hf2), Hhide. reflexivity.
    + apply (IH _ _ _ _ _ _ _ Hrest). destruct i as [|i]; simpl in Hi, HSi.
      * injection Hi as <-. rewrite Hy0 in Hyp. injection Hyp as <-.
        left. exists y0. split; [rewrite head_lookup; exact HSi|].
        split; [rewrite (frame_yax_at _ _ _ Hf1); exact Hy|reflexivity].
      * right. apply (frame_follows s s1 rest l Hf1). exists i, lp, y. auto.
Qed.

Lemma place_lookup (tightgap : Q) (idx : Z) (l0 : loc) (lay : fig_axForms.layout)
    (last : option string) (s : store) (l : loc) :
  ~ (exists y, l0 = l /\ yax_at s l = Some y /\ last = Some y) ->
  fst (fig_axForms.place tightgap idx l0 (lay, last) s) !! l = s !! l.
Proof.
  intros Hn.
  destruct (place_state tightgap idx l0 lay last s) as [->|(f & y & Hf & Hy & -> & ->)];
    [reflexivity|].
  destruct (decide (l0 = l)) as [<-|Hne]; [|apply lookup_insert_ne; exact Hne].
  exfalso. apply Hn. exists y. unfold yax_at. rewrite Hf. auto.
Qed.

Lemma place_all_keeps_others (tightgap : Q) (axforms : list loc) :
  forall idx lay last s l,
    ~ ((exists y, head axforms = Some l /\ yax_at s l = Some y /\ last = Some y) \/
       follows_same_yax s axforms l) ->
    fst (fig_axForms.place_all tightgap idx axforms (lay, last) s) !! l = s !! l.
Proof.
  induction axforms as [|l0 rest IH]; intros idx lay last s l Hn; [reflexivity|].
  assert (H1 : fst (fig_axForms.place tightgap idx l0 (lay, last) s) !! l = s !! l).
  { apply place_lookup. intros (y & <- & Hy & ->). apply Hn. left. exists y. auto. }
  rewrite place_all_cons. pose proof (keeps_place tightgap idx l0 (lay, last) s) as Hf1.
  destruct (fig_axForms.place tightgap idx l0 (lay, last) s) as [s1 [es1 [[lay1 last1]|e]]] eqn:Hp;
    simpl in H1, Hf1.
  - rewrite (fx_bind_step _ _ _ _ _ _ Hp). simpl.
    apply place_ok in Hp as (y0 & Hy0 & -> & _ & _).
    rewrite IH; [exact H1|].
    intros [(y & Hh & Hy & Hl)|Hfol]; apply Hn; right.
    + injection Hl as <-. exists 0%nat, l0, y0.
      split; [reflexivity|]. split; [simpl; rewrite <- head_lookup; exact Hh|].
      split; [exact Hy0|]. rewrite <- (frame_yax_at _ _ _ Hf1). exact Hy.
    + apply (frame_follows s s1 rest l Hf1) in Hfol.
      destruct Hfol as (i & lp & y & Hi & HSi & Hyp & Hy).
      exists (S i), lp, y. auto.
  - rewrite (fx_bind_raise _ _ _ _ _ _ Hp). exact H1.
Qed.

Lemma init_state (fignum : Z) (axforms : list loc) (comp : list component)
    (hspacer : list Q * list Q) (tightgap : Q) (s : store) :
  fst (fig_axForms.__init__ fignum axforms comp hspacer tightgap s) = s \/
  fst (fig_axForms.__init__ fignum axforms comp hspacer tightgap s)
    = fst (fig_axForms.place_all tightgap 0 axforms
             (fig_axForms.mk_layout (fig_axForms.share_row (length axforms))
                (fst hspacer) (snd hspacer), None) s).
Proof.
  unfold fig_axForms.__init__. case_decide; [left; reflexivity|right].
  destruct (fig_axForms.place_all tightgap 0 axforms _ s) as [s1 [es1 [[lay1 last1]|e]]] eqn:Hp.
  - rewrite (fx_bind_step _ _ _ _ _ _ Hp). reflexivity.
  - rewrite (fx_bind_raise _ _ _ _ _ _ Hp). reflexivity.
Qed.

Lemma init_ok (fignum : Z) (axforms : list loc) (comp : list component)
    (hspacer : list Q * list Q) (tightgap : Q) (s s' : store) (es : list event)
    (fig : fig_axForms.t) :
  fig_axForms.__init__ fignum axforms comp hspacer tightgap s = (s', (es, Ok fig)) ->
  exists es1 last1,
    fig_axForms.place_all tightgap 0 axforms
      (fig_axForms.mk_layout (fig_axForms.share_row (length axforms))
         (fst hspacer) (snd hspacer), None) s
    = (s', (es1, Ok (fig_axForms.placed fig, last1))) /\
    fig_axForms.comp fig = comp /\ fig_axForms.axforms fig = axforms /\
    fig_axForms.sharex fig = fig_axForms.share_row (length axforms).
Proof.
  unfold fig_axForms.__init__. case_decide; [discriminate|]. intros Hrun.
  apply fx_bind_ok in Hrun as (s1 & es1 & [lay1 last1] & es2 & Hp & Hk & _).
  injection Hk as <- _ <-. exists es1, last1. rewrite Hp. auto.
Qed.

(** X6: when [fig_axForms.__init__] returns, every format that comes right
    after a format with the same [yax] in the list has [hide_ylabels]
    set. *)
Theorem init_hides_followers (fignum : Z) (axforms : list loc) (comp : list component)
    (hspacer : list Q * list Q) (tightgap : Q) (s s' : store) (es : list event)
    (fig : fig_axForms.t) (l : loc) :
  fig_axForms.__init__ fignum axforms comp hspacer tightgap s = (s', (es, Ok fig)) ->
  follows_same_yax s axforms l ->
  hidden s' l.
Proof.
  intros Hrun Hfol. apply init_ok in Hrun as (es1 & last1 & Hp & _).
  apply (place_all_hides _ _ _ _ _ _ _ _ _ Hp). right. exact Hfol.
Qed.

Lemma init_keeps_lookup (fignum : Z) (axforms : list loc) (comp : list component)
    (hspacer : list Q * list Q) (tightgap : Q) (s : store) (l : loc) :
  ~ follows_same_yax s axforms l ->
  fst (fig_axForms.__init__ fignum axforms comp hspacer tightgap s) !! l = s !! l.
Proof.
  intros Hn.
  destruct (init_state fignum axforms comp hspacer tightgap s) as [-> | ->]; [reflexivity|].
  apply place_all_keeps_others. intros [(y & _ & _ & Hl)|Hfol]; [discriminate|contradiction].
Qed.

(** X7: a format that nowhere in the list comes right after a format with
    the same [yax] is left exactly as it was by [fig_axForms.__init__],
    whether the constructor returns or raises. *)
Theorem init_leaves_others (fignum : Z) (axforms : list loc) (comp : list component)
    (hspacer : list Q * list Q) (tightgap : Q) (s : store) (l : loc) :
  ~ follows_same_yax s axforms l ->
  fst (fig_axForms.__init__ fignum axforms comp hspacer tightgap s) !! l = s !! l.
Proof. apply init_keeps_lookup. Qed.

Lemma init_hides_followers_witness :
  hidden (fst (fig_axForms.__init__ 400 [0%nat; 1%nat] Cases.uvw Cases.spacer2 0.2
                 Cases.two_profiles)) 1%nat.
Proof.
  refine (init_hides_followers 400 [0%nat; 1%nat] Cases.uvw Cases.spacer2 0.2
            Cases.two_profiles _ [FigureSetup 400] Cases.fig_two 1%nat _ _).
  - vm_compute. reflexivity.
  - exists 0%nat, 0%nat, "z". repeat split.
Defined.

Lemma init_leaves_others_witness :
  fst (fig_axForms.__init__ 400 [0%nat; 1%nat] Cases.uvw Cases.spacer2 0.2
         Cases.two_profiles) !! 0%nat
  = Cases.two_profiles !! 0%nat.
Proof.
  refine (init_leaves_others 400 [0%nat; 1%nat] Cases.uvw Cases.spacer2 0.2
            Cases.two_profiles 0%nat _).
  intros (idx & lp & y & _ & H2 & _).
  destruct idx as [|[|idx]]; discriminate H2.
Defined.

(** X8: the two default formats of [new_summ_fig] have different y axes,
    so a call that uses the default list leaves both objects, and every
    other format object, exactly as they were; the defaults shared by all
    calls are never modified through it. *)
Theorem new_summ_fig_keeps_defaults `{Mlab} (l0 l1 : loc) (s : store) (fignum : Z)
    (comp : list component) (hspacer : list Q * list Q) (tightgap : Q) :
  s !! l0 = Some (velprof_axForm.__init__ (Some 0%Q, Some 2%Q)) ->
  s !! l1 = Some (spec_axForm.__init__ 600 None) ->
  fst (new_summ_fig [l0; l1] fignum None comp hspacer tightgap s) = s.
Proof.
  intros H0 H1. unfold new_summ_fig. simpl. apply map_eq. intros l.
  apply init_keeps_lookup.
  intros (idx & lp & y & Hi & HSi & Hyp & Hy).
  destruct idx as [|[|idx]]; simpl in Hi, HSi; try discriminate HSi.
  injection Hi as <-. injection HSi as <-.
  unfold yax_at in Hyp, Hy. rewrite H0 in Hyp. rewrite H1 in Hy.
  simpl in Hyp, Hy. congruence.
Qed.

Lemma new_summ_fig_keeps_defaults_witness :
  fst (new_summ_fig [0%nat; 1%nat] 400 None Cases.uvw Cases.spacer2 0.2
         (Cases.defaults (H := Samples.mlab)))
  = Cases.defaults (H := Samples.mlab).
Proof.
  exact (new_summ_fig_keeps_defaults (H := Samples.mlab) 0%nat 1%nat
           (Cases.defaults (H := Samples.mlab)) 400 Cases.uvw Cases.spacer2 0.2
           eq_refl eq_refl).
Defined.










(** ** Finishing a figure *)

Lemma row_labels_int (axes : list ax) (a : ax) (n : Z) :
  a ∈ axes -> ax_comp a = CInt n ->
  snd (for_each axes (fun ax =>
         match ax_comp ax with
         | CStr c => emit (FigText (AtTopOf (ax_pos ax)) ("$" +:+ c +:+ "$"))
         | CInt _ => lift (Raise TypeError)
         end)) = Raise TypeError.
Proof.
  intros Hin Hc. induction axes as [|b axes IH].
  - apply elem_of_nil in Hin. destruct Hin.
  - simpl. destruct (ax_comp b) as [c|m] eqn:Hb.
    + apply elem_of_cons in Hin as [->|Hin]; [congruence|].
      unfold mbind, io_bind, emit. specialize (IH Hin).
      destruct (for_each axes _) as [es r]. exact IH.
    + reflexivity.
Qed.

Lemma column_component (comp : list component) (idx : nat) (c : component) :
  c ∈ comp -> exists a, a ∈ fig_axForms.column comp idx /\ ax_comp a = c.
Proof.
  intros Hin. apply list_elem_of_lookup in Hin as [i Hi].
  exists (mk_ax (i, idx) c). split; [|reflexivity].
  apply list_elem_of_lookup. exists i.
  unfold fig_axForms.column. rewrite list_lookup_imap, Hi. reflexivity.
Qed.

(** X10: a figure whose components include an integer cannot be finalized:
    [fig_axForms.finalize] always raises, at the latest when it builds the
    row label ['$'+c+'$']. *)
Theorem fig_finalize_int_component (self : fig_axForms.t) (s : store) (n : Z) :
  CInt n ∈ fig_axForms.comp self ->
  exists e, snd (snd (fig_axForms.finalize self s)) = Raise e.
Proof.
  intros Hin. unfold fig_axForms.finalize.
  destruct (column_component _ 0 _ Hin) as (a & Ha & Hc).
  pose proof (row_labels_int _ a n Ha Hc) as Hl.
  unfold mbind at 1, fx_bind.
  destruct (for_enumerate 0 (fig_axForms.axforms self) _ s) as [s1 [es [[]|e]]].
  - unfold draw. destruct (for_each _ _) as [es' r]. simpl in *. eauto.
  - simpl. eauto.
Qed.

Lemma fig_finalize_int_component_witness :
  exists e,
    snd (snd (fig_axForms.finalize
                (fig_axForms.mk [CInt 0; CInt 1] [0%nat] [1]
                   (fig_axForms.mk_layout [1] [0.2%Q] [2%Q]))
                Cases.two_profiles)) = Raise e.
Proof.
  refine (fig_finalize_int_component _ Cases.two_profiles 1 _).
  apply (bool_decide_unpack _). reflexivity.
Defined.

(** ** The grid indices of a summary figure *)

(** X11: the properties [igrid] and [icoh] of a [summfig] return what was
    last assigned; before any assignment [igrid] is (0, 0) and [icoh] is
    (-1, -1), and the first read stores that default; assigning one does
    not change the other. *)
Theorem summfig_index_properties (self : summfig.t) (v : pyval) (n : Z)
    (c g : option pyval) (tf rf : option Q) :
  snd ((_ ← summfig.set_igrid v; summfig.igrid) self) = ([], Ok v) /\
  snd ((_ ← summfig.set_icoh v; summfig.icoh) self) = ([], Ok v) /\
  summfig.igrid (summfig.mk n None c tf rf)
    = (summfig.mk n (Some (VPair 0 0)) c tf rf, ([], Ok (VPair 0 0))) /\
  summfig.icoh (summfig.mk n g None tf rf)
    = (summfig.mk n g (Some (VPair (-1) (-1))) tf rf, ([], Ok (VPair (-1) (-1)))) /\
  snd ((_ ← summfig.set_igrid v; summfig.icoh) self) = snd (summfig.icoh self) /\
  snd ((_ ← summfig.set_icoh v; summfig.igrid) self) = snd (summfig.igrid self).
Proof.
  repeat split.
  - unfold mbind, fx_bind, summfig.set_igrid, summfig.icoh. simpl.
    destruct (summfig._icoh self); reflexivity.
  - unfold mbind, fx_bind, summfig.set_icoh, summfig.igrid. simpl.
    destruct (summfig._igrid self); reflexivity.
Qed.

(** X12: after [setinds] with a data object, reading [igrid] gives the
    index that was passed, or the hub index of the data when [None] was
    passed, and reading [icoh] gives the index that was passed, or (0, 0);
    [setinds] does not raise. *)
Theorem setinds_then_read (d : tsdata.t) (g c : pyval) (self : summfig.t) :
  snd ((_ ← summfig.setinds (VTsdata d) g c;
        a ← summfig.igrid; b ← summfig.icoh; mret (a, b)) self)
  = ([], Ok (match g with
             | VNone => VPair (fst (tsdata.ihub d)) (snd (tsdata.ihub d))
             | _ => g
             end,
             match c with
             | VNone => VPair 0 0
             | _ => c
             end)).
Proof. destruct g, c; reflexivity. Qed.

(** X13: what [plot_prof] draws depends on the data, the keywords and the
    lateral index [igrid[1]] only, not on the height index or any other
    attribute of the figure, and it leaves a figure with an assigned
    [igrid] as it is.  On a figure whose [igrid] was never assigned it
    draws what it draws for (0, 0); it stores that default once the first
    component of [uprof] has been indexed, and when [uprof] has no
    component it raises [IndexError] and [igrid] stays unassigned. *)
Theorem plot_prof_lateral_only (tsdata : tsdata.t) (kwargs : gmap string pyval)
    (a a' b n n' : Z) (c c' : option pyval) (tf tf' rf rf' : option Q) :
  snd (summfig.plot_prof tsdata kwargs (summfig.mk n (Some (VPair a b)) c tf rf))
    = snd (summfig.plot_prof tsdata kwargs (summfig.mk n' (Some (VPair a' b)) c' tf' rf')) /\
  fst (summfig.plot_prof tsdata kwargs (summfig.mk n (Some (VPair a b)) c tf rf))
    = summfig.mk n (Some (VPair a b)) c tf rf /\
  snd (summfig.plot_prof tsdata kwargs (summfig.mk n None c tf rf))
    = snd (summfig.plot_prof tsdata kwargs (summfig.mk n (Some (VPair 0 0)) c tf rf)) /\
  (tsdata.uprof tsdata <> [] ->
   fst (summfig.plot_prof tsdata kwargs (summfig.mk n None c tf rf))
     = summfig.mk n (Some (VPair 0 0)) c tf rf) /\
  (tsdata.uprof tsdata = [] ->
   summfig.plot_prof tsdata kwargs (summfig.mk n None c tf rf)
     = (summfig.mk n None c tf rf, ([], Raise IndexError))).
Proof.
  split; [|split; [|split; [|split]]].
  - unfold summfig.plot_prof, for_range3, for_enumerate, mbind, fx_bind,
      summfig.igrid, attempt, draw, lift, emit. simpl.
    destruct (np_get (tsdata.uprof tsdata) 0) as [p0|]; simpl; [|reflexivity].
    destruct (res_map _ p0) as [x0|]; simpl; [|reflexivity].
    destruct (np_get (tsdata.uprof tsdata) (0 + 1)) as [p1|]; simpl; [|reflexivity].
    destruct (res_map _ p1) as [x1|]; simpl; [|reflexivity].
    destruct (np_get (tsdata.uprof tsdata) (0 + 1 + 1)) as [p2|]; simpl; [|reflexivity].
    destruct (res_map _ p2) as [x2|]; reflexivity.
  - unfold summfig.plot_prof, for_range3, for_enumerate, mbind, fx_bind,
      summfig.igrid, attempt, draw, lift, emit. simpl.
    destruct (np_get (tsdata.uprof tsdata) 0) as [p0|]; simpl; [|reflexivity].
    destruct (res_map _ p0) as [x0|]; simpl; [|reflexivity].
    destruct (np_get (tsdata.uprof tsdata) (0 + 1)) as [p1|]; simpl; [|reflexivity].
    destruct (res_map _ p1) as [x1|]; simpl; [|reflexivity].
    destruct (np_get (tsdata.uprof tsdata) (0 + 1 + 1)) as [p2|]; simpl; [|reflexivity].
    destruct (res_map _ p2) as [x2|]; reflexivity.
  - unfold summfig.plot_prof, for_range3, for_enumerate, mbind, fx_bind,
      summfig.igrid, attempt, draw, lift, emit. simpl.
    destruct (np_get (tsdata.uprof tsdata) 0) as [p0|]; simpl; [|reflexivity].
    destruct (res_map _ p0) as [x0|]; simpl; [|reflexivity].
    destruct (np_get (tsdata.uprof tsdata) (0 + 1)) as [p1|]; simpl; [|reflexivity].
    destruct (res_map _ p1) as [x1|]; simpl; [|reflexivity].
    destruct (np_get (tsdata.uprof tsdata) (0 + 1 + 1)) as [p2|]; simpl; [|reflexivity].
    destruct (res_map _ p2) as [x2|]; reflexivity.
  - intros Hne.
    assert (Hp : exists p0, np_get (tsdata.uprof tsdata) 0 = Ok p0).
    { destruct (tsdata.uprof tsdata) as [|p0 rest]; [destruct (Hne eq_refl)|].
      exists p0. apply np_get_first. reflexivity. }
    destruct Hp as [p0 Hp].
    unfold summfig.plot_prof, for_range3, for_enumerate, mbind, fx_bind,
      summfig.igrid, attempt, draw, lift, emit. simpl. rewrite Hp. simpl.
    destruct (res_map _ p0) as [x0|]; simpl; [|reflexivity].
    destruct (np_get (tsdata.uprof tsdata) (0 + 1)) as [p1|]; simpl; [|reflexivity].
    destruct (res_map _ p1) as [x1|]; simpl; [|reflexivity].
    destruct (np_get (tsdata.uprof tsdata) (0 + 1 + 1)) as [p2|]; simpl; [|reflexivity].
    destruct (res_map _ p2) as [x2|]; reflexivity.
  - intros He.
    unfold summfig.plot_prof, for_range3, for_enumerate, mbind, fx_bind,
      summfig.igrid, attempt, draw, lift, emit. simpl. rewrite He. reflexivity.
Qed.

Lemma plot_prof_lateral_only_witness :
  fst (summfig.plot_prof Samples.data ∅ Cases.fresh)
  = summfig.mk 1024 (Some (VPair 0 0)) None None None.
Proof.
  destruct (plot_prof_lateral_only Samples.data ∅ 0 0 0 1024 1024 None None
              None None None None) as (_ & _ & _ & Hset & _).
  apply Hset. intros Hn. discriminate Hn.
Defined.

(** ** The markers of the spectrum points *)

Lemma setdefault_lookup (key k : string) (v : pyval) (kwargs : gmap string pyval) :
  summfig.setdefault key v kwargs !! k
  = if decide (key = k) then Some (default v (kwargs !! key)) else kwargs !! k.
Proof.
  unfold summfig.setdefault. destruct (kwargs !! key) as [w|] eqn:E.
  - case_decide; [subst; exact E|reflexivity].
  - rewrite lookup_insert. case_decide; reflexivity.
Qed.

Lemma emits_only_igrid_pair (P : event -> Prop) : emits_only P summfig.igrid_pair.
Proof.
  unfold summfig.igrid_pair. apply emits_only_bind; [apply emits_only_igrid|].
  intros g. apply emits_only_try.
Qed.

Lemma emits_only_icoh_pair (P : event -> Prop) : emits_only P summfig.icoh_pair.
Proof.
  unfold summfig.icoh_pair. apply emits_only_bind; [apply emits_only_icoh|].
  intros g. apply emits_only_try.
Qed.

(** X14: [plot_profpt] draws only ['o'] markers, each with one of two
    keyword dictionaries.  In the first the marker size [ms] is 6 whatever
    the caller passed, because [hasattr] is asked of the dictionary and
    finds neither name; in the second [ms] is the caller's, or 10.  Every
    other keyword of the caller is in both. *)
Theorem profpt_marker_sizes (tsdata : tsdata.t) (kwargs : gmap string pyval) :
  summfig.profpt_kw1 kwargs !! "ms" = Some (VInt 6) /\
  summfig.profpt_kw2 kwargs !! "ms" = Some (default (VInt 10) (kwargs !! "ms")) /\
  (forall k v, k <> "ms" -> kwargs !! k = Some v ->
     summfig.profpt_kw1 kwargs !! k = Some v /\ summfig.profpt_kw2 kwargs !! k = Some v) /\
  (forall self e, e ∈ fst (snd (summfig.plot_profpt tsdata kwargs self)) ->
     profpt_marker kwargs e).
Proof.
  split; [|split; [|split]].
  - unfold summfig.profpt_kw1. simpl. apply lookup_insert_eq.
  - unfold summfig.profpt_kw2. rewrite !setdefault_lookup.
    repeat case_decide; congruence.
  - intros k v Hk Hv. unfold summfig.profpt_kw1, summfig.profpt_kw2. simpl.
    rewrite !lookup_insert_ne by congruence. rewrite !setdefault_lookup.
    repeat case_decide; subst; rewrite ?Hv; try (exfalso; congruence); auto.
  - intros self e. revert self e.
    change (emits_only (profpt_marker kwargs) (summfig.plot_profpt tsdata kwargs)).
    unfold summfig.plot_profpt. apply emits_only_for_enumerate. intros ind _.
    apply emits_only_bind_try. intros plane _.
    apply emits_only_bind; [apply emits_only_igrid_pair|]. intros g.
    apply emits_only_bind_try. intros x _.
    apply emits_only_bind; [apply emits_only_igrid_pair|]. intros g'.
    apply emits_only_bind_try. intros y _.
    apply emits_only_bind; [apply emits_only_emit; simpl; auto|]. intros _.
    apply emits_only_bind_try. intros plane' _.
    apply emits_only_bind; [apply emits_only_icoh_pair|]. intros c.
    apply emits_only_bind_try. intros x' _.
    apply emits_only_bind; [apply emits_only_icoh_pair|]. intros c'.
    apply emits_only_bind_try. intros y' _.
    apply emits_only_emit. simpl. auto.
Qed.

(** ** The scale factors of the statistics columns *)

Lemma safe_ret {S A} (P : S -> Prop) (E : exn -> Prop) (a : A) : safe P E (mret a).
Proof. intros s Hs. split; [exact Hs|discriminate]. Qed.

Lemma safe_get {S} (P : S -> Prop) (E : exn -> Prop) : safe P E get.
Proof. intros s Hs. split; [exact Hs|discriminate]. Qed.

Lemma safe_emit {S} (P : S -> Prop) (E : exn -> Prop) (e : event) :
  safe P E (draw (emit e)).
Proof. intros s Hs. split; [exact Hs|discriminate]. Qed.

Lemma safe_attempt {S A} (P : S -> Prop) (E : exn -> Prop) (r : res A) :
  (forall e, r = Raise e -> E e) -> safe (S := S) P E (attempt r).
Proof. intros Hr s Hs. split; [exact Hs|]. simpl. exact Hr. Qed.

Lemma safe_bind {S A B} (P : S -> Prop) (E : exn -> Prop) (m : fx S A)
    (k : A -> fx S B) :
  safe P E m -> (forall a, safe P E (k a)) -> safe P E (m ≫= k).
Proof.
  intros Hm Hk s Hs. unfold mbind, fx_bind.
  destruct (Hm s Hs) as [HP HE]. destruct (m s) as [s1 [es [a|e]]]; simpl in *.
  - destruct (Hk a s1 HP) as [HP' HE']. destruct (k a s1) as [s2 [es' r]].
    simpl in *. split; [exact HP'|exact HE'].
  - split; [exact HP|]. intros e' He. injection He as <-. apply HE. reflexivity.
Qed.

Lemma safe_for_enumerate {S A} (P : S -> Prop) (E : exn -> Prop) (l : list A)
    (body : Z -> A -> fx S unit) :
  (forall idx x, safe P E (body idx x)) ->
  forall idx, safe P E (for_enumerate idx l body).
Proof.
  intros Hb. induction l as [|x l IH]; intros idx; simpl.
  - apply safe_ret.
  - apply safe_bind; [apply Hb|intros _; apply IH].
Qed.

Lemma never_ok_bind_l {S A B} (P : S -> Prop) (m : fx S A) (k : A -> fx S B) :
  never_ok P m -> never_ok P (m ≫= k).
Proof.
  intros Hm s Hs. destruct (Hm s Hs) as [e He]. unfold mbind, fx_bind.
  destruct (m s) as [s1 [es r]]. simpl in He. subst r. simpl. eauto.
Qed.

Lemma never_ok_bind_r {S A B} (P : S -> Prop) (E : exn -> Prop) (m : fx S A)
    (k : A -> fx S B) :
  safe P E m -> (forall a, never_ok P (k a)) -> never_ok P (m ≫= k).
Proof.
  intros Hm Hk s Hs. unfold mbind, fx_bind.
  destruct (Hm s Hs) as [HP _]. destruct (m s) as [s1 [es [a|e]]]; simpl in *.
  - destruct (Hk a s1 HP) as [e He]. destruct (k a s1) as [s2 [es' r]]. simpl in *. eauto.
  - eauto.
Qed.

Lemma np_get_index_error {A} (l : list A) (i : Z) (e : exn) :
  np_get l i = Raise e -> index_error e.
Proof.
  unfold np_get. destruct (_ && _); [destruct (l !! _)|]; intros He;
    try discriminate He; injection He as <-; left; reflexivity.
Qed.

Lemma np_at_index_error {A} (plane : list (list A)) (g : Z * Z) (e : exn) :
  np_at plane g = Raise e -> index_error e.
Proof.
  unfold np_at. destruct (np_get plane (fst g)) as [row|e'] eqn:E1; simpl.
  - apply np_get_index_error.
  - intros He. injection He as <-. apply (np_get_index_error _ _ _ E1).
Qed.

Lemma as_pair_index_error (v : pyval) (e : exn) :
  summfig.as_pair v = Raise e -> index_error e.
Proof.
  destruct v; intros He; try discriminate He; injection He as <-;
    first [right; reflexivity | left; reflexivity].
Qed.

Lemma safe_igrid_pair (P : summfig.t -> Prop) :
  on_factors P -> safe P index_error summfig.igrid_pair.
Proof.
  intros HP s Hs. unfold summfig.igrid_pair, summfig.igrid, mbind, fx_bind, attempt, lift.
  destruct (summfig._igrid s) as [v|]; simpl.
  - split; [exact Hs|]. destruct (summfig.as_pair v) eqn:E; simpl; [discriminate|].
    intros e' He. injection He as <-. apply (as_pair_index_error _ _ E).
  - split; [apply (HP s); auto|discriminate].
Qed.

Lemma safe_icoh_pair (P : summfig.t -> Prop) :
  on_factors P -> safe P index_error summfig.icoh_pair.
Proof.
  intros HP s Hs. unfold summfig.icoh_pair, summfig.icoh, mbind, fx_bind, attempt, lift.
  destruct (summfig._icoh s) as [v|]; simpl.
  - split; [exact Hs|]. destruct (summfig.as_pair v) eqn:E; simpl; [discriminate|].
    intros e' He. injection He as <-. apply (as_pair_index_error _ _ E).
  - split; [apply (HP s); auto|discriminate].
Qed.

Lemma safe_weaken {S A} (P : S -> Prop) (E E' : exn -> Prop) (m : fx S A) :
  (forall e, E e -> E' e) -> safe P E m -> safe P E' m.
Proof. intros HE Hm s Hs. destruct (Hm s Hs). split; auto. Qed.

Lemma safe_attempt_any {S A} (P : S -> Prop) (r : res A) :
  safe (S := S) P (fun _ => True) (attempt r).
Proof. apply safe_attempt. auto. Qed.

Lemma safe_igrid_pair_any (P : summfig.t -> Prop) :
  on_factors P -> safe P (fun _ => True) summfig.igrid_pair.
Proof. intros HP. eapply safe_weaken; [|apply safe_igrid_pair, HP]. auto. Qed.

Lemma safe_icoh_pair_any (P : summfig.t -> Prop) :
  on_factors P -> safe P (fun _ => True) summfig.icoh_pair.
Proof. intros HP. eapply safe_weaken; [|apply safe_icoh_pair, HP]. auto. Qed.

Lemma safe_get_factor_any (P : summfig.t -> Prop) :
  safe P (fun _ => True) summfig.get_tke_factor /\
  safe P (fun _ => True) summfig.get_rs_factor.
Proof.
  split; intros s Hs; unfold summfig.get_tke_factor, summfig.get_rs_factor,
    mbind, fx_bind, get, attempt; simpl; auto.
Qed.

Lemma safe_get_factor_set :
  safe factors_set index_error summfig.get_tke_factor /\
  safe factors_set index_error summfig.get_rs_factor.
Proof.
  split; intros s Hs; pose proof Hs as [[f Hf] [f' Hf']];
    unfold summfig.get_tke_factor, summfig.get_rs_factor, mbind, fx_bind, get, attempt;
    simpl; rewrite ?Hf, ?Hf'; simpl; (split; [exact Hs|discriminate]).
Qed.

Lemma never_ok_get_tke :
  never_ok (fun s => summfig.tke_factor s = None) summfig.get_tke_factor.
Proof.
  intros s Hs. unfold summfig.get_tke_factor, mbind, fx_bind, get, attempt. simpl.
  rewrite Hs. simpl. eauto.
Qed.

Lemma never_ok_get_rs :
  never_ok (fun s => summfig.rs_factor s = None) summfig.get_rs_factor.
Proof.
  intros s Hs. unfold summfig.get_rs_factor, mbind, fx_bind, get, attempt. simpl.
  rewrite Hs. simpl. eauto.
Qed.

Lemma on_factors_tke_none : on_factors (fun s => summfig.tke_factor s = None).
Proof. intros s s' Ht _ Hs. congruence. Qed.

Lemma on_factors_rs_none : on_factors (fun s => summfig.rs_factor s = None).
Proof. intros s s' _ Hr Hs. congruence. Qed.

Lemma on_factors_set : on_factors factors_set.
Proof. intros s s' Ht Hr [H1 H2]. split; congruence. Qed.

Ltac stat_step HP :=
  first [ apply safe_attempt_any | apply safe_emit
        | apply safe_igrid_pair_any, HP | apply safe_icoh_pair_any, HP
        | apply (proj1 (safe_get_factor_any _)) | apply (proj2 (safe_get_factor_any _)) ].

(** X15: [plot_theory] needs both scale factors: on a figure on which
    [plot_tke] or [plot_rs] has not been called it never returns
    normally. *)
Theorem plot_theory_needs_factors `{Numpy} (tsrun : tsrun.t) (args : list pyval)
    (kwargs : gmap string pyval) (self : summfig.t) :
  summfig.tke_factor self = None \/ summfig.rs_factor self = None ->
  exists e, snd (snd (summfig.plot_theory tsrun args kwargs self)) = Raise e.
Proof.
  intros [Ht|Hr].
  - revert self Ht.
    change (never_ok (fun s => summfig.tke_factor s = None)
              (summfig.plot_theory tsrun args kwargs)).
    unfold summfig.plot_theory, for_range3. simpl. apply never_ok_bind_l.
    do 10 (eapply never_ok_bind_r; [stat_step on_factors_tke_none|intros ?]).
    apply never_ok_bind_l, never_ok_get_tke.
  - revert self Hr.
    change (never_ok (fun s => summfig.rs_factor s = None)
              (summfig.plot_theory tsrun args kwargs)).
    unfold summfig.plot_theory, for_range3. simpl. apply never_ok_bind_l.
    do 13 (eapply never_ok_bind_r; [stat_step on_factors_rs_none|intros ?]).
    apply never_ok_bind_l, never_ok_get_rs.
Qed.

Lemma plot_theory_needs_factors_witness :
  snd (summfig.plot_theory (H := Cases.numpy) Samples.run [] ∅ Cases.fresh)
  = ([Plot (0, 0)%nat (Arr [6%Q]) (Arr [10%Q]) [] ∅;
      Loglog (0, 1)%nat [1; 2]%Q [4; 4]%Q [] ∅;
      Semilogx (0, 2)%nat [1; 2]%Q [1; 4]%Q [] ∅],
     Raise (AttributeError "tke_factor")).
Proof.
  destruct (plot_theory_needs_factors (H := Cases.numpy) Samples.run [] ∅ Cases.fresh
              (or_introl eq_refl)) as [e He].
  reflexivity.
Defined.

Lemma safe_uturb_lateral (P : summfig.t -> Prop) (tsdata : tsdata.t) (ind : Z) :
  on_factors P -> safe P (fun _ => True) (summfig.uturb_lateral tsdata ind).
Proof.
  intros HP. unfold summfig.uturb_lateral.
  apply safe_bind; [apply safe_attempt_any|intros plane].
  apply safe_bind; [apply safe_igrid_pair_any, HP|intros g].
  apply safe_attempt_any.
Qed.

Lemma plot_tke_keeps `{Numpy} (P : summfig.t -> Prop) (tsdata : tsdata.t) (factor : Q)
    (kwargs : gmap string pyval) (self : summfig.t) :
  on_factors P ->
  P (summfig.mk (summfig.nfft self) (summfig._igrid self) (summfig._icoh self)
       (Some factor) (summfig.rs_factor self)) ->
  P (fst (summfig.plot_tke tsdata factor kwargs self)).
Proof.
  intros HP Hs. unfold summfig.plot_tke, mbind at 1, fx_bind, summfig.set_tke_factor. simpl.
  match goal with
  | |- context [for_range3 ?body ?s] =>
      assert (Hl : safe P (fun _ => True) (for_range3 body))
  end.
  { apply safe_for_enumerate. intros ind _.
    apply safe_bind; [apply safe_uturb_lateral, HP|intros u]. apply safe_emit. }
  specialize (Hl _ Hs) as [Hl _].
  destruct (for_range3 _ _) as [s2 [es r]]. exact Hl.
Qed.

Lemma plot_rs_keeps `{Numpy} (P : summfig.t -> Prop) (tsdata : tsdata.t) (factor : Q)
    (args : list pyval) (kwargs : gmap string pyval) (self : summfig.t) :
  on_factors P ->
  P (summfig.mk (summfig.nfft self) (summfig._igrid self) (summfig._icoh self)
       (summfig.tke_factor self) (Some factor)) ->
  P (fst (summfig.plot_rs tsdata factor args kwargs self)).
Proof.
  intros HP Hs. unfold summfig.plot_rs, mbind at 1, fx_bind, summfig.set_rs_factor. simpl.
  match goal with
  | |- context [let '(_, _) := ?m ?s in _] =>
      assert (Hl : safe P (fun _ => True) m)
  end.
  { do 2 (apply safe_bind; [apply safe_uturb_lateral, HP|intros ?]).
    apply safe_bind; [apply safe_emit|intros ?].
    do 2 (apply safe_bind; [apply safe_uturb_lateral, HP|intros ?]).
    apply safe_bind; [apply safe_emit|intros ?].
    do 2 (apply safe_bind; [apply safe_uturb_lateral, HP|intros ?]).
    apply safe_emit. }
  specialize (Hl _ Hs) as [Hl _].
  match goal with
  | |- context [let '(_, _) := ?m ?s in _] => destruct (m s) as [s2 [es r]]
  end.
  exact Hl.
Qed.

(** X16: [plot_tke] and [plot_rs] record their scale factor before they
    draw, so it is recorded even when drawing raises, and neither changes
    the other's factor; after both, whatever their outcome, both factors
    are set. *)
Theorem plot_tke_rs_set_factors `{Numpy} (tsdata : tsdata.t) (f f' : Q)
    (args : list pyval) (kwargs : gmap string pyval) (self : summfig.t) :
  let s1 := fst (summfig.plot_tke tsdata f kwargs self) in
  let s2 := fst (summfig.plot_rs tsdata f' args kwargs s1) in
  summfig.tke_factor s1 = Some f /\
  summfig.rs_factor s1 = summfig.rs_factor self /\
  summfig.tke_factor s2 = Some f /\
  summfig.rs_factor s2 = Some f' /\
  factors_set s2.
Proof.
  intros s1 s2.
  assert (H1 : summfig.tke_factor s1 = Some f /\
               summfig.rs_factor s1 = summfig.rs_factor self).
  { apply (plot_tke_keeps (fun s => summfig.tke_factor s = Some f /\
                                    summfig.rs_factor s = summfig.rs_factor self)).
    - intros s s' Ht Hr [Ha Hb]. split; congruence.
    - split; reflexivity. }
  assert (H2 : summfig.tke_factor s2 = Some f /\ summfig.rs_factor s2 = Some f').
  { apply (plot_rs_keeps (fun s => summfig.tke_factor s = Some f /\
                                   summfig.rs_factor s = Some f')).
    - intros s s' Ht Hr [Ha Hb]. split; congruence.
    - split; [exact (proj1 H1)|reflexivity]. }
  destruct H1 as [H1a H1b], H2 as [H2a H2b].
  repeat split; try assumption; unfold factors_set; rewrite ?H2a, ?H2b; eauto.
Qed.

(** X17: on a figure on which both scale factors are set, [plot_theory]
    raises no attribute error: its only exceptions are those of indexing,
    and the factors stay set. *)
Theorem plot_theory_with_factors `{Numpy} (tsrun : tsrun.t) (args : list pyval)
    (kwargs : gmap string pyval) (self : summfig.t) :
  factors_set self ->
  factors_set (fst (summfig.plot_theory tsrun args kwargs self)) /\
  forall e, snd (snd (summfig.plot_theory tsrun args kwargs self)) = Raise e ->
            index_error e.
Proof.
  revert self.
  change (safe factors_set index_error (summfig.plot_theory tsrun args kwargs)).
  unfold summfig.plot_theory. apply safe_for_enumerate. intros ind _.
  repeat (apply safe_bind;
          [first [ apply safe_attempt; first [apply np_get_index_error|apply np_at_index_error]
                 | apply safe_emit
                 | apply safe_igrid_pair, on_factors_set
                 | apply safe_icoh_pair, on_factors_set
                 | apply (proj1 safe_get_factor_set)
                 | apply (proj2 safe_get_factor_set) ]
          | intros ? ]).
  apply safe_emit.
Qed.

Lemma plot_theory_with_factors_witness :
  factors_set
    (fst (summfig.plot_theory (H := Cases.numpy) Samples.run [] ∅
            (summfig.mk 1024 None None (Some 10000%Q) (Some 10000%Q)))).
Proof.
  refine (proj1 (plot_theory_with_factors (H := Cases.numpy) Samples.run [] ∅
                   (summfig.mk 1024 None None (Some 10000%Q) (Some 10000%Q)) _)).
  split; eexists; reflexivity.
Defined.

(** ** A zero sample interval *)

Lemma py_div_zero (a b : spec_float) :
  float.is_zero b = true -> py_div a b = Raise ZeroDivisionError.
Proof. intros Hb. unfold py_div. rewrite Hb. reflexivity. Qed.

Lemma np_get_raises {A} (l : list A) (i : Z) (e : exn) :
  np_get l i = Raise e -> e = IndexError.
Proof.
  unfold np_get. destruct (_ && _); [destruct (l !! _)|]; intros He;
    try discriminate He; injection He as <-; reflexivity.
Qed.

Lemma np_point_raises {A} (arr : list (list (list A))) (comp : Z) (g : Z * Z) (e : exn) :
  np_point arr comp g = Raise e -> e = IndexError.
Proof.
  unfold np_point.
  destruct (np_get arr comp) as [p|e1] eqn:E1; simpl;
    [|intros He; injection He as <-; exact (np_get_raises _ _ _ E1)].
  destruct (np_get p (fst g)) as [r|e2] eqn:E2; simpl;
    [|intros He; injection He as <-; exact (np_get_raises _ _ _ E2)].
  apply np_get_raises.
Qed.

(** X18: with a sample interval of zero, the [_calc_tsdata] methods of the
    spectrum and coherence formats raise [ZeroDivisionError] before they
    index the data ([OverflowError] when [window_time] itself is too large
    for a float, which 600 is not), and [plot_spectra] raises after setting
    up the figure, without plotting a curve. *)
Theorem zero_dt_raises `{Mlab} (self : attrs) (tsdata : tsdata.t) (comp w : Z) :
  window_time self = Some w ->
  float.is_zero (tsdata.dt tsdata) = true ->
  let raised :=
    if float.is_infinity (float.of_int w) then OverflowError else ZeroDivisionError in
  (forall igrid,
     spec_axForm._calc_tsdata self tsdata comp igrid = Raise raised) /\
  (forall igrid0 igrid1,
     cohere_axForm._calc_tsdata self tsdata comp igrid0 igrid1 = Raise raised) /\
  (forall fignum nfft igrid,
     (exists e, snd (plot_spectra tsdata fignum nfft igrid) = Raise e /\
                (e = IndexError \/ e = ZeroDivisionError)) /\
     forall ev, ev ∈ fst (plot_spectra tsdata fignum nfft igrid) ->
                exists n, ev = FigureSetup n).
Proof.
  intros Hw Hdt raised. split; [|split].
  - intros igrid. unfold spec_axForm._calc_tsdata, get_window_time, calc_nfft, py_float.
    rewrite Hw. subst raised. simpl.
    destruct (float.is_infinity (float.of_int w)); simpl; [reflexivity|].
    rewrite !py_div_zero by exact Hdt. reflexivity.
  - intros igrid0 igrid1.
    unfold cohere_axForm._calc_tsdata, get_window_time, calc_nfft, py_float.
    rewrite Hw. subst raised. simpl.
    destruct (float.is_infinity (float.of_int w)); simpl; [reflexivity|].
    rewrite !py_div_zero by exact Hdt. reflexivity.
  - intros fignum nfft igrid.
    unfold plot_spectra, for_range3, for_enumerate, mbind, fx_bind, attempt, draw, lift, emit.
    rewrite (py_div_zero _ _ Hdt).
    destruct fignum as [n|fg]; simpl;
      destruct (np_point (tsdata.uturb tsdata) 0 _) as [u|e] eqn:Hu; simpl.
    + split; [eauto|]. intros ev Hev.
      apply elem_of_cons in Hev as [->|Hev]; [eauto|apply elem_of_nil in Hev; destruct Hev].
    + split.
      * exists e. split; [reflexivity|]. left. exact (np_point_raises _ _ _ _ Hu).
      * intros ev Hev.
        apply elem_of_cons in Hev as [->|Hev]; [eauto|apply elem_of_nil in Hev; destruct Hev].
    + split; [eauto|]. intros ev Hev. apply elem_of_nil in Hev. destruct Hev.
    + split.
      * exists e. split; [reflexivity|]. left. exact (np_point_raises _ _ _ _ Hu).
      * intros ev Hev. apply elem_of_nil in Hev. destruct Hev.
Qed.

Lemma zero_dt_raises_witness :
  spec_axForm._calc_tsdata (H := Samples.mlab)
    (form_attrs (spec_axForm.__init__ (H := Samples.mlab) 600 None)) Cases.data0 0 None
  = Raise ZeroDivisionError.
Proof.
  exact (proj1 (zero_dt_raises (H := Samples.mlab)
                  (form_attrs (spec_axForm.__init__ (H := Samples.mlab) 600 None))
                  Cases.data0 0 600 eq_refl eq_refl) None).
Defined.

(** ** A spectrum from dispatch to slices *)

Lemma calc_nfft_finite (w : Z) (wf dt : spec_float) :
  py_float w = Ok wf ->
  float.is_positive dt = true ->
  float.is_infinity (float.div wf dt) = false ->
  exists q,
    py_int (float.div wf dt) = Ok q /\
    calc_nfft w dt = Ok (if Z.odd q then q + 1 else q).
Proof.
  intros Hwf Hdt Hqi.
  destruct (py_float_ok _ _ Hwf) as [Hwi Hwn].
  destruct (py_int_ok _ Hqi (div_positive_not_nan wf dt Hwi Hwn Hdt)) as [q Hq].
  exists q. split; [exact Hq|].
  unfold calc_nfft. rewrite Hwf. simpl. rewrite (py_div_positive _ _ Hdt). simpl.
  rewrite Hq. simpl. rewrite add_parity_cases. reflexivity.
Qed.

(** X19: for a data object with [dt > 0] for which the float quotient
    [600/dt] is finite, [_calc] on a spectrum format returns the
    frequencies and the power that the estimator gives for the time series
    at the format's grid point (the hub when the format has none), with the
    sample rate [1./dt] and a window of [int(600/dt)] points made even,
    each array without its first entry. *)
Theorem spec_format_end_to_end `{Mlab} (items : list (class * string))
    (window_time_sec : Q) (igrid : option (Z * Z)) (obj : pyobj) (d : tsdata.t)
    (comp : component) (i : Z) (u : list Q) :
  items ≡ₚ method_map ->
  cls_tsdata ∈ mro obj -> cls_tsrun ∉ mro obj ->
  obj_tsdata obj = Some d ->
  index_of comp = Some i ->
  float.is_positive (tsdata.dt d) = true ->
  float.is_infinity (float.div (float.of_int 600) (tsdata.dt d)) = false ->
  np_point (tsdata.uturb d) i (or_pair igrid (tsdata.ihub d)) = Ok u ->
  exists q,
    py_int (float.div (float.of_int 600) (tsdata.dt d)) = Ok q /\
    let nfft := if Z.odd q then q + 1 else q in
    let lib := mlab_psd u nfft (float.div one (tsdata.dt d)) detrend_linear (nfft / 2) in
    base_axForm._calc items (spec_axForm.__init__ window_time_sec igrid) obj comp
      = Ok (Arr (drop 1 (snd lib)), Arr (drop 1 (fst lib))).
Proof.
  intros Hp Hin Hout Hd Hi Hdt Hfin Hu.
  destruct (calc_nfft_finite 600 (float.of_int 600) (tsdata.dt d) eq_refl Hdt Hfin)
    as (q & Hq & Hn).
  exists q. split; [exact Hq|]. intros nfft lib.
  rewrite (calc_index _ _ _ _ _ Hi).
  rewrite (proj1 (dispatch_only items _ obj i Hp) Hin Hout).
  unfold call_or_nan. simpl.
  unfold spec_axForm.methods. rewrite lookup_insert_eq.
  unfold on_tsdata, as_tsdata. rewrite Hd. simpl.
  unfold spec_axForm._calc_tsdata, get_window_time. simpl.
  rewrite Hn. simpl.
  destruct igrid as [g|]; simpl in Hu |- *; rewrite Hu; simpl;
    rewrite (py_div_positive _ _ Hdt); simpl; unfold psd;
    subst lib nfft;
    destruct (mlab_psd _ _ _ _ _) as [p f]; reflexivity.
Qed.

(** For the sample with [dt = 0.00256] the window has 234374 points. *)
Lemma spec_format_end_to_end_witness :
  py_int (float.div (float.of_int 600) (tsdata.dt Samples.fine)) = Ok 234374 /\
  base_axForm._calc method_map (spec_axForm.__init__ (H := Samples.mlab) 60 None)
    Samples.obj_fine (CStr "v")
  = Ok (Arr [1; 2]%Q, Arr [2; 3]%Q).
Proof.
  assert (Hin : cls_tsdata ∈ mro Samples.obj_fine)
    by (apply (bool_decide_unpack _); reflexivity).
  assert (Hout : cls_tsrun ∉ mro Samples.obj_fine)
    by (apply (bool_decide_unpack (_ ∉ _)); reflexivity).
  destruct (spec_format_end_to_end (H := Samples.mlab) method_map 60 None Samples.obj_fine
              Samples.fine (CStr "v") 1 [1; 2; 3]%Q (reflexivity _) Hin Hout
              eq_refl eq_refl eq_refl eq_refl eq_refl) as (q & Hq & Hc).
  vm_compute in Hq. injection Hq as <-.
  split; [reflexivity|exact Hc].
Defined.

(** ** The layout a figure computes *)

Lemma np_get_nat {A} (l : list A) (k : nat) (a : A) :
  np_get l (Z.of_nat k) = Ok a -> l !! k = Some a.
Proof.
  unfold np_get. replace (Z.of_nat k <? 0) with false by (symmetry; apply Z.ltb_ge; lia).
  destruct (_ && _); [|discriminate]. rewrite Nat2Z.id.
  destruct (l !! k); [congruence|discriminate].
Qed.

Lemma np_set_nat {A} (l l' : list A) (k : nat) (v : A) :
  np_set l (Z.of_nat k) v = Ok l' -> (k < length l)%nat /\ l' = <[k := v]> l.
Proof.
  unfold np_set. replace (Z.of_nat k <? 0) with false by (symmetry; apply Z.ltb_ge; lia).
  destruct (_ && _) eqn:E; [|discriminate]. rewrite Nat2Z.id.
  apply andb_prop in E as [_ E]. apply Z.ltb_lt in E.
  intros He. injection He as <-. split; [lia|reflexivity].
Qed.

Lemma same_but_hide_hrel (f g : axForm) :
  same_but_hide f g -> hrel (form_attrs g) = hrel (form_attrs f).
Proof. intros (_ & _ & [-> | ->]); reflexivity. Qed.

Lemma place_layout (tightgap : Q) (k : nat) (l : loc) (lay lay1 : fig_axForms.layout)
    (last last1 : option string) (s s1 : store) (es : list event) (f : axForm) :
  fig_axForms.place tightgap (Z.of_nat k) l (lay, last) s = (s1, (es, Ok (lay1, last1))) ->
  s !! l = Some f ->
  (last = yax (form_attrs f) ->
   (exists prev, np_get (fig_axForms.sharey lay) (Z.of_nat k - 1) = Ok prev /\
                 fig_axForms.sharey lay1 = <[k := prev]> (fig_axForms.sharey lay)) /\
   (k < length (fig_axForms.sharey lay))%nat /\
   (k < length (fig_axForms.hspacer_gap lay))%nat /\
   fig_axForms.hspacer_gap lay1 = <[k := tightgap]> (fig_axForms.hspacer_gap lay)) /\
  (last <> yax (form_attrs f) ->
   fig_axForms.sharey lay1 = fig_axForms.sharey lay /\
   fig_axForms.hspacer_gap lay1 = fig_axForms.hspacer_gap lay) /\
  match hrel (form_attrs f) with
  | Some h =>
      exists cur, fig_axForms.hspacer_axsize lay !! k = Some cur /\
                  fig_axForms.hspacer_axsize lay1
                    = <[k := (cur * h)%Q]> (fig_axForms.hspacer_axsize lay)
  | None => fig_axForms.hspacer_axsize lay1 = fig_axForms.hspacer_axsize lay
  end.
Proof.
  intros Hrun Hl. revert Hrun.
  unfold fig_axForms.place, fig_axForms.load, fig_axForms.set_hide, attempt, lift,
    mbind, fx_bind, mret, fx_ret, io_ret.
  rewrite Hl. simpl.
  destruct (yax (form_attrs f)) as [y|] eqn:Ey; simpl; [|discriminate].
  case_decide as Hd; simpl.
  - destruct (np_get (fig_axForms.sharey lay) (Z.of_nat k - 1)) as [prev|] eqn:Eg; simpl;
      [|discriminate].
    destruct (np_set (fig_axForms.sharey lay) (Z.of_nat k) prev) as [sy|] eqn:Es; simpl;
      [|discriminate].
    destruct (np_set (fig_axForms.hspacer_gap lay) (Z.of_nat k) tightgap) as [gp|] eqn:Egp;
      simpl; [|discriminate].
    rewrite Hl. simpl.
    apply np_set_nat in Es as [Hk1 ->]. apply np_set_nat in Egp as [Hk2 ->].
    destruct (hrel (form_attrs f)) as [h|]; simpl.
    + destruct (np_get _ (Z.of_nat k)) as [cur|] eqn:Ec; simpl; [|discriminate].
      destruct (np_set _ (Z.of_nat k) _) as [sz|] eqn:Esz; simpl; [|discriminate].
      apply np_get_nat in Ec. apply np_set_nat in Esz as [_ ->].
      intros Heq. injection Heq as _ _ <- _. simpl.
      split; [intros _; eauto 10|]. split; [intros Hne; congruence|eauto].
    + intros Heq. injection Heq as _ _ <- _. simpl.
      split; [intros _; eauto 10|]. split; [intros Hne; congruence|reflexivity].
  - destruct (hrel (form_attrs f)) as [h|]; simpl.
    + destruct (np_get _ (Z.of_nat k)) as [cur|] eqn:Ec; simpl; [|discriminate].
      destruct (np_set _ (Z.of_nat k) _) as [sz|] eqn:Esz; simpl; [|discriminate].
      apply np_get_nat in Ec. apply np_set_nat in Esz as [_ ->].
      intros Heq. injection Heq as _ _ <- _. simpl.
      split; [intros Hs; congruence|]. split; [auto|eauto].
    + intros Heq. injection Heq as _ _ <- _. simpl.
      split; [intros Hs; congruence|]. split; [auto|reflexivity].
Qed.

Lemma place_others (tightgap : Q) (k : nat) (l : loc) (lay lay1 : fig_axForms.layout)
    (last last1 : option string) (s s1 : store) (es : list event) (f : axForm) :
  fig_axForms.place tightgap (Z.of_nat k) l (lay, last) s = (s1, (es, Ok (lay1, last1))) ->
  s !! l = Some f ->
  forall j, j <> k ->
    fig_axForms.sharey lay1 !! j = fig_axForms.sharey lay !! j /\
    fig_axForms.hspacer_gap lay1 !! j = fig_axForms.hspacer_gap lay !! j /\
    fig_axForms.hspacer_axsize lay1 !! j = fig_axForms.hspacer_axsize lay !! j.
Proof.
  intros Hrun Hl j Hj.
  destruct (place_layout _ _ _ _ _ _ _ _ _ _ _ Hrun Hl) as (Hsame & Hdiff & Hax).
  assert (Hsz : fig_axForms.hspacer_axsize lay1 !! j = fig_axForms.hspacer_axsize lay !! j).
  { destruct (hrel (form_attrs f)) as [h|].
    - destruct Hax as (cur & _ & ->). apply list_lookup_insert_ne. congruence.
    - rewrite Hax. reflexivity. }
  destruct (decide (last = yax (form_attrs f))) as [Hd|Hd].
  - destruct (Hsame Hd) as ((prev & _ & ->) & _ & _ & ->).
    rewrite !list_lookup_insert_ne by congruence. auto.
  - destruct (Hdiff Hd) as [-> ->]. auto.
Qed.

Lemma prev_yax_cons (s s1 : store) (last : option string) (l0 : loc) (rest : list loc)
    (i : nat) (y0 : string) :
  frame s s1 -> yax_at s l0 = Some y0 ->
  prev_yax s last (l0 :: rest) (S i) = prev_yax s1 (Some y0) rest i.
Proof.
  intros Hf Hy. destruct i as [|p]; simpl; [exact Hy|].
  destruct (rest !! p); [symmetry; apply frame_yax_at, Hf|reflexivity].
Qed.

Lemma place_all_layout (tightgap : Q) (rest : list loc) :
  forall k lay last s s' es lay' last',
    fig_axForms.place_all tightgap (Z.of_nat k) rest (lay, last) s
      = (s', (es, Ok (lay', last'))) ->
    (k = 0%nat -> last = None) ->
    (forall j, (j < k)%nat ->
       fig_axForms.sharey lay' !! j = fig_axForms.sharey lay !! j /\
       fig_axForms.hspacer_gap lay' !! j = fig_axForms.hspacer_gap lay !! j /\
       fig_axForms.hspacer_axsize lay' !! j = fig_axForms.hspacer_axsize lay !! j) /\
    (forall i l f, rest !! i = Some l -> s !! l = Some f ->
       (prev_yax s last rest i = yax (form_attrs f) ->
        (k + i)%nat <> 0%nat /\
        fig_axForms.sharey lay' !! (k + i)%nat = fig_axForms.sharey lay' !! (k + i - 1)%nat /\
        fig_axForms.hspacer_gap lay' !! (k + i)%nat = Some tightgap) /\
       (prev_yax s last rest i <> yax (form_attrs f) ->
        fig_axForms.sharey lay' !! (k + i)%nat = fig_axForms.sharey lay !! (k + i)%nat /\
        fig_axForms.hspacer_gap lay' !! (k + i)%nat
          = fig_axForms.hspacer_gap lay !! (k + i)%nat) /\
       fig_axForms.hspacer_axsize lay' !! (k + i)%nat
         = match hrel (form_attrs f) with
           | Some h => (fun c => c * h)%Q <$> fig_axForms.hspacer_axsize lay !! (k + i)%nat
           | None => fig_axForms.hspacer_axsize lay !! (k + i)%nat
           end).
Proof.
  induction rest as [|l0 rest IH]; intros k lay last s s' es lay' last' Hrun Hk0.
  - injection Hrun as _ _ <- _. split; [auto|]. intros i l f Hi. discriminate Hi.
  - rewrite place_all_cons in Hrun.
    apply fx_bind_ok in Hrun as (s1 & es1 & [lay1 last1] & es2 & Hp & Hrest & _).
    pose proof (keeps_place tightgap (Z.of_nat k) l0 (lay, last) s) as Hf1.
    rewrite Hp in Hf1. simpl in Hf1.
    destruct (place_ok _ _ _ _ _ _ _ _ _ _ Hp) as (y0 & Hy0 & -> & _ & _).
    assert (Hl0 : exists f0, s !! l0 = Some f0 /\ yax (form_attrs f0) = Some y0).
    { unfold yax_at in Hy0. destruct (s !! l0) as [f0|]; [eauto|discriminate]. }
    destruct Hl0 as (f0 & Hl0 & Hyf0).
    pose proof (place_others _ _ _ _ _ _ _ _ _ _ _ Hp Hl0) as Hoth.
    destruct (place_layout _ _ _ _ _ _ _ _ _ _ _ Hp Hl0) as (Hsame & Hdiff & Hax).
    replace (Z.of_nat k + 1) with (Z.of_nat (S k)) in Hrest by lia.
    destruct (IH _ _ _ _ _ _ _ _ Hrest) as [Hpre Hpost]; [discriminate|].
    split.
    + intros j Hj. destruct (Hpre j) as (H1 & H2 & H3); [lia|].
      destruct (Hoth j) as (H4 & H5 & H6); [lia|].
      rewrite H1, H2, H3. auto.
    + intros i l f Hi Hl. destruct i as [|i]; simpl in Hi.
      * injection Hi as <-. rewrite Hl0 in Hl. injection Hl as <-.
        replace (k + 0)%nat with k by lia.
        destruct (Hpre k) as (H1 & H2 & H3); [lia|]. rewrite H1, H2, H3. simpl.
        split; [|split].
        -- intros Hs. destruct (Hsame Hs) as ((prev & Hg & Hsy) & Hk1 & Hk2 & Hgp).
           assert (Hk : k <> 0%nat).
           { intros ->. rewrite (Hk0 eq_refl) in Hs. congruence. }
           split; [exact Hk|]. rewrite Hsy, Hgp.
           rewrite !list_lookup_insert_eq by assumption.
           split; [|reflexivity].
           destruct k as [|p]; [contradiction|].
           replace (Z.of_nat (S p) - 1) with (Z.of_nat p) in Hg by lia.
           apply np_get_nat in Hg.
           replace (S p - 1)%nat with p by lia.
           destruct (Hpre p) as (H1' & _); [lia|]. rewrite H1', Hsy.
           rewrite list_lookup_insert_ne by lia. symmetry. exact Hg.
        -- intros Hs. destruct (Hdiff Hs) as [-> ->]. auto.
        -- destruct (hrel (form_attrs f0)) as [h|].
           ++ destruct Hax as (cur & Hc & ->). rewrite Hc. simpl.
              apply list_lookup_insert_eq. eapply lookup_lt_Some, Hc.
           ++ rewrite Hax. reflexivity.
      * pose proof (Hf1 l) as Hfl. rewrite Hl in Hfl.
        inversion Hfl as [f' f1 Hff1 Hf' Hl1|]; subst f'. symmetry in Hl1.
        destruct (Hpost i l f1 Hi Hl1) as (Hs & Hd & Ha).
        rewrite (prev_yax_cons s s1 last l0 rest i y0 Hf1 Hy0).
        rewrite <- (same_but_hide_yax _ _ Hff1), <- (same_but_hide_hrel _ _ Hff1).
        replace (k + S i)%nat with (S k + i)%nat by lia.
        destruct (Hoth (S k + i)%nat) as (H4 & H5 & H6); [lia|].
        rewrite <- H4, <- H5, <- H6. auto.
Qed.

Lemma share_row_lookup (n idx : nat) :
  (idx < n)%nat -> fig_axForms.share_row n !! idx = Some ((Z.of_nat idx + 1) mod 256).
Proof.
  intros Hlt. unfold fig_axForms.share_row.
  rewrite list_lookup_fmap, lookup_seq_lt by exact Hlt. reflexivity.
Qed.

(** X20: the layout of a figure that [fig_axForms.__init__] returns.  A
    column whose format has the same [yax] as the column before it shares
    that column's y axis and is set off by [tightgap]; every other column
    has its own y axis, numbered by its position, and keeps the gap of the
    spacer.  The width of every column is the spacer's width times the
    format's [hrel], when it has one.  Each column has its own x axis. *)
Theorem init_layout (fignum : Z) (axforms : list loc) (comp : list component)
    (hspacer : list Q * list Q) (tightgap : Q) (s s' : store) (es : list event)
    (fig : fig_axForms.t) (idx : nat) (l : loc) (f : axForm) :
  fig_axForms.__init__ fignum axforms comp hspacer tightgap s = (s', (es, Ok fig)) ->
  axforms !! idx = Some l ->
  s !! l = Some f ->
  let lay := fig_axForms.placed fig in
  (prev_yax s None axforms idx = yax (form_attrs f) ->
   idx <> 0%nat /\
   fig_axForms.sharey lay !! idx = fig_axForms.sharey lay !! (idx - 1)%nat /\
   fig_axForms.hspacer_gap lay !! idx = Some tightgap) /\
  (prev_yax s None axforms idx <> yax (form_attrs f) ->
   fig_axForms.sharey lay !! idx = Some ((Z.of_nat idx + 1) mod 256) /\
   fig_axForms.hspacer_gap lay !! idx = fst hspacer !! idx) /\
  fig_axForms.hspacer_axsize lay !! idx
    = match hrel (form_attrs f) with
      | Some h => (fun c => c * h)%Q <$> snd hspacer !! idx
      | None => snd hspacer !! idx
      end /\
  fig_axForms.sharex fig !! idx = Some ((Z.of_nat idx + 1) mod 256).
Proof.
  intros Hrun Hi Hl lay. subst lay.
  apply init_ok in Hrun as (es1 & last1 & Hp & _ & _ & Hsx).
  change 0 with (Z.of_nat 0) in Hp.
  destruct (place_all_layout _ _ _ _ _ _ _ _ _ _ Hp (fun _ => eq_refl)) as [_ Hpost].
  destruct (Hpost idx l f Hi Hl) as (Hs & Hd & Ha). simpl in Hs, Hd, Ha.
  replace (idx - 0)%nat with idx in Hs by lia.
  assert (Hlt : (idx < length axforms)%nat) by (eapply lookup_lt_Some, Hi).
  split; [exact Hs|]. split; [|split; [exact Ha|]].
  - intros Hne. destruct (Hd Hne) as [H1 H2].
    rewrite H1, H2. split; [apply share_row_lookup, Hlt|reflexivity].
  - rewrite Hsx. apply share_row_lookup, Hlt.
Qed.

Lemma init_layout_witness :
  let lay := fig_axForms.placed Cases.fig_two in
  1%nat <> 0%nat /\
  fig_axForms.sharey lay !! 1%nat = fig_axForms.sharey lay !! (1 - 1)%nat /\
  fig_axForms.hspacer_gap lay !! 1%nat = Some 0.2%Q.
Proof.
  refine (proj1 (init_layout 400 [0%nat; 1%nat] Cases.uvw Cases.spacer2 0.2
                   Cases.two_profiles _ [FigureSetup 400] Cases.fig_two 1%nat 1%nat
                   (tkeprof_axForm.__init__ (Some 0%Q, None)) _ eq_refl eq_refl) eq_refl).
  vm_compute. reflexivity.
Defined.

(** ** Shared y axes, from construction to finishing *)

Lemma io_only_ret {A} (P : event -> Prop) (a : A) : io_only P (mret a).
Proof. intros e He. apply elem_of_nil in He. destruct He. Qed.

Lemma io_only_lift {A} (P : event -> Prop) (r : res A) : io_only P (lift r).
Proof. intros e He. apply elem_of_nil in He. destruct He. Qed.

Lemma io_only_emit (P : event -> Prop) (e : event) : P e -> io_only P (emit e).
Proof.
  intros HP e' He. apply elem_of_cons in He as [->|He]; [exact HP|].
  apply elem_of_nil in He. destruct He.
Qed.

Lemma io_only_bind {A B} (P : event -> Prop) (m : io A) (k : A -> io B) :
  io_only P m -> (forall a, io_only P (k a)) -> io_only P (m ≫= k).
Proof.
  intros Hm Hk e. unfold mbind, io_bind. destruct m as [es [a|err]]; simpl.
  - specialize (Hk a). destruct (k a) as [es' r]. simpl.
    intros He. apply elem_of_app in He as [He|He]; [apply Hm|apply Hk]; exact He.
  - apply Hm.
Qed.

Lemma io_only_for_each {A} (P : event -> Prop) (l : list A) (body : A -> io unit) :
  (forall x, x ∈ l -> io_only P (body x)) -> io_only P (for_each l body).
Proof.
  induction l as [|x l IH]; intros Hb; simpl.
  - apply io_only_ret.
  - apply io_only_bind.
    + apply Hb, elem_of_cons. left. reflexivity.
    + intros _. apply IH. intros y Hy. apply Hb, elem_of_cons. right. exact Hy.
Qed.

Lemma finalize_ylabel (self : attrs) (axes : list ax) :
  io_only (ylabel_allowed self axes) (base_axForm.finalize self axes).
Proof.
  unfold base_axForm.finalize.
  apply io_only_bind; [apply io_only_lift|intros last].
  apply io_only_bind; [apply io_only_emit; exact I|intros _].
  apply io_only_bind; [destruct (hide_ylabels self);
                       [apply io_only_emit; exact I|apply io_only_ret]|intros _].
  apply io_only_bind; [|intros _].
  { destruct (hide_ylabels self) eqn:Hh; simpl; [apply io_only_ret|].
    destruct (_ylabel self) as [t|]; [|apply io_only_ret].
    apply io_only_for_each. intros a Ha. apply io_only_emit. simpl.
    split; [exact Hh|]. apply list_elem_of_fmap. eauto. }
  apply io_only_bind; [|intros _].
  { destruct (base_axForm._xlabel self); [|apply io_only_ret].
    apply io_only_bind; [apply io_only_lift|intros ?]. apply io_only_emit. exact I. }
  apply io_only_bind; [|intros _].
  { destruct (_title self); [|apply io_only_ret].
    apply io_only_bind; [apply io_only_lift|intros ?]. apply io_only_emit. exact I. }
  apply io_only_bind; [|intros _].
  { destruct (_grid_x self); [|apply io_only_ret].
    apply io_only_for_each. intros a _. apply io_only_for_each. intros v _.
    apply io_only_emit. exact I. }
  destruct (_labels self); [|apply io_only_ret].
  apply io_only_for_each. intros a _.
  apply io_only_bind; [apply io_only_lift|intros ?]. apply io_only_emit. exact I.
Qed.

Lemma for_enumerate_event {St A} (l : list A) (body : Z -> A -> fx St unit) :
  (forall idx x, reads_only (body idx x)) ->
  forall k s e,
    e ∈ fst (snd (for_enumerate (Z.of_nat k) l body s)) ->
    exists i x, l !! i = Some x /\ e ∈ fst (snd (body (Z.of_nat (k + i)) x s)).
Proof.
  intros Hb. induction l as [|x l IH]; intros k s e; simpl.
  - intros He. apply elem_of_nil in He. destruct He.
  - unfold mbind, fx_bind. pose proof (Hb (Z.of_nat k) x s) as Hs.
    destruct (body (Z.of_nat k) x s) as [s1 [es [[]|err]]] eqn:Eb; simpl in Hs; subst s1.
    + replace (Z.of_nat k + 1) with (Z.of_nat (S k)) by lia.
      specialize (IH (S k) s e).
      destruct (for_enumerate (Z.of_nat (S k)) l body s) as [s2 [es' r]]. simpl in *.
      intros He. apply elem_of_app in He as [He|He].
      * exists 0%nat, x. replace (k + 0)%nat with k by lia. rewrite Eb. auto.
      * destruct (IH He) as (i & y & Hi & Hy). exists (S i), y.
        replace (k + S i)%nat with (S k + i)%nat by lia. auto.
    + simpl. intros He. exists 0%nat, x. replace (k + 0)%nat with k by lia.
      rewrite Eb. auto.
Qed.

Lemma column_positions (comp : list component) (c : nat) (a : axref) :
  a ∈ ax_pos <$> fig_axForms.column comp c -> snd a = c.
Proof.
  intros Ha. apply list_elem_of_fmap in Ha as (x & -> & Hx).
  apply list_elem_of_lookup in Hx as [i Hi].
  unfold fig_axForms.column in Hi. rewrite list_lookup_imap in Hi.
  destruct (comp !! i); [|discriminate]. injection Hi as <-. reflexivity.
Qed.

(** X21: in a figure that [fig_axForms.__init__] returned, a column whose
    format comes right after a format with the same [yax] never gets a y
    label from [finalize]. *)
Theorem shared_column_has_no_ylabel (fignum : Z) (axforms : list loc)
    (comp : list component) (hspacer : list Q * list Q) (tightgap : Q) (s s' : store)
    (es : list event) (fig : fig_axForms.t) (idx : nat) (l : loc) :
  fig_axForms.__init__ fignum axforms comp hspacer tightgap s = (s', (es, Ok fig)) ->
  axforms !! idx = Some l ->
  follows_same_yax s axforms l ->
  forall i t, SetYlabel (i, idx) t ∉ fst (snd (fig_axForms.finalize fig s')).
Proof.
  intros Hrun Hi Hfol i t He.
  apply init_ok in Hrun as (es1 & last1 & Hp & Hcomp & Hax & _).
  assert (Hh : hidden s' l).
  { apply (place_all_hides _ _ _ _ _ _ _ _ _ Hp). right. exact Hfol. }
  unfold fig_axForms.finalize in He. rewrite Hcomp, Hax in He.
  unfold mbind at 1, fx_bind in He.
  match type of He with
  | context [for_enumerate 0 axforms ?body s'] =>
      pose proof (for_enumerate_event axforms body
                    (fun k x => reads_only_load_draw x _) 0 s'
                    (SetYlabel (i, idx) t)) as Hloop;
      pose proof (reads_only_for_enumerate axforms body
                    (fun k x => reads_only_load_draw x _) 0 s') as Hro;
      change (Z.of_nat 0) with 0 in Hloop;
      destruct (for_enumerate 0 axforms body s') as [s1 [es0 [[]|err]]]
  end; simpl in He, Hloop, Hro.
  - unfold draw in He.
    match type of He with
    | context [for_each ?axes ?body] =>
        assert (Hlab : io_only (fun e => forall a u, e <> SetYlabel a u) (for_each axes body))
    end.
    { apply io_only_for_each. intros a _. destruct (ax_comp a).
      - apply io_only_emit. discriminate.
      - apply io_only_lift. }
    destruct (for_each _ _) as [es' r]. simpl in He.
    apply elem_of_app in He as [He|He]; [|exact (Hlab _ He _ _ eq_refl)].
    destruct (Hloop He) as (i' & l' & Hi' & He').
    clear Hloop He Hlab. revert He'.
    unfold mbind, fx_bind, fig_axForms.load, draw. simpl.
    destruct (s' !! l') as [f'|] eqn:El'; simpl;
      [|intros Hn; apply elem_of_nil in Hn; destruct Hn].
    rewrite Nat2Z.id.
    pose proof (finalize_ylabel (form_attrs f') (fig_axForms.column comp i')) as Hy.
    destruct (base_axForm.finalize _ _) as [es2 r2]. simpl.
    intros He2. destruct (Hy _ He2) as [Hhide Hpos].
    apply column_positions in Hpos. simpl in Hpos. subst i'.
    rewrite Hi in Hi'. injection Hi' as <-.
    destruct Hh as (g & Hg & Hgh). rewrite El' in Hg. injection Hg as <-. congruence.
  - destruct (Hloop He) as (i' & l' & Hi' & He').
    clear Hloop He. revert He'.
    unfold mbind, fx_bind, fig_axForms.load, draw. simpl.
    destruct (s' !! l') as [f'|] eqn:El'; simpl;
      [|intros Hn; apply elem_of_nil in Hn; destruct Hn].
    rewrite Nat2Z.id.
    pose proof (finalize_ylabel (form_attrs f') (fig_axForms.column comp i')) as Hy.
    destruct (base_axForm.finalize _ _) as [es2 r2]. simpl.
    intros He2. destruct (Hy _ He2) as [Hhide Hpos].
    apply column_positions in Hpos. simpl in Hpos. subst i'.
    rewrite Hi in Hi'. injection Hi' as <-.
    destruct Hh as (g & Hg & Hgh). rewrite El' in Hg. injection Hg as <-. congruence.
Qed.

Lemma shared_column_has_no_ylabel_witness :
  SetYlabel (0, 1)%nat "$z\,\mathrm{[m]}$"
    ∉ fst (snd (fig_axForms.finalize Cases.fig_two
                  (fst (fig_axForms.__init__ 400 [0%nat; 1%nat] Cases.uvw Cases.spacer2 0.2
                          Cases.two_profiles)))).
Proof.
  refine (shared_column_has_no_ylabel 400 [0%nat; 1%nat] Cases.uvw Cases.spacer2 0.2
            Cases.two_profiles _ [FigureSetup 400] Cases.fig_two 1%nat 1%nat _ eq_refl _
            0%nat "$z\,\mathrm{[m]}$").
  - vm_compute. reflexivity.
  - exists 0%nat, 0%nat, "z". repeat split.
Defined.
